(** * MCP-Weather: the Open-Meteo tool server ([server.py])

    A shallow embedding of [server.py] and of the parts of the Python
    runtime it calls ([str], [float.__repr__], [float()], [json.dumps],
    [json.loads]), followed by the properties of the two tools
    [get_forecast] and [get_current_weather] and of the fetcher
    [make_openmeteo_request]. *)

From Stdlib Require Import Strings.Ascii Strings.String Strings.Byte.
From Stdlib Require Import List ZArith Lia Bool.
From Stdlib Require Import Floats.SpecFloat.
Import ListNotations.
Local Open Scope Z_scope.

(** ** Python text

    A Python [str] is a sequence of Unicode code points (surrogates
    included); a code point is an integer in [0, 0x110000). *)

Definition codepoint := Z.
Definition pystr := list codepoint.

Definition is_codepoint (c : codepoint) : Prop := 0 <= c < 1114112.

(** String literals of this file are UTF-8 text; [u] reads one as the
    Python literal with the same characters. *)
Fixpoint utf8_decode (bs : list Z) : pystr :=
  match bs with
  | [] => []
  | b :: r =>
    if b <? 128 then b :: utf8_decode r
    else if b <? 224 then
      match r with
      | b1 :: r1 => ((b - 192) * 64 + (b1 - 128)) :: utf8_decode r1
      | _ => []
      end
    else if b <? 240 then
      match r with
      | b1 :: b2 :: r2 =>
        ((b - 224) * 4096 + (b1 - 128) * 64 + (b2 - 128)) :: utf8_decode r2
      | _ => []
      end
    else
      match r with
      | b1 :: b2 :: b3 :: r3 =>
        ((b - 240) * 262144 + (b1 - 128) * 4096 + (b2 - 128) * 64 + (b3 - 128))
          :: utf8_decode r3
      | _ => []
      end
  end.

Definition u (s : string) : pystr :=
  utf8_decode (map (fun b => Z.of_N (Byte.to_N b)) (list_byte_of_string s)).

(** [sep.join(parts)] *)
Fixpoint join (sep : pystr) (parts : list pystr) : pystr :=
  match parts with
  | [] => []
  | [p] => p
  | p :: rest => p ++ sep ++ join sep rest
  end.

Definition pystr_eqb (a b : pystr) : bool :=
  if list_eq_dec Z.eq_dec a b then true else false.

(** ** Python integers as text *)

Definition digit_char (d : Z) : codepoint := 48 + d.
Definition is_digit (c : codepoint) : bool := (48 <=? c) && (c <=? 57).

Fixpoint to_digits (fuel : nat) (n : Z) (acc : list Z) : list Z :=
  match fuel with
  | O => acc
  | S f => if n <? 10 then n :: acc else to_digits f (n / 10) (n mod 10 :: acc)
  end.

(** The decimal digits of [n >= 0], most significant first. *)
Definition decimal_digits (n : Z) : list Z :=
  to_digits (S (Z.to_nat (Z.log2 n))) n [].

(** The number a digit sequence denotes. *)
Definition digits_value (ds : list Z) : Z :=
  fold_left (fun a d => 10 * a + d) ds 0.

Definition chars_value (cs : pystr) : Z :=
  digits_value (map (fun c => c - 48) cs).

Definition nat_str (n : Z) : pystr := map digit_char (decimal_digits n).

(** [int.__repr__] *)
Definition int_repr (n : Z) : pystr :=
  if n <? 0 then 45 :: nat_str (- n) else nat_str n.

(** ** Python floats

    A Python [float] is an IEEE-754 binary64 number: [spec_float] with
    precision 53 and [emax = 1024].  A finite non-zero float is
    [(-1)^s * m * 2^e]. *)

Definition valid_double (x : spec_float) : bool := valid_binary 53 1024 x.

(** Positive rationals are pairs [n/d]; [scaled n d e] is [(n/d) / 2^e]. *)
Definition scaled (n d e : Z) : Z * Z :=
  (n * 2 ^ Z.max 0 (- e), d * 2 ^ Z.max 0 e).

(** The [k] with [2^k <= n/d < 2^(k+1)]. *)
Definition floor_log2_ratio (n d : Z) : Z :=
  let t := Z.log2 n - Z.log2 d in
  let '(N, D) := scaled n d t in
  if D <=? N then t else t - 1.

(** The integer nearest to [n/d], ties to the even one. *)
Definition round_half_even (n d : Z) : Z :=
  let q := n / d in
  let r := n mod d in
  if 2 * r <? d then q
  else if d <? 2 * r then q + 1
  else if Z.even q then q else q + 1.

(** Correct rounding of the rational [n/d] to binary64 (round to nearest,
    ties to even), as [float()] rounds the decimal it reads. *)
Definition float_of_ratio (neg : bool) (n d : Z) : spec_float :=
  if n <=? 0 then S754_zero neg
  else
    let e := Z.max (floor_log2_ratio n d - 52) (-1074) in
    let '(N, D) := scaled n d e in
    let m := round_half_even N D in
    let '(m, e) := if m =? 9007199254740992 then (4503599627370496, e + 1) else (m, e) in
    match m with
    | Zpos p => if 971 <? e then S754_infinity neg else S754_finite neg p e
    | _ => S754_zero neg
    end.

(** The float nearest to [D * 10^E]. *)
Definition float_of_decimal (neg : bool) (D E : Z) : spec_float :=
  float_of_ratio neg (D * 10 ^ Z.max 0 E) (10 ^ Z.max 0 (- E)).

(** [n/d] rounds to the float [m * 2^e]: it lies between the midpoints to
    the two neighbouring floats (a midpoint itself rounds to the even
    mantissa; below a power of two the neighbour is half as far). *)
Definition in_rounding_interval (m e n d : Z) : bool :=
  let '(N, D) := scaled n d e in
  let lower :=
    if (m =? 4503599627370496) && (-1074 <? e) then (4 * m - 1) * D <=? 4 * N
    else if Z.even m then (2 * m - 1) * D <=? 2 * N
    else (2 * m - 1) * D <? 2 * N in
  let upper :=
    if Z.even m then 2 * N <=? (2 * m + 1) * D
    else 2 * N <? (2 * m + 1) * D in
  lower && upper.

(** The [q] with [10^q <= n/d < 10^(q+1)]. *)
Definition floor_log10_ratio (n d : Z) : Z :=
  let t := Z.of_nat (length (decimal_digits n)) - Z.of_nat (length (decimal_digits d)) in
  if d * 10 ^ Z.max 0 t <=? n * 10 ^ Z.max 0 (- t) then t else t - 1.

(** The decimal [c * 10^p] with [k] significant digits closest to
    [m * 2^e], when it reads back as that float. *)
Definition candidate (m e q k : Z) : option (Z * Z) :=
  let n := m * 2 ^ Z.max 0 e in
  let d := 2 ^ Z.max 0 (- e) in
  let p := q - k + 1 in
  let num := n * 10 ^ Z.max 0 (- p) in
  let den := d * 10 ^ Z.max 0 p in
  let c := num / den in
  let r := num mod den in
  let ok c := (0 <? c) && in_rounding_interval m e (c * 10 ^ Z.max 0 p) (10 ^ Z.max 0 (- p)) in
  let lo := ok c in
  let hi := ok (c + 1) in
  if lo && hi then
    Some (if 2 * r <? den then c
          else if den <? 2 * r then c + 1
          else if Z.even c then c else c + 1, p)
  else if lo then Some (c, p)
  else if hi then Some (c + 1, p)
  else None.

Fixpoint first_candidate (m e q : Z) (ks : list Z) : option (Z * Z) :=
  match ks with
  | [] => None
  | k :: ks' =>
    match candidate m e q k with
    | Some r => Some r
    | None => first_candidate m e q ks'
    end
  end.

(** The exact decimal expansion of [m * 2^e]. *)
Definition exact_decimal (m e : Z) : Z * Z :=
  if 0 <=? e then (m * 2 ^ e, 0) else (m * 5 ^ (- e), e).

(** The shortest decimal that reads back as [m * 2^e] (float repr, mode 0
    of [dtoa]): the fewest significant digits and, among those, the
    closest.  Seventeen digits always suffice for binary64; the exact
    expansion stands behind the search to make the function total. *)
Definition shortest_decimal (m e : Z) : Z * Z :=
  let q := floor_log10_ratio (m * 2 ^ Z.max 0 e) (2 ^ Z.max 0 (- e)) in
  match first_candidate m e q [1; 2; 3; 4; 5; 6; 7; 8; 9; 10; 11; 12; 13; 14; 15; 16; 17] with
  | Some r => r
  | None => exact_decimal m e
  end.

Fixpoint strip_zeros_rev (ds : list Z) : list Z * Z :=
  match ds with
  | 0 :: r => let '(ds', z) := strip_zeros_rev r in (ds', z + 1)
  | _ => (ds, 0)
  end.

(** The digits of [c] without its trailing zeros, and how many were
    dropped. *)
Definition strip_trailing_zeros (c : Z) : list Z * Z :=
  let '(r, z) := strip_zeros_rev (rev (decimal_digits c)) in (rev r, z).

Definition zeros (n : Z) : pystr := repeat 48 (Z.to_nat n).

Definition digit_chars (ds : list Z) : pystr := map digit_char ds.

(** [format_float_short] for the ['r'] format: digits [ds] with the
    decimal point [decpt] places after the first digit's left edge. *)
Definition format_float_short (ds : list Z) (decpt : Z) : pystr :=
  let n := Z.of_nat (length ds) in
  if (-4 <? decpt) && (decpt <=? 16) then
    if decpt <=? 0 then u "0." ++ zeros (- decpt) ++ digit_chars ds
    else if n <=? decpt then digit_chars ds ++ zeros (decpt - n) ++ u ".0"
    else digit_chars (firstn (Z.to_nat decpt) ds) ++ u "."
           ++ digit_chars (skipn (Z.to_nat decpt) ds)
  else
    let ex := decpt - 1 in
    digit_chars (firstn 1 ds)
      ++ (if 1 <? n then u "." ++ digit_chars (skipn 1 ds) else [])
      ++ u "e" ++ (if ex <? 0 then u "-" else u "+")
      ++ (if Z.abs ex <? 10 then u "0" else []) ++ nat_str (Z.abs ex).

Definition sign_str (neg : bool) : pystr := if neg then u "-" else [].

(** [float.__repr__], which is also [str] and [format] of a float. *)
Definition float_repr (x : spec_float) : pystr :=
  match x with
  | S754_nan => u "nan"
  | S754_infinity s => sign_str s ++ u "inf"
  | S754_zero s => sign_str s ++ u "0.0"
  | S754_finite s m e =>
    let '(c, p) := shortest_decimal (Zpos m) e in
    let '(ds, z) := strip_trailing_zeros c in
    sign_str s ++ format_float_short ds (Z.of_nat (length ds) + z + p)
  end.

(** ** Python values

    What [response.json()] can produce: [None], [bool], [int], [float],
    [str], [list] and [dict] with [str] keys.  A [dict] keeps its keys in
    insertion order. *)

Local Unset Elimination Schemes.

Inductive pyvalue :=
| PyNone
| PyBool (b : bool)
| PyInt (n : Z)
| PyFloat (x : spec_float)
| PyStr (s : pystr)
| PyList (items : list pyvalue)
| PyDict (items : list (pystr * pyvalue)).

Local Set Elimination Schemes.

(** Induction over a value and, inside it, over the items of its lists
    and dicts. *)
Section PyvalueInduction.
Variable P : pyvalue -> Prop.
Hypothesis case_none : P PyNone.
Hypothesis case_bool : forall b, P (PyBool b).
Hypothesis case_int : forall n, P (PyInt n).
Hypothesis case_float : forall x, P (PyFloat x).
Hypothesis case_str : forall s, P (PyStr s).
Hypothesis case_list : forall l, Forall P l -> P (PyList l).
Hypothesis case_dict : forall d, Forall (fun kv => P (snd kv)) d -> P (PyDict d).

Fixpoint pyvalue_ind (v : pyvalue) : P v :=
  match v with
  | PyNone => case_none
  | PyBool b => case_bool b
  | PyInt n => case_int n
  | PyFloat x => case_float x
  | PyStr s => case_str s
  | PyList l =>
    case_list l
      ((fix items (l : list pyvalue) : Forall P l :=
          match l with
          | [] => Forall_nil P
          | x :: r => Forall_cons x (pyvalue_ind x) (items r)
          end) l)
  | PyDict d =>
    case_dict d
      ((fix items (d : list (pystr * pyvalue)) : Forall (fun kv => P (snd kv)) d :=
          match d with
          | [] => Forall_nil _
          | kv :: r => Forall_cons kv (pyvalue_ind (snd kv)) (items r)
          end) d)
  end.
End PyvalueInduction.

(** [bool(v)], the test of [if not data] *)
Definition truthy (v : pyvalue) : bool :=
  match v with
  | PyNone => false
  | PyBool b => b
  | PyInt n => negb (n =? 0)
  | PyFloat (S754_zero _) => false
  | PyFloat _ => true
  | PyStr s => negb (Nat.eqb (length s) 0)
  | PyList l => negb (Nat.eqb (length l) 0)
  | PyDict d => negb (Nat.eqb (length d) 0)
  end.

Fixpoint dict_get (k : pystr) (d : list (pystr * pyvalue)) : option pyvalue :=
  match d with
  | [] => None
  | (k', v) :: r => if pystr_eqb k k' then Some v else dict_get k r
  end.

(** [d[k] = v]: an existing key keeps its place. *)
Fixpoint dict_set (d : list (pystr * pyvalue)) (k : pystr) (v : pyvalue)
  : list (pystr * pyvalue) :=
  match d with
  | [] => [(k, v)]
  | (k', v') :: r => if pystr_eqb k k' then (k, v) :: r else (k', v') :: dict_set r k v
  end.

(** [dict(pairs)] *)
Definition dict_of_pairs (pairs : list (pystr * pyvalue)) : list (pystr * pyvalue) :=
  fold_left (fun d kv => dict_set d (fst kv) (snd kv)) pairs [].

(** ** Exceptions

    Every exception of the model is a subclass of [Exception]. *)

Inductive pyexc :=
| KeyError
| IndexError
| TypeError
| RequestError        (* httpx.RequestError: connection failed, timeout, bad URL, ... *)
| HTTPStatusError (status : Z)
| JSONDecodeError.

Inductive py (A : Type) :=
| Return (a : A)
| Raise (e : pyexc).
Arguments Return {A} a.
Arguments Raise {A} e.

Definition bind {A B : Type} (c : py A) (k : A -> py B) : py B :=
  match c with
  | Return a => k a
  | Raise e => Raise e
  end.

Notation "x <- c ;; k" := (bind c (fun x => k))
  (at level 61, c at next level, right associativity).

(** [try: body  except Exception: handler] *)
Definition try_except {A : Type} (body : py A) (handler : py A) : py A :=
  match body with
  | Return a => Return a
  | Raise _ => handler
  end.

(** [o[k]] for a [str] key *)
Definition getitem_str (o : pyvalue) (k : pystr) : py pyvalue :=
  match o with
  | PyDict d =>
    match dict_get k d with
    | Some v => Return v
    | None => Raise KeyError
    end
  | _ => Raise TypeError
  end.

(** [o[i]] for an [int] index *)
Definition getitem_int (o : pyvalue) (i : Z) : py pyvalue :=
  match o with
  | PyList l =>
    let n := Z.of_nat (length l) in
    let j := if i <? 0 then i + n else i in
    if (0 <=? j) && (j <? n) then Return (nth (Z.to_nat j) l PyNone)
    else Raise IndexError
  | PyStr s =>
    let n := Z.of_nat (length s) in
    let j := if i <? 0 then i + n else i in
    if (0 <=? j) && (j <? n) then Return (PyStr [nth (Z.to_nat j) s 0])
    else Raise IndexError
  | PyDict _ => Raise KeyError
  | _ => Raise TypeError
  end.

(** [len(o)] *)
Definition py_len (o : pyvalue) : py Z :=
  match o with
  | PyStr s => Return (Z.of_nat (length s))
  | PyList l => Return (Z.of_nat (length l))
  | PyDict d => Return (Z.of_nat (length d))
  | _ => Raise TypeError
  end.

(** [range(n)] *)
Definition range (n : Z) : list Z := map Z.of_nat (seq 0 (Z.to_nat n)).

(** ** [repr] and [format] *)

Definition hex_digit (d : Z) : codepoint := if d <? 10 then 48 + d else 87 + d.

(** [c] in [n] lower-case hexadecimal digits *)
Fixpoint hex (n : nat) (c : Z) : pystr :=
  match n with
  | O => []
  | S n' => hex n' (c / 16) ++ [hex_digit (c mod 16)]
  end.

Definition mem_char (c : codepoint) (s : pystr) : bool := existsb (Z.eqb c) s.

Section Repr.

(** [str.isprintable] of a character outside ASCII, a table of the
    interpreter's Unicode database. *)
Variable isprintable : codepoint -> bool.

Definition repr_char (quote c : codepoint) : pystr :=
  if (c =? quote) || (c =? 92) then [92; c]
  else if c =? 9 then u "\t"
  else if c =? 10 then u "\n"
  else if c =? 13 then u "\r"
  else if (c <? 32) || (c =? 127) then u "\x" ++ hex 2 c
  else if c <? 127 then [c]
  else if isprintable c then [c]
  else if c <? 256 then u "\x" ++ hex 2 c
  else if c <? 65536 then u "\u" ++ hex 4 c
  else u "\U" ++ hex 8 c.

(** [str.__repr__]: single quotes unless the text has one and no double
    quote. *)
Definition str_repr (s : pystr) : pystr :=
  let quote := if mem_char 39 s && negb (mem_char 34 s) then 34 else 39 in
  quote :: flat_map (repr_char quote) s ++ [quote].

(** [repr(v)] *)
Fixpoint py_repr (v : pyvalue) : pystr :=
  match v with
  | PyNone => u "None"
  | PyBool true => u "True"
  | PyBool false => u "False"
  | PyInt n => int_repr n
  | PyFloat x => float_repr x
  | PyStr s => str_repr s
  | PyList l => u "[" ++ join (u ", ") (map py_repr l) ++ u "]"
  | PyDict d =>
    u "{" ++ join (u ", ") (map (fun kv => str_repr (fst kv) ++ u ": " ++ py_repr (snd kv)) d)
      ++ u "}"
  end.

(** [format(v, '')], what an f-string field [{v}] inserts: [str(v)]. *)
Definition py_format (v : pyvalue) : pystr :=
  match v with
  | PyStr s => s
  | _ => py_repr v
  end.

End Repr.

(** ** [json.dumps(obj, indent=2)] *)

(** [py_encode_basestring_ascii]: one character of a JSON string *)
Definition json_escape (c : codepoint) : pystr :=
  if c =? 34 then [92; 34]
  else if c =? 92 then [92; 92]
  else if c =? 10 then u "\n"
  else if c =? 13 then u "\r"
  else if c =? 9 then u "\t"
  else if c =? 8 then u "\b"
  else if c =? 12 then u "\f"
  else if (32 <=? c) && (c <=? 126) then [c]
  else if c <? 65536 then u "\u" ++ hex 4 c
  else
    let n := c - 65536 in
    let s1 := Z.lor 55296 (Z.land (Z.shiftr n 10) 1023) in
    let s2 := Z.lor 56320 (Z.land n 1023) in
    u "\u" ++ hex 4 s1 ++ u "\u" ++ hex 4 s2.

Definition encode_string (s : pystr) : pystr :=
  34 :: flat_map json_escape s ++ [34].

(** [floatstr] of the encoder *)
Definition floatstr (x : spec_float) : pystr :=
  match x with
  | S754_nan => u "NaN"
  | S754_infinity false => u "Infinity"
  | S754_infinity true => u "-Infinity"
  | _ => float_repr x
  end.

(** A line break followed by the indentation of nesting [level]. *)
Definition newline_indent (indent level : nat) : pystr :=
  10 :: repeat 32 (indent * level).

(** [_iterencode] at nesting [level], its chunks concatenated. *)
Fixpoint iterencode (indent : nat) (level : nat) (v : pyvalue) : pystr :=
  match v with
  | PyNone => u "null"
  | PyBool true => u "true"
  | PyBool false => u "false"
  | PyInt n => int_repr n
  | PyFloat x => floatstr x
  | PyStr s => encode_string s
  | PyList [] => u "[]"
  | PyList l =>
    u "[" ++ newline_indent indent (S level)
      ++ join (u "," ++ newline_indent indent (S level))
              (map (iterencode indent (S level)) l)
      ++ newline_indent indent level ++ u "]"
  | PyDict [] => u "{}"
  | PyDict d =>
    u "{" ++ newline_indent indent (S level)
      ++ join (u "," ++ newline_indent indent (S level))
              (map (fun kv => encode_string (fst kv) ++ u ": "
                                ++ iterencode indent (S level) (snd kv)) d)
      ++ newline_indent indent level ++ u "}"
  end.

Definition json_dumps (indent : nat) (v : pyvalue) : pystr := iterencode indent 0 v.

(** ** [json.loads] *)

Inductive parse (A : Type) :=
| Parsed (a : A) (rest : pystr)
| Malformed
| OutOfFuel.
Arguments Parsed {A} a rest.
Arguments Malformed {A}.
Arguments OutOfFuel {A}.

Definition is_ws (c : codepoint) : bool :=
  (c =? 32) || (c =? 9) || (c =? 10) || (c =? 13).

Fixpoint skip_ws (s : pystr) : pystr :=
  match s with
  | c :: r => if is_ws c then skip_ws r else s
  | [] => []
  end.

Definition hex_value (c : codepoint) : option Z :=
  if (48 <=? c) && (c <=? 57) then Some (c - 48)
  else if (97 <=? c) && (c <=? 102) then Some (c - 87)
  else if (65 <=? c) && (c <=? 70) then Some (c - 55)
  else None.

(** [_decode_uXXXX] *)
Definition hex4_value (h1 h2 h3 h4 : codepoint) : option Z :=
  match hex_value h1, hex_value h2, hex_value h3, hex_value h4 with
  | Some a, Some b, Some c, Some d => Some (((a * 16 + b) * 16 + c) * 16 + d)
  | _, _, _, _ => None
  end.

Definition is_high_surrogate (c : Z) : bool := (55296 <=? c) && (c <=? 56319).
Definition is_low_surrogate (c : Z) : bool := (56320 <=? c) && (c <=? 57343).

(** The [BACKSLASH] table *)
Definition unescape (c : codepoint) : option codepoint :=
  if c =? 34 then Some 34
  else if c =? 92 then Some 92
  else if c =? 47 then Some 47
  else if c =? 98 then Some 8
  else if c =? 102 then Some 12
  else if c =? 110 then Some 10
  else if c =? 114 then Some 13
  else if c =? 116 then Some 9
  else None.

(** [scanstring] (strict), from the character after the opening quote:
    the text and what follows the closing quote. *)
Fixpoint scanstring (s : pystr) : option (pystr * pystr) :=
  let cons (c : codepoint) (r : option (pystr * pystr)) :=
    match r with
    | Some (str, rest) => Some (c :: str, rest)
    | None => None
    end in
  match s with
  | [] => None
  | c :: r =>
    if c =? 34 then Some ([], r)
    else if c =? 92 then
      match r with
      | [] => None
      | esc :: r1 =>
        if esc =? 117 then
          match r1 with
          | h1 :: h2 :: h3 :: h4 :: r2 =>
            match hex4_value h1 h2 h3 h4 with
            | None => None
            | Some uni =>
              if is_high_surrogate uni then
                match r2 with
                | b :: c2 :: r3 =>
                  if (b =? 92) && (c2 =? 117) then
                    match r3 with
                    | g1 :: g2 :: g3 :: g4 :: r4 =>
                      match hex4_value g1 g2 g3 g4 with
                      | None => None
                      | Some uni2 =>
                        if is_low_surrogate uni2 then
                          cons (65536 + Z.lor (Z.shiftl (uni - 55296) 10) (uni2 - 56320))
                               (scanstring r4)
                        else cons uni (scanstring r2)
                      end
                    | _ => None
                    end
                  else cons uni (scanstring r2)
                | _ => cons uni (scanstring r2)
                end
              else cons uni (scanstring r2)
            end
          | _ => None
          end
        else
          match unescape esc with
          | Some ch => cons ch (scanstring r1)
          | None => None
          end
      end
    else if c <? 32 then None
    else cons c (scanstring r)
  end.

(** The longest prefix of decimal digits and the rest. *)
Fixpoint span_digits (s : pystr) : pystr * pystr :=
  match s with
  | c :: r =>
    if is_digit c then let '(ds, rest) := span_digits r in (c :: ds, rest)
    else ([], s)
  | [] => ([], [])
  end.

(** One match of [NUMBER_RE]: an optional minus sign and either a single
    zero or a digit run that starts with a non-zero digit; then,
    optionally, a point and a digit run; then, optionally, [e] or [E], an
    optional sign and a digit run. *)
Record number_match := {
  nm_negative : bool;
  nm_integer : pystr;                  (* digits of the integer group *)
  nm_frac : option pystr;              (* digits after the point *)
  nm_exp : option (bool * pystr);      (* sign and digits of the exponent *)
}.

Definition match_integer (s : pystr) : option (pystr * pystr) :=
  match s with
  | c :: r =>
    if c =? 48 then Some ([48], r)
    else if is_digit c then Some (span_digits s)
    else None
  | [] => None
  end.

Definition match_frac (s : pystr) : option pystr * pystr :=
  match s with
  | c :: r =>
    if c =? 46 then
      match span_digits r with
      | ([], _) => (None, s)
      | (ds, rest) => (Some ds, rest)
      end
    else (None, s)
  | [] => (None, s)
  end.

Definition match_exp (s : pystr) : option (bool * pystr) * pystr :=
  match s with
  | c :: r =>
    if (c =? 101) || (c =? 69) then
      let '(neg, r1) :=
        match r with
        | sg :: r' => if sg =? 45 then (true, r') else if sg =? 43 then (false, r') else (false, r)
        | [] => (false, r)
        end in
      match span_digits r1 with
      | ([], _) => (None, s)
      | (ds, rest) => (Some (neg, ds), rest)
      end
    else (None, s)
  | [] => (None, s)
  end.

Definition match_number (s : pystr) : option (number_match * pystr) :=
  let '(neg, s1) :=
    match s with
    | c :: r => if c =? 45 then (true, r) else (false, s)
    | [] => (false, s)
    end in
  match match_integer s1 with
  | None => None
  | Some (int_digits, s2) =>
    let '(frac, s3) := match_frac s2 in
    let '(ex, s4) := match_exp s3 in
    Some ({| nm_negative := neg; nm_integer := int_digits; nm_frac := frac; nm_exp := ex |}, s4)
  end.

(** [float(integer + frac + exp)] and [int(integer)] of a matched number *)
Definition number_value (m : number_match) : pyvalue :=
  match nm_frac m, nm_exp m with
  | None, None =>
    let n := chars_value (nm_integer m) in
    PyInt (if nm_negative m then - n else n)
  | frac, ex =>
    let fd := match frac with Some ds => ds | None => [] end in
    let E := match ex with
             | Some (true, ds) => - chars_value ds
             | Some (false, ds) => chars_value ds
             | None => 0
             end in
    PyFloat (float_of_decimal (nm_negative m) (chars_value (nm_integer m ++ fd))
                              (E - Z.of_nat (length fd)))
  end.

(** [s.startswith(prefix)], with what follows *)
Fixpoint strip_prefix (prefix s : pystr) : option pystr :=
  match prefix, s with
  | [], _ => Some s
  | p :: prefix', c :: s' => if p =? c then strip_prefix prefix' s' else None
  | _ :: _, [] => None
  end.

(** [scan_once], [JSONArray] and [JSONObject] of the decoder.  The
    recursion follows the nesting of the document; [fuel] bounds it. *)
Fixpoint scan_once (fuel : nat) (s : pystr) {struct fuel} : parse pyvalue :=
  match fuel with
  | O => OutOfFuel
  | S fuel' =>
    match s with
    | [] => Malformed
    | c :: r =>
      if c =? 34 then
        match scanstring r with
        | Some (str, rest) => Parsed (PyStr str) rest
        | None => Malformed
        end
      else if c =? 123 then
        match skip_ws r with
        | c1 :: r1 =>
          if c1 =? 125 then Parsed (PyDict []) r1
          else if c1 =? 34 then
            match object_items fuel' r1 with
            | Parsed pairs rest => Parsed (PyDict (dict_of_pairs pairs)) rest
            | Malformed => Malformed
            | OutOfFuel => OutOfFuel
            end
          else Malformed
        | [] => Malformed
        end
      else if c =? 91 then
        match skip_ws r with
        | c1 :: r1 =>
          if c1 =? 93 then Parsed (PyList []) r1
          else
            match array_items fuel' (c1 :: r1) with
            | Parsed items rest => Parsed (PyList items) rest
            | Malformed => Malformed
            | OutOfFuel => OutOfFuel
            end
        | [] => Malformed
        end
      else
        match strip_prefix (u "null") s, strip_prefix (u "true") s, strip_prefix (u "false") s with
        | Some rest, _, _ => Parsed PyNone rest
        | _, Some rest, _ => Parsed (PyBool true) rest
        | _, _, Some rest => Parsed (PyBool false) rest
        | None, None, None =>
          match match_number s with
          | Some (m, rest) => Parsed (number_value m) rest
          | None =>
            match strip_prefix (u "NaN") s, strip_prefix (u "Infinity") s,
                  strip_prefix (u "-Infinity") s with
            | Some rest, _, _ => Parsed (PyFloat S754_nan) rest
            | _, Some rest, _ => Parsed (PyFloat (S754_infinity false)) rest
            | _, _, Some rest => Parsed (PyFloat (S754_infinity true)) rest
            | None, None, None => Malformed
            end
          end
        end
    end
  end

(** the items of an array, from the first one, up to the closing bracket *)
with array_items (fuel : nat) (s : pystr) {struct fuel} : parse (list pyvalue) :=
  match fuel with
  | O => OutOfFuel
  | S fuel' =>
    match scan_once fuel' s with
    | Parsed v rest =>
      match skip_ws rest with
      | c :: r =>
        if c =? 93 then Parsed [v] r
        else if c =? 44 then
          match array_items fuel' (skip_ws r) with
          | Parsed items rest' => Parsed (v :: items) rest'
          | Malformed => Malformed
          | OutOfFuel => OutOfFuel
          end
        else Malformed
      | [] => Malformed
      end
    | Malformed => Malformed
    | OutOfFuel => OutOfFuel
    end
  end

(** the pairs of an object, from after the first key's opening quote, up
    to the closing brace *)
with object_items (fuel : nat) (s : pystr) {struct fuel} : parse (list (pystr * pyvalue)) :=
  match fuel with
  | O => OutOfFuel
  | S fuel' =>
    match scanstring s with
    | None => Malformed
    | Some (key, rest) =>
      match skip_ws rest with
      | c :: r =>
        if c =? 58 then
          match scan_once fuel' (skip_ws r) with
          | Parsed v rest1 =>
            match skip_ws rest1 with
            | c1 :: r1 =>
              if c1 =? 125 then Parsed [(key, v)] r1
              else if c1 =? 44 then
                match skip_ws r1 with
                | c2 :: r2 =>
                  if c2 =? 34 then
                    match object_items fuel' r2 with
                    | Parsed pairs rest' => Parsed ((key, v) :: pairs) rest'
                    | Malformed => Malformed
                    | OutOfFuel => OutOfFuel
                    end
                  else Malformed
                | [] => Malformed
                end
              else Malformed
            | [] => Malformed
            end
          | Malformed => Malformed
          | OutOfFuel => OutOfFuel
          end
        else Malformed
      | [] => Malformed
      end
    end
  end.

(** [json.loads(s)]: one value between optional whitespace, and nothing
    after it.  [None] is a [JSONDecodeError]. *)
Definition json_loads (s : pystr) : option pyvalue :=
  match scan_once (2 * length s + 1) (skip_ws s) with
  | Parsed v rest =>
    match skip_ws rest with
    | [] => Some v
    | _ :: _ => None
    end
  | _ => None
  end.

(** ** [server.py] *)

Definition nl : pystr := [10].

Definition OPENMETEO_API_BASE : pystr := Eval vm_compute in u "https://api.open-meteo.com/v1".
Definition USER_AGENT : pystr := Eval vm_compute in u "weather-app/1.0".

(** An [httpx.Response]: its status code and its body as text. *)
Record response := {
  status_code : Z;
  content : pystr;
}.

(** The literal [30.0] *)
Definition timeout_seconds : spec_float := float_of_decimal false 300 (-1).

(** The f-string of line 63 *)
Definition forecast_url (latitude longitude : spec_float) : pystr :=
  OPENMETEO_API_BASE ++ u "/forecast?latitude=" ++ float_repr latitude
    ++ u "&longitude=" ++ float_repr longitude
    ++ u "&hourly=temperature_2m,precipitation,weathercode&daily=temperature_2m_max,temperature_2m_min,precipitation_sum,weathercode&timezone=auto".

(** The f-string of line 104 *)
Definition current_weather_url (latitude longitude : spec_float) : pystr :=
  OPENMETEO_API_BASE ++ u "/forecast?latitude=" ++ float_repr latitude
    ++ u "&longitude=" ++ float_repr longitude
    ++ u "&current=temperature_2m,is_day,showers,cloud_cover,wind_speed_10m,wind_direction_10m,pressure_msl,snowfall,precipitation,relative_humidity_2m,apparent_temperature,rain,weather_code,surface_pressure,wind_gusts_10m".

Section Server.

(** [str.isprintable] outside ASCII (used by [repr] of a [str]) *)
Variable isprintable : codepoint -> bool.

(** The network as the process sees it: what
    [client.get(url, headers=headers, timeout=30.0)] does, a response or
    an exception. *)
Variable client_get : pystr -> list (pystr * pystr) -> spec_float -> py response.

(** The status codes for which httpx's [raise_for_status] raises. *)
Variable is_error_status : Z -> bool.

Definition raise_for_status (r : response) : py unit :=
  if is_error_status (status_code r) then Raise (HTTPStatusError (status_code r))
  else Return tt.

(** [response.json()] *)
Definition response_json (r : response) : py pyvalue :=
  match json_loads (content r) with
  | Some v => Return v
  | None => Raise JSONDecodeError
  end.

Definition make_openmeteo_request (url : pystr) : py pyvalue :=
  let headers := [(u "User-Agent", USER_AGENT); (u "Accept", u "application/json")] in
  try_except
    (response <- client_get url headers timeout_seconds ;;
     _ <- raise_for_status response ;;
     response_json response)
    (Return PyNone).

(** [daily[key][i]] *)
Definition daily_at (daily : pyvalue) (key : pystr) (i : Z) : py pyvalue :=
  column <- getitem_str daily key ;;
  getitem_int column i.

(** One pass of the loop body (lines 77-83): the f-string for day [i]. *)
Definition forecast_entry (daily : pyvalue) (i : Z) : py pystr :=
  time <- daily_at daily (u "time") i ;;
  tmax <- daily_at daily (u "temperature_2m_max") i ;;
  tmin <- daily_at daily (u "temperature_2m_min") i ;;
  precipitation <- daily_at daily (u "precipitation_sum") i ;;
  weathercode <- daily_at daily (u "weathercode") i ;;
  Return (nl ++ u "Date: " ++ py_format isprintable time ++ nl
             ++ u "Max Temperature: " ++ py_format isprintable tmax ++ u "°C" ++ nl
             ++ u "Min Temperature: " ++ py_format isprintable tmin ++ u "°C" ++ nl
             ++ u "Precipitation: " ++ py_format isprintable precipitation ++ u " mm" ++ nl
             ++ u "Weather Code: " ++ py_format isprintable weathercode ++ nl).

(** The loop of lines 76-84 over the indices [idxs]. *)
Fixpoint forecast_entries (daily : pyvalue) (idxs : list Z) : py (list pystr) :=
  match idxs with
  | [] => Return []
  | i :: rest =>
    forecast <- forecast_entry daily i ;;
    forecasts <- forecast_entries daily rest ;;
    Return (forecast :: forecasts)
  end.

(** Lines 72-87: what [get_forecast] does with a payload. *)
Definition format_forecast (data : pyvalue) : py pystr :=
  daily <- getitem_str data (u "daily") ;;
  time <- getitem_str daily (u "time") ;;
  n <- py_len time ;;
  forecasts <- forecast_entries daily (range n) ;;
  Return (join (nl ++ u "---" ++ nl) forecasts).

Definition get_forecast (latitude longitude : spec_float) : py pystr :=
  let url := forecast_url latitude longitude in
  data <- make_openmeteo_request url ;;
  if negb (truthy data) then Return (u "Unable to fetch forecast data for this location.")
  else format_forecast data.

Definition get_current_weather (latitude longitude : spec_float) : py pystr :=
  let url := current_weather_url latitude longitude in
  data <- make_openmeteo_request url ;;
  if negb (truthy data) then
    Return (u "Unable to fetch current weather data for this location.")
  else Return (json_dumps 2 data).

End Server.

(** * Vocabulary of the properties *)

Definition double_bounds (m e : Z) : Prop :=
  (4503599627370496 <= m < 9007199254740992 /\ -1074 <= e <= 971) \/
  (0 < m < 4503599627370496 /\ e = -1074).

Definition is_digit_value (d : Z) : Prop := 0 <= d <= 9.

Definition nondigit_head (s : pystr) : Prop :=
  match s with
  | [] => True
  | c :: _ => is_digit c = false
  end.

(** [c * 10^p] is positive and rounds to [m * 2^e]. *)
Definition reads_back (m e c p : Z) : Prop :=
  0 < c /\ in_rounding_interval m e (c * 10 ^ Z.max 0 p) (10 ^ Z.max 0 (- p)) = true.

(** What follows a value in the output of the encoder: a comma, a line
    break, or nothing. *)
Definition delimited (rest : pystr) : Prop :=
  match rest with
  | [] => True
  | c :: _ => c = 44 \/ c = 10
  end.

Fixpoint all_below (n : nat) (f : Z -> bool) : bool :=
  match n with
  | O => true
  | S k => f (Z.of_nat k) && all_below k f
  end.

Definition high_of (c : codepoint) : Z :=
  Z.lor 55296 (Z.land (Z.shiftr (c - 65536) 10) 1023).
Definition low_of (c : codepoint) : Z := Z.lor 56320 (Z.land (c - 65536) 1023).

(** No high surrogate is directly followed by a low surrogate: the two
    would be written as one escaped pair and read as one character. *)
Fixpoint no_split_pair (s : pystr) : bool :=
  match s with
  | c :: r =>
    match r with
    | d :: _ => negb (is_high_surrogate c && is_low_surrogate d)
    | [] => true
    end && no_split_pair r
  | [] => true
  end.

(** After an escaped high surrogate: the text does not go on with the
    escape of a low surrogate. *)
Definition no_low_escape (tail : pystr) : Prop :=
  match tail with
  | b :: c2 :: r3 =>
    (b =? 92) && (c2 =? 117) = true ->
    exists v r4, r3 = hex 4 v ++ r4 /\ 0 <= v < 65536 /\ is_low_surrogate v = false
  | _ => True
  end.

Definition read_after (c : codepoint) (r : option (pystr * pystr)) : option (pystr * pystr) :=
  match r with
  | Some (str, rest) => Some (c :: str, rest)
  | None => None
  end.

Definition is_codepointb (c : codepoint) : bool := (0 <=? c) && (c <? 1114112).

Fixpoint distinct (ks : list pystr) : bool :=
  match ks with
  | [] => true
  | k :: r => negb (existsb (pystr_eqb k) r) && distinct r
  end.

(** The invariants of Python's own types, which the types of the model
    are too wide for: a [str] holds code points, a [float] is a binary64
    number, the keys of a [dict] are distinct. *)
Fixpoint python_value (v : pyvalue) : bool :=
  match v with
  | PyNone | PyBool _ | PyInt _ => true
  | PyFloat x => valid_double x
  | PyStr s => forallb is_codepointb s
  | PyList l => forallb python_value l
  | PyDict d =>
    distinct (map fst d)
    && forallb (fun kv => forallb is_codepointb (fst kv) && python_value (snd kv)) d
  end.

(** No string of the value, key or item, holds a high surrogate directly
    followed by a low surrogate. *)
Fixpoint no_split_surrogates (v : pyvalue) : bool :=
  match v with
  | PyStr s => no_split_pair s
  | PyList l => forallb no_split_surrogates l
  | PyDict d => forallb (fun kv => no_split_pair (fst kv) && no_split_surrogates (snd kv)) d
  | _ => true
  end.

(** The first character of an encoded value: no whitespace, no closing
    bracket. *)
Definition value_start (c : codepoint) : Prop := is_ws c = false /\ c <> 93.

(** Fuel that suffices to read a value back: its nesting, counting the
    items of each list and dict. *)
Fixpoint fuel_for (v : pyvalue) : nat :=
  match v with
  | PyList l => S (fold_right (fun x acc => S (Nat.max (fuel_for x) acc)) 0%nat l)
  | PyDict d => S (fold_right (fun kv acc => S (Nat.max (fuel_for (snd kv)) acc)) 0%nat d)
  | _ => 1%nat
  end.

(** [v], written at any nesting level and followed by a delimiter, is
    read back by [scan_once]. *)
Definition reads_back_value (v : pyvalue) : Prop :=
  forall fuel level rest,
    (fuel_for v <= fuel)%nat -> delimited rest ->
    scan_once fuel (iterencode 2 level v ++ rest) = Parsed v rest.

(** One pair as the encoder writes it. *)
Definition encode_pair (level : nat) (kv : pystr * pyvalue) : pystr :=
  encode_string (fst kv) ++ u ": " ++ iterencode 2 level (snd kv).

Definition pair_ok (kv : pystr * pyvalue) : Prop :=
  Forall is_codepoint (fst kv) /\ no_split_pair (fst kv) = true /\
  python_value (snd kv) = true /\ reads_back_value (snd kv).

(** A result that is not [OutOfFuel] and, when a value was read, leaves
    less text than it was given. *)
Definition consumes {A : Type} (s : pystr) (r : parse A) : Prop :=
  match r with
  | Parsed _ rest => (length rest < length s)%nat
  | Malformed => True
  | OutOfFuel => False
  end.

(** ** The forecast text *)

(** The five lines of one forecast block, as the spec lists them. *)
Definition forecast_lines (time tmax tmin precipitation weathercode : pystr) : list pystr :=
  [ u "Date: " ++ time;
    u "Max Temperature: " ++ tmax ++ u "°C";
    u "Min Temperature: " ++ tmin ++ u "°C";
    u "Precipitation: " ++ precipitation ++ u " mm";
    u "Weather Code: " ++ weathercode ].

(** A [daily] object with five parallel lists. *)
Record daily_columns := {
  col_time : list pyvalue;
  col_tmax : list pyvalue;
  col_tmin : list pyvalue;
  col_precipitation : list pyvalue;
  col_weathercode : list pyvalue;
}.

Definition has_columns (daily : pyvalue) (c : daily_columns) : Prop :=
  getitem_str daily (u "time") = Return (PyList (col_time c)) /\
  getitem_str daily (u "temperature_2m_max") = Return (PyList (col_tmax c)) /\
  getitem_str daily (u "temperature_2m_min") = Return (PyList (col_tmin c)) /\
  getitem_str daily (u "precipitation_sum") = Return (PyList (col_precipitation c)) /\
  getitem_str daily (u "weathercode") = Return (PyList (col_weathercode c)).

(** Every value column has an item for each day of [time]. *)
Definition columns_cover (c : daily_columns) : Prop :=
  (length (col_time c) <= length (col_tmax c))%nat /\
  (length (col_time c) <= length (col_tmin c))%nat /\
  (length (col_time c) <= length (col_precipitation c))%nat /\
  (length (col_time c) <= length (col_weathercode c))%nat.

Definition same_length (c : daily_columns) : Prop :=
  length (col_tmax c) = length (col_time c) /\
  length (col_tmin c) = length (col_time c) /\
  length (col_precipitation c) = length (col_time c) /\
  length (col_weathercode c) = length (col_time c).

(** The block of day [i] of the columns [c]: the five lines between the
    line break that opens and the one that closes the f-string. *)
Definition block_of (isprintable : codepoint -> bool) (c : daily_columns) (i : nat) : pystr :=
  nl ++ join nl (forecast_lines (py_format isprintable (nth i (col_time c) PyNone))
                                (py_format isprintable (nth i (col_tmax c) PyNone))
                                (py_format isprintable (nth i (col_tmin c) PyNone))
                                (py_format isprintable (nth i (col_precipitation c) PyNone))
                                (py_format isprintable (nth i (col_weathercode c) PyNone)))
     ++ nl.

(** A payload [get_forecast] formats without an exception: a [daily]
    object whose five columns are lists, each value column with an item
    for every day. *)
Definition forecast_shaped (data : pyvalue) : Prop :=
  exists daily c,
    getitem_str data (u "daily") = Return daily /\ has_columns daily c /\ columns_cover c.

Definition forecast_fallback : pystr :=
  Eval vm_compute in u "Unable to fetch forecast data for this location.".
Definition current_weather_fallback : pystr :=
  Eval vm_compute in u "Unable to fetch current weather data for this location.".

(** ** The request URLs *)

(** The weather variables [get_current_weather] asks for *)
Definition CURRENT_VARIABLES : list pystr :=
  map u [ "temperature_2m"; "is_day"; "showers"; "cloud_cover"; "wind_speed_10m";
          "wind_direction_10m"; "pressure_msl"; "snowfall"; "precipitation";
          "relative_humidity_2m"; "apparent_temperature"; "rain"; "weather_code";
          "surface_pressure"; "wind_gusts_10m" ]%string.

Definition comma_free (s : pystr) : Prop := mem_char 44 s = false.

Definition count_char (c : codepoint) (s : pystr) : nat :=
  length (filter (Z.eqb c) s).

(** The URL of [get_current_weather] asks for the variables [vars]: its
    [current] parameter is their comma-separated list. *)
Definition current_url_requests (vars : list pystr) : Prop :=
  Forall comma_free vars /\
  forall latitude longitude,
    current_weather_url latitude longitude
    = OPENMETEO_API_BASE ++ u "/forecast?latitude=" ++ float_repr latitude
        ++ u "&longitude=" ++ float_repr longitude
        ++ u "&current=" ++ join (u ",") vars.

(** ** Sample worlds and payloads *)

(** No network: every request fails. *)
Definition offline : pystr -> list (pystr * pystr) -> spec_float -> py response :=
  fun _ _ _ => Raise RequestError.

(** A server that answers every request with [status] and [body]. *)
Definition answering (status : Z) (body : pystr)
  : pystr -> list (pystr * pystr) -> spec_float -> py response :=
  fun _ _ _ => Return {| status_code := status; content := body |}.

(** httpx raises for every status outside 2xx. *)
Definition not_2xx (code : Z) : bool := negb ((200 <=? code) && (code <=? 299)).

Definition printable_latin1 (c : codepoint) : bool := (160 <? c) && (c <? 256).

(** The floats written [52.52] and [13.41] *)
Definition berlin_latitude : spec_float := float_of_decimal false 5252 (-2).
Definition berlin_longitude : spec_float := float_of_decimal false 1341 (-2).

Definition sample_columns : daily_columns := {|
  col_time := [PyStr (u "2025-06-01"); PyStr (u "2025-06-02")];
  col_tmax := [PyFloat (float_of_decimal false 215 (-1)); PyInt 19];
  col_tmin := [PyFloat (float_of_decimal false 118 (-1)); PyFloat (float_of_decimal false 97 (-1))];
  col_precipitation := [PyFloat (S754_zero false); PyFloat (float_of_decimal false 25 (-1))];
  col_weathercode := [PyInt 3; PyInt 61];
|}.

Definition sample_daily : pyvalue :=
  PyDict [ (u "time", PyList (col_time sample_columns));
           (u "temperature_2m_max", PyList (col_tmax sample_columns));
           (u "temperature_2m_min", PyList (col_tmin sample_columns));
           (u "precipitation_sum", PyList (col_precipitation sample_columns));
           (u "weathercode", PyList (col_weathercode sample_columns)) ].

Definition sample_forecast : pyvalue :=
  PyDict [ (u "latitude", PyFloat berlin_latitude);
           (u "longitude", PyFloat berlin_longitude);
           (u "timezone", PyStr (u "Europe/Berlin"));
           (u "hourly", PyDict [(u "time", PyList []); (u "temperature_2m", PyList [])]);
           (u "daily", sample_daily) ].

(** The same [daily] object in a payload with other fields. *)
Definition sample_forecast_bare : pyvalue :=
  PyDict [ (u "daily", sample_daily); (u "elevation", PyInt 38) ].

(** A payload with no [daily] key *)
Definition sample_no_daily : pyvalue :=
  PyDict [ (u "error", PyBool true);
           (u "reason", PyStr (u "Latitude must be in range of -90 to 90")) ].

(** A payload whose forecast covers no day *)
Definition sample_no_days : pyvalue :=
  PyDict [ (u "daily", PyDict [(u "time", PyList [])]) ].

(** A current-weather payload *)
Definition sample_current : pyvalue :=
  PyDict [ (u "latitude", PyFloat berlin_latitude);
           (u "longitude", PyFloat berlin_longitude);
           (u "generationtime_ms", PyFloat (float_of_decimal false 8296966552734375 (-17)));
           (u "utc_offset_seconds", PyInt 7200);
           (u "timezone", PyStr (u "Europe/Berlin"));
           (u "current_units",
            PyDict [ (u "temperature_2m", PyStr (u "°C")); (u "wind_speed_10m", PyStr (u "km/h")) ]);
           (u "current",
            PyDict [ (u "time", PyStr (u "2025-06-01T14:15"));
                     (u "interval", PyInt 900);
                     (u "temperature_2m", PyFloat (float_of_decimal false 224 (-1)));
                     (u "is_day", PyInt 1);
                     (u "showers", PyFloat (S754_zero false));
                     (u "wind_speed_10m", PyFloat (float_of_decimal false 126 (-1)));
                     (u "wind_direction_10m", PyInt 251);
                     (u "apparent_temperature", PyFloat (float_of_decimal true 3 (-1)));
                     (u "snowfall", PyNone) ]) ].

(** A payload whose [current] text is a high surrogate followed by a low
    surrogate, two characters. *)
Definition sample_split_pair : pyvalue :=
  PyDict [ (u "current", PyStr [55357; 56832]) ].

(** The body a server sends for it: the two surrogates unescaped between
    the quotes. *)
Definition sample_split_pair_body : pystr :=
  u "{" ++ [34] ++ u "current" ++ [34] ++ u ": " ++ [34; 55357; 56832; 34] ++ u "}".

Definition sample_server : pystr -> list (pystr * pystr) -> spec_float -> py response :=
  answering 200 (json_dumps 2 sample_forecast).

(** The double quote, which a string literal of this file cannot hold. *)
Definition dq : pystr := [34].

(** ** What [get_forecast] raises *)

(** The exceptions of subscripting and [len]. *)
Definition lookup_error (e : pyexc) : Prop :=
  e = KeyError \/ e = IndexError \/ e = TypeError.

Definition is_dict (v : pyvalue) : bool :=
  match v with
  | PyDict _ => true
  | _ => false
  end.

(** The keys of the four value columns, in the order the f-string of
    lines 77-83 reads them. *)
Definition VALUE_COLUMNS : list pystr :=
  map u [ "temperature_2m_max"; "temperature_2m_min"; "precipitation_sum"; "weathercode" ]%string.

(** A payload in which [get_forecast] looks up a key that is not there:
    no [daily], or a [daily] object with no [time], or one with at least
    one day and a value column missing (the columns that are there being
    lists with a first item). *)
Definition lacks_key (data : pyvalue) : Prop :=
  getitem_str data (u "daily") = Raise KeyError \/
  exists daily,
    getitem_str data (u "daily") = Return daily /\
    (getitem_str daily (u "time") = Raise KeyError \/
     exists t ts,
       getitem_str daily (u "time") = Return (PyList (t :: ts)) /\
       (exists key, In key VALUE_COLUMNS /\ getitem_str daily key = Raise KeyError) /\
       (forall key, In key VALUE_COLUMNS ->
          getitem_str daily key = Raise KeyError \/
          exists x xs, getitem_str daily key = Return (PyList (x :: xs)))).

(** A payload that is not subscriptable the way [get_forecast] does it:
    the document or its [daily] field is no object, or [daily.time] has no
    length. *)
Definition wrong_type (data : pyvalue) : Prop :=
  is_dict data = false \/
  exists daily,
    getitem_str data (u "daily") = Return daily /\
    (is_dict daily = false \/
     exists time, getitem_str daily (u "time") = Return time /\ py_len time = Raise TypeError).

(** The documents Python takes for false: [null], [false], [0], [0.0] and
    [-0.0], the empty string, the empty array, the empty object. *)
Definition falsy_document (v : pyvalue) : Prop :=
  v = PyNone \/ v = PyBool false \/ v = PyInt 0 \/ (exists s, v = PyFloat (S754_zero s)) \/
  v = PyStr [] \/ v = PyList [] \/ v = PyDict [].

(** ** More sample payloads *)

(** Two days, and a weather code for the first one only. *)
Definition sample_short_columns : daily_columns := {|
  col_time := [PyStr (u "2025-06-01"); PyStr (u "2025-06-02")];
  col_tmax := [PyFloat (float_of_decimal false 215 (-1)); PyInt 19];
  col_tmin := [PyFloat (float_of_decimal false 118 (-1)); PyFloat (float_of_decimal false 97 (-1))];
  col_precipitation := [PyFloat (S754_zero false); PyFloat (float_of_decimal false 25 (-1))];
  col_weathercode := [PyInt 3];
|}.

Definition sample_short_daily : pyvalue :=
  PyDict [ (u "time", PyList (col_time sample_short_columns));
           (u "temperature_2m_max", PyList (col_tmax sample_short_columns));
           (u "temperature_2m_min", PyList (col_tmin sample_short_columns));
           (u "precipitation_sum", PyList (col_precipitation sample_short_columns));
           (u "weathercode", PyList (col_weathercode sample_short_columns)) ].

Definition sample_short : pyvalue := PyDict [ (u "daily", sample_short_daily) ].

(** One day and no precipitation column. *)
Definition sample_no_precipitation : pyvalue :=
  PyDict [ (u "daily",
            PyDict [ (u "time", PyList [PyStr (u "2025-06-01")]);
                     (u "temperature_2m_max", PyList [PyInt 19]);
                     (u "temperature_2m_min", PyList [PyInt 9]);
                     (u "weathercode", PyList [PyInt 3]) ]) ].

(** A document that is an array. *)
Definition sample_array : pyvalue := PyList [PyInt 1; PyInt 2].

(** ** The request *)

(** The headers of line 29. *)
Definition REQUEST_HEADERS : list (pystr * pystr) :=
  [(u "User-Agent", USER_AGENT); (u "Accept", u "application/json")].

(** The GET of [url] fails: the client raises (no connection, timeout),
    or the status is one [raise_for_status] raises for, or the body is not
    a JSON document. *)
Definition request_fails
    (client_get : pystr -> list (pystr * pystr) -> spec_float -> py response)
    (is_error_status : Z -> bool) (url : pystr) : Prop :=
  match client_get url REQUEST_HEADERS timeout_seconds with
  | Raise _ => True
  | Return r => is_error_status (status_code r) = true \/ json_loads (content r) = None
  end.

(** ** Columns with surplus items *)

(** Two sets of columns with the same days and the same values for those
    days. *)
Definition same_days (c1 c2 : daily_columns) : Prop :=
  let n := length (col_time c1) in
  col_time c1 = col_time c2 /\
  firstn n (col_tmax c1) = firstn n (col_tmax c2) /\
  firstn n (col_tmin c1) = firstn n (col_tmin c2) /\
  firstn n (col_precipitation c1) = firstn n (col_precipitation c2) /\
  firstn n (col_weathercode c1) = firstn n (col_weathercode c2).

(** The sample columns with items past the last day, in a [daily] object
    with one more key. *)
Definition sample_surplus_columns : daily_columns := {|
  col_time := col_time sample_columns;
  col_tmax := col_tmax sample_columns ++ [PyInt 40];
  col_tmin := col_tmin sample_columns;
  col_precipitation := col_precipitation sample_columns ++ [PyNone; PyNone];
  col_weathercode := col_weathercode sample_columns ++ [PyInt 99];
|}.

Definition sample_surplus : pyvalue :=
  PyDict [ (u "daily",
            PyDict [ (u "sunrise", PyList []);
                     (u "time", PyList (col_time sample_surplus_columns));
                     (u "temperature_2m_max", PyList (col_tmax sample_surplus_columns));
                     (u "temperature_2m_min", PyList (col_tmin sample_surplus_columns));
                     (u "precipitation_sum", PyList (col_precipitation sample_surplus_columns));
                     (u "weathercode", PyList (col_weathercode sample_surplus_columns)) ]) ].

(** ** Documents as the decoder returns them *)

(** A code point that is no surrogate: what decoding UTF-8 gives. *)
Definition is_scalar (c : codepoint) : bool :=
  is_codepointb c && negb (is_high_surrogate c) && negb (is_low_surrogate c).

(** Text with no surrogate in it. *)
Definition unicode_text (s : pystr) : bool := forallb is_scalar s.

Definition scalar (c : codepoint) : Prop := is_scalar c = true.

Definition head_low (s : pystr) : bool :=
  match s with
  | c :: _ => is_low_surrogate c
  | [] => false
  end.

(** The text starts with the escape of a low surrogate. *)
Definition low_escape_head (s : pystr) : bool :=
  match s with
  | b :: c :: h1 :: h2 :: h3 :: h4 :: _ =>
    (b =? 92) && (c =? 117) &&
    match hex4_value h1 h2 h3 h4 with
    | Some v => is_low_surrogate v
    | None => false
    end
  | _ => false
  end.

(** A value of Python's own types in which no string holds a high
    surrogate directly followed by a low one. *)
Definition well_formed (v : pyvalue) : Prop :=
  python_value v = true /\ no_split_surrogates v = true.

Definition well_formed_pair (kv : pystr * pyvalue) : Prop :=
  forallb is_codepointb (fst kv) = true /\ no_split_pair (fst kv) = true /\
  well_formed (snd kv).

(** What a parser returned, when it returned something, is [P] and the
    text left has no surrogate. *)
Definition reads_well {A : Type} (P : A -> Prop) (r : parse A) : Prop :=
  match r with
  | Parsed a rest => P a /\ Forall scalar rest
  | _ => True
  end.

(** ** The characters of the texts *)

(** A printable ASCII character or a line break. *)
Definition is_plain (c : codepoint) : bool := ((32 <=? c) && (c <=? 126)) || (c =? 10).

Definition plain_text (s : pystr) : bool := forallb is_plain s.

(** The characters of [repr] of a float or an int: digits, the point, the
    signs, and the letters of [e], [inf] and [nan]. *)
Definition is_number_char (c : codepoint) : bool :=
  is_digit c || mem_char c (43 :: 45 :: 46 :: 97 :: 101 :: 102 :: 105 :: 110 :: nil).

Definition number_text (s : pystr) : bool := forallb is_number_char s.

(** A printable ASCII character other than the space. *)
Definition is_graphic (c : codepoint) : bool := (33 <=? c) && (c <=? 126).

(** ** The payloads [get_forecast] formats *)

(** [v[i]] is there for every [i] below [n]: [v] is a list or a string of
    [n] items at least. *)
Definition indexable_to (n : nat) (v : pyvalue) : Prop :=
  match v with
  | PyList l => (n <= length l)%nat
  | PyStr s => (n <= length s)%nat
  | _ => False
  end.

(** A [daily] object whose [time] has a length [n] and, unless [n] is
    zero, is indexable, like each of the four value columns, up to [n]. *)
Definition formattable (data : pyvalue) : Prop :=
  exists daily time n,
    getitem_str data (u "daily") = Return daily /\
    getitem_str daily (u "time") = Return time /\
    py_len time = Return (Z.of_nat n) /\
    (n = 0%nat \/
     indexable_to n time /\
     forall key, In key VALUE_COLUMNS ->
       exists column, getitem_str daily key = Return column /\ indexable_to n column).

(** A forecast whose dates came as one string per column, not as lists:
    one day per character. *)
Definition sample_text_columns : pyvalue :=
  PyDict [ (u "daily",
            PyDict [ (u "time", PyStr (u "ab"));
                     (u "temperature_2m_max", PyList [PyInt 1; PyInt 2]);
                     (u "temperature_2m_min", PyStr (u "xyz"));
                     (u "precipitation_sum", PyList [PyNone; PyNone]);
                     (u "weathercode", PyList [PyInt 3; PyInt 61]) ]) ].

(** * Properties *)

(** ** Rounding a rational to binary64 *)

Lemma pow2_pos (k : Z) : 0 <= k -> 0 < 2 ^ k.
Proof. intros. apply Z.pow_pos_nonneg; lia. Qed.

Lemma scaled_pos (n d e N D : Z) :
  0 < n -> 0 < d -> scaled n d e = (N, D) -> 0 < N /\ 0 < D.
Proof.
  unfold scaled. intros Hn Hd H. injection H as <- <-.
  pose proof (pow2_pos (Z.max 0 (- e))). pose proof (pow2_pos (Z.max 0 e)). nia.
Qed.

(** [scaled n d (a + k)] is [scaled n d a] divided by [2^k]. *)
Lemma scaled_shift (n d a k : Z) :
  0 <= k ->
  fst (scaled n d a) * snd (scaled n d (a + k))
  = fst (scaled n d (a + k)) * snd (scaled n d a) * 2 ^ k.
Proof.
  intros Hk. unfold scaled. cbn [fst snd].
  assert (E : 2 ^ Z.max 0 (- a) * 2 ^ Z.max 0 (a + k)
              = 2 ^ Z.max 0 (- (a + k)) * 2 ^ Z.max 0 a * 2 ^ k).
  { rewrite <- !Z.pow_add_r by lia. f_equal. lia. }
  transitivity (n * d * (2 ^ Z.max 0 (- a) * 2 ^ Z.max 0 (a + k))); [ring|].
  rewrite E. ring.
Qed.

Lemma round_half_even_spec (N D m : Z) :
  0 < D ->
  (2 * m - 1) * D <= 2 * N -> 2 * N <= (2 * m + 1) * D ->
  (Z.even m = false -> (2 * m - 1) * D < 2 * N /\ 2 * N < (2 * m + 1) * D) ->
  round_half_even N D = m.
Proof.
  intros HD Hlo Hhi Hodd. unfold round_half_even.
  pose proof (Z.div_mod N D ltac:(lia)) as Hdm.
  pose proof (Z.mod_pos_bound N D HD) as Hr.
  set (q := N / D) in *. set (r := N mod D) in *.
  assert (Hq : q = m \/ q = m - 1) by nia.
  destruct (Z.ltb_spec (2 * r) D) as [H1 | H1].
  - destruct Hq as [-> | ->]; [reflexivity | nia].
  - destruct (Z.ltb_spec D (2 * r)) as [H2 | H2].
    + destruct Hq as [-> | ->]; [nia | lia].
    + assert (Htie : 2 * r = D) by lia.
      destruct (Z.even m) eqn:Em.
      * destruct Hq as [-> | ->]; [now rewrite Em|].
        replace (m - 1) with (Z.pred m) by lia.
        rewrite Z.even_pred, <- Z.negb_even, Em. cbn. lia.
      * specialize (Hodd eq_refl). destruct Hq as [-> | ->]; nia.
Qed.

Lemma floor_log2_ratio_spec (n d : Z) :
  0 < n -> 0 < d ->
  snd (scaled n d (floor_log2_ratio n d)) <= fst (scaled n d (floor_log2_ratio n d))
  /\ fst (scaled n d (floor_log2_ratio n d)) < 2 * snd (scaled n d (floor_log2_ratio n d)).
Proof.
  intros Hn Hd. unfold floor_log2_ratio.
  pose proof (Z.log2_spec n Hn) as [Ln1 Ln2].
  pose proof (Z.log2_spec d Hd) as [Ld1 Ld2].
  pose proof (Z.log2_nonneg n) as Ln0. pose proof (Z.log2_nonneg d) as Ld0.
  set (ln := Z.log2 n) in *. set (ld := Z.log2 d) in *.
  set (t := ln - ld).
  assert (Hup : fst (scaled n d t) < 2 * snd (scaled n d t)).
  { unfold scaled. cbn [fst snd].
    destruct (Z.le_gt_cases 0 t) as [Ht | Ht].
    - rewrite (Z.max_l 0 (- t)), (Z.max_r 0 t) by lia.
      replace (Z.succ ln) with (ld + t + 1) in Ln2 by lia.
      rewrite !Z.pow_add_r in Ln2 by lia.
      pose proof (pow2_pos t Ht). change (2 ^ 1) with 2 in Ln2. change (2 ^ 0) with 1. nia.
    - rewrite (Z.max_r 0 (- t)), (Z.max_l 0 t) by lia.
      assert (E : 2 ^ Z.succ ln * 2 ^ (- t) = 2 * 2 ^ ld).
      { rewrite <- Z.pow_add_r by lia. replace (Z.succ ln + - t) with (1 + ld) by lia.
        now rewrite Z.pow_add_r by lia. }
      pose proof (pow2_pos (- t) ltac:(lia)). change (2 ^ 0) with 1. nia. }
  assert (Hdown : snd (scaled n d t) <= 2 * fst (scaled n d t)).
  { unfold scaled. cbn [fst snd].
    destruct (Z.le_gt_cases 0 t) as [Ht | Ht].
    - rewrite (Z.max_l 0 (- t)), (Z.max_r 0 t) by lia.
      assert (E : 2 ^ Z.succ ld * 2 ^ t = 2 * 2 ^ ln).
      { rewrite <- Z.pow_add_r by lia. replace (Z.succ ld + t) with (1 + ln) by lia.
        now rewrite Z.pow_add_r by lia. }
      pose proof (pow2_pos t Ht). change (2 ^ 0) with 1. nia.
    - rewrite (Z.max_r 0 (- t)), (Z.max_l 0 t) by lia.
      replace (Z.succ ld) with (ln + - t + 1) in Ld2 by lia.
      rewrite !Z.pow_add_r in Ld2 by lia.
      pose proof (pow2_pos (- t) ltac:(lia)). change (2 ^ 1) with 2 in Ld2.
      change (2 ^ 0) with 1. nia. }
  destruct (scaled n d t) as [N D] eqn:Es. cbn [fst snd] in Hup, Hdown.
  destruct (Z.leb_spec D N) as [Hle | Hlt].
  - rewrite Es. cbn [fst snd]. lia.
  - pose proof (scaled_shift n d (t - 1) 1 ltac:(lia)) as Hs.
    replace (t - 1 + 1) with t in Hs by lia. rewrite Es in Hs. cbn [fst snd] in Hs.
    destruct (scaled_pos n d (t - 1) _ _ Hn Hd (surjective_pairing _)) as [HN' HD'].
    destruct (scaled_pos n d t _ _ Hn Hd Es) as [HN HD].
    change (2 ^ 1) with 2 in Hs. nia.
Qed.

Lemma floor_log2_ratio_le (n d j : Z) :
  0 < n -> 0 < d ->
  fst (scaled n d j) < 2 * snd (scaled n d j) ->
  floor_log2_ratio n d <= j.
Proof.
  intros Hn Hd Hj.
  destruct (floor_log2_ratio_spec n d Hn Hd) as [Hk1 Hk2].
  set (k := floor_log2_ratio n d) in *.
  destruct (Z.le_gt_cases k j) as [|Hgt]; [assumption | exfalso].
  pose proof (scaled_shift n d j (k - j) ltac:(lia)) as Hs.
  replace (j + (k - j)) with k in Hs by lia.
  destruct (scaled_pos n d j _ _ Hn Hd (surjective_pairing _)) as [HNj HDj].
  destruct (scaled_pos n d k _ _ Hn Hd (surjective_pairing _)) as [HNk HDk].
  assert (Hp : 2 <= 2 ^ (k - j)).
  { change 2 with (2 ^ 1) at 1. apply Z.pow_le_mono_r; lia. }
  set (Nj := fst (scaled n d j)) in *. set (Dj := snd (scaled n d j)) in *.
  set (Nk := fst (scaled n d k)) in *. set (Dk := snd (scaled n d k)) in *.
  set (P := 2 ^ (k - j)) in *.
  assert (H1 : Dk * Dj * 2 <= Nk * Dj * P) by (apply Z.mul_le_mono_nonneg; nia).
  assert (H2 : Nj * Dk < 2 * Dj * Dk) by nia.
  lia.
Qed.

Lemma floor_log2_ratio_ge (n d j : Z) :
  0 < n -> 0 < d ->
  snd (scaled n d j) <= fst (scaled n d j) ->
  j <= floor_log2_ratio n d.
Proof.
  intros Hn Hd Hj.
  destruct (floor_log2_ratio_spec n d Hn Hd) as [Hk1 Hk2].
  set (k := floor_log2_ratio n d) in *.
  destruct (Z.le_gt_cases j k) as [|Hgt]; [assumption | exfalso].
  pose proof (scaled_shift n d k (j - k) ltac:(lia)) as Hs.
  replace (k + (j - k)) with j in Hs by lia.
  destruct (scaled_pos n d j _ _ Hn Hd (surjective_pairing _)) as [HNj HDj].
  destruct (scaled_pos n d k _ _ Hn Hd (surjective_pairing _)) as [HNk HDk].
  assert (Hp : 2 <= 2 ^ (j - k)).
  { change 2 with (2 ^ 1) at 1. apply Z.pow_le_mono_r; lia. }
  set (Nj := fst (scaled n d j)) in *. set (Dj := snd (scaled n d j)) in *.
  set (Nk := fst (scaled n d k)) in *. set (Dk := snd (scaled n d k)) in *.
  set (P := 2 ^ (j - k)) in *.
  assert (H1 : Dj * Dk * 2 <= Nj * Dk * P) by (apply Z.mul_le_mono_nonneg; nia).
  assert (H2 : Nk * Dj < 2 * Dk * Dj) by nia.
  lia.
Qed.

Lemma floor_log2_ratio_upper (n d e j : Z) :
  0 < n -> 0 < d -> 0 <= j ->
  fst (scaled n d e) < 2 ^ (j + 1) * snd (scaled n d e) ->
  floor_log2_ratio n d <= e + j.
Proof.
  intros Hn Hd Hj Hlt. apply floor_log2_ratio_le; try assumption.
  pose proof (scaled_shift n d e j Hj) as Hs.
  destruct (scaled_pos n d e _ _ Hn Hd (surjective_pairing _)) as [HN HD].
  destruct (scaled_pos n d (e + j) _ _ Hn Hd (surjective_pairing _)) as [HN' HD'].
  rewrite Z.pow_add_r in Hlt by lia. change (2 ^ 1) with 2 in Hlt.
  pose proof (pow2_pos j Hj) as HP.
  set (N := fst (scaled n d e)) in *. set (D := snd (scaled n d e)) in *.
  set (N' := fst (scaled n d (e + j))) in *. set (D' := snd (scaled n d (e + j))) in *.
  set (P := 2 ^ j) in *.
  assert (H1 : N' * (D * P) < 2 * D' * (D * P)) by nia.
  assert (H2 : 0 < D * P) by nia.
  nia.
Qed.

Lemma floor_log2_ratio_lower (n d e j : Z) :
  0 < n -> 0 < d -> 0 <= j ->
  2 ^ j * snd (scaled n d e) <= fst (scaled n d e) ->
  e + j <= floor_log2_ratio n d.
Proof.
  intros Hn Hd Hj Hle. apply floor_log2_ratio_ge; try assumption.
  pose proof (scaled_shift n d e j Hj) as Hs.
  destruct (scaled_pos n d e _ _ Hn Hd (surjective_pairing _)) as [HN HD].
  destruct (scaled_pos n d (e + j) _ _ Hn Hd (surjective_pairing _)) as [HN' HD'].
  pose proof (pow2_pos j Hj) as HP.
  set (N := fst (scaled n d e)) in *. set (D := snd (scaled n d e)) in *.
  set (N' := fst (scaled n d (e + j))) in *. set (D' := snd (scaled n d (e + j))) in *.
  set (P := 2 ^ j) in *.
  assert (H1 : D' * (D * P) <= N' * (D * P)) by nia.
  assert (H2 : 0 < D * P) by nia.
  nia.
Qed.

(** Correct rounding: a rational inside the rounding interval of a
    binary64 number rounds to it. *)
Lemma float_of_ratio_rounds (neg : bool) (m e n d : Z) :
  0 < n -> 0 < d -> double_bounds m e ->
  in_rounding_interval m e n d = true ->
  float_of_ratio neg n d = S754_finite neg (Z.to_pos m) e.
Proof.
  intros Hn Hd Hb Hin.
  unfold in_rounding_interval in Hin.
  pose proof (floor_log2_ratio_upper n d e) as Hup.
  pose proof (floor_log2_ratio_lower n d e) as Hlow.
  pose proof (scaled_shift n d (e - 1) 1 ltac:(lia)) as Hhalf.
  replace (e - 1 + 1) with e in Hhalf by lia. change (2 ^ 1) with 2 in Hhalf.
  destruct (scaled_pos n d (e - 1) _ _ Hn Hd (surjective_pairing _)) as [HN' HD'].
  destruct (scaled n d e) as [N D] eqn:Es.
  destruct (scaled_pos n d e _ _ Hn Hd Es) as [HN HD].
  cbn [fst snd] in Hup, Hlow, Hhalf.
  apply andb_true_iff in Hin. destruct Hin as [Hlo Hhi].
  assert (Hm : 0 < m < 9007199254740992) by (destruct Hb; lia).
  assert (Hmid : (2 * m - 1) * D <= 2 * N <= (2 * m + 1) * D /\
                 (Z.even m = false -> (2 * m - 1) * D < 2 * N /\ 2 * N < (2 * m + 1) * D)).
  { destruct (Z.even m) eqn:Em.
    - apply Z.leb_le in Hhi.
      destruct ((m =? 4503599627370496) && (-1074 <? e)).
      + apply Z.leb_le in Hlo. split; [nia | discriminate].
      + apply Z.leb_le in Hlo. split; [lia | discriminate].
    - apply Z.ltb_lt in Hhi.
      destruct ((m =? 4503599627370496) && (-1074 <? e)) eqn:Hc.
      + apply andb_true_iff in Hc. destruct Hc as [Hc _]. apply Z.eqb_eq in Hc.
        subst m. discriminate Em.
      + apply Z.ltb_lt in Hlo. split; [lia | intros _; lia]. }
  destruct Hmid as [[Hl Hh] Hodd].
  unfold float_of_ratio.
  destruct (Z.leb_spec n 0) as [|_]; [lia|].
  destruct (Z.le_gt_cases (4503599627370496 * D) N) as [Hbig | Hsmall].
  - (* the same binade *)
    assert (Hk : floor_log2_ratio n d = e + 52).
    { apply Z.le_antisymm.
      - apply Hup; [assumption.. | lia |]. change (2 ^ (52 + 1)) with 9007199254740992. nia.
      - apply Hlow; [assumption.. | lia |]. change (2 ^ 52) with 4503599627370496. lia. }
    assert (He : -1074 <= e <= 971) by (destruct Hb; nia).
    rewrite Hk. replace (Z.max (e + 52 - 52) (-1074)) with e by lia.
    rewrite Es. rewrite (round_half_even_spec N D m HD Hl Hh Hodd).
    destruct (Z.eqb_spec m 9007199254740992) as [|_]; [lia|].
    destruct m as [|p|p]; try lia.
    destruct (Z.ltb_spec 971 e); [lia | reflexivity].
  - destruct (Z.eq_dec e (-1074)) as [He | He].
    + (* the lowest exponent *)
      assert (Hk : floor_log2_ratio n d <= e + 51).
      { apply Hup; [assumption.. | lia |]. change (2 ^ (51 + 1)) with 4503599627370496. lia. }
      replace (Z.max (floor_log2_ratio n d - 52) (-1074)) with e by lia.
      rewrite Es. rewrite (round_half_even_spec N D m HD Hl Hh Hodd).
      destruct (Z.eqb_spec m 9007199254740992) as [|_]; [lia|].
      destruct m as [|p|p]; try lia.
      destruct (Z.ltb_spec 971 e); [lia | reflexivity].
    + (* just below a power of two *)
      assert (Hm52 : m = 4503599627370496) by (destruct Hb; nia).
      assert (He' : -1074 < e <= 971) by (destruct Hb; lia).
      rewrite Hm52 in Hlo. rewrite Z.eqb_refl in Hlo.
      destruct (Z.ltb_spec (-1074) e) as [_|]; [|lia]. cbn [andb] in Hlo.
      apply Z.leb_le in Hlo.
      assert (Hk : floor_log2_ratio n d = e + 51).
      { apply Z.le_antisymm.
        - apply Hup; [assumption.. | lia |]. change (2 ^ (51 + 1)) with 4503599627370496. lia.
        - apply Hlow; [assumption.. | lia |]. change (2 ^ 51) with 2251799813685248. lia. }
      rewrite Hk. replace (Z.max (e + 51 - 52) (-1074)) with (e - 1) by lia.
      destruct (scaled n d (e - 1)) as [N' D'] eqn:Es'. cbn [fst snd] in Hhalf, HN', HD'.
      rewrite (round_half_even_spec N' D' 9007199254740992); try assumption.
      * rewrite Z.eqb_refl. replace (e - 1 + 1) with e by lia.
        destruct (Z.ltb_spec 971 e); [lia|]. subst m. reflexivity.
      * nia.
      * nia.
      * discriminate.
Qed.

(** ** Decimal digits *)

Lemma digits_value_app (a b : list Z) :
  digits_value (a ++ b) = digits_value a * 10 ^ Z.of_nat (length b) + digits_value b.
Proof.
  unfold digits_value. rewrite fold_left_app.
  generalize (fold_left (fun a0 d => 10 * a0 + d) a 0) as x.
  induction b as [|d b IH] using rev_ind; intros x.
  - cbn. lia.
  - rewrite !fold_left_app. cbn [fold_left]. rewrite IH, length_app. cbn [length].
    rewrite Nat2Z.inj_add, Z.pow_add_r by lia. change (10 ^ Z.of_nat 1) with 10. ring.
Qed.

Lemma digits_value_zeros (k : nat) : digits_value (repeat 0 k) = 0.
Proof.
  induction k as [|k IH]; [reflexivity|].
  change (repeat 0 (S k)) with ([0] ++ repeat 0 k).
  rewrite digits_value_app, IH. reflexivity.
Qed.

Lemma digits_value_bound (ds : list Z) :
  Forall is_digit_value ds -> 0 <= digits_value ds < 10 ^ Z.of_nat (length ds).
Proof.
  induction ds as [|d ds IH] using rev_ind; intros H.
  - cbn. lia.
  - apply Forall_app in H. destruct H as [Hds Hd]. inversion Hd as [|? ? Hd' _]; subst.
    specialize (IH Hds). rewrite digits_value_app, length_app. cbn [length].
    rewrite Nat2Z.inj_add, Z.pow_add_r by lia.
    change (10 ^ Z.of_nat 1) with 10. change (digits_value [d]) with d.
    unfold is_digit_value in Hd'. nia.
Qed.

Lemma to_digits_spec (fuel : nat) : forall n acc,
  0 < n < 2 ^ Z.of_nat fuel ->
  exists d ds,
    to_digits fuel n acc = (d :: ds) ++ acc /\
    digits_value (d :: ds) = n /\ Forall is_digit_value (d :: ds) /\ 0 < d.
Proof.
  induction fuel as [|fuel IH]; intros n acc Hn.
  - cbn in Hn. lia.
  - cbn [to_digits]. destruct (Z.ltb_spec n 10) as [Hlt | Hge].
    + exists n, []. repeat split; try (cbn; lia).
      constructor; [unfold is_digit_value; lia | constructor].
    + assert (Hq : 0 < n / 10 < 2 ^ Z.of_nat fuel).
      { split; [apply Z.div_str_pos; lia|].
        apply Z.div_lt_upper_bound; [lia|].
        rewrite Nat2Z.inj_succ, Z.pow_succ_r in Hn by lia. lia. }
      destruct (IH (n / 10) (n mod 10 :: acc) Hq) as (d & ds & E & Hv & Hf & Hd).
      exists d, (ds ++ [n mod 10]). repeat split.
      * rewrite E. cbn [app]. now rewrite <- app_assoc.
      * change (d :: ds ++ [n mod 10]) with ((d :: ds) ++ [n mod 10]).
        rewrite digits_value_app, Hv. cbn [length]. change (10 ^ Z.of_nat 1) with 10.
        change (digits_value [n mod 10]) with (n mod 10).
        pose proof (Z.div_mod n 10 ltac:(lia)). lia.
      * change (d :: ds ++ [n mod 10]) with ((d :: ds) ++ [n mod 10]).
        apply Forall_app. split; [assumption|].
        constructor; [|constructor]. unfold is_digit_value.
        pose proof (Z.mod_pos_bound n 10 ltac:(lia)). lia.
      * assumption.
Qed.

(** The decimal digits of a positive number: no leading zero. *)
Lemma decimal_digits_pos (n : Z) :
  0 < n ->
  exists d ds,
    decimal_digits n = d :: ds /\
    digits_value (d :: ds) = n /\ Forall is_digit_value (d :: ds) /\ 0 < d.
Proof.
  intros Hn. unfold decimal_digits.
  destruct (to_digits_spec (S (Z.to_nat (Z.log2 n))) n []) as (d & ds & E & H).
  - split; [assumption|].
    rewrite Nat2Z.inj_succ, Z2Nat.id by apply Z.log2_nonneg.
    apply Z.log2_spec. assumption.
  - exists d, ds. rewrite E, app_nil_r. now split.
Qed.

Lemma decimal_digits_zero : decimal_digits 0 = [0].
Proof. reflexivity. Qed.

Lemma decimal_digits_value (n : Z) :
  0 <= n -> digits_value (decimal_digits n) = n /\ Forall is_digit_value (decimal_digits n).
Proof.
  intros Hn. destruct (Z.eq_dec n 0) as [-> | Hne].
  - split; [reflexivity|]. constructor; [unfold is_digit_value; lia | constructor].
  - destruct (decimal_digits_pos n ltac:(lia)) as (d & ds & E & Hv & Hf & _).
    rewrite E. now split.
Qed.

(** ** Digit characters *)

Lemma is_digit_digit_char (d : Z) : is_digit_value d -> is_digit (digit_char d) = true.
Proof.
  unfold is_digit_value, is_digit, digit_char. intros H.
  apply andb_true_iff. split; apply Z.leb_le; lia.
Qed.

Lemma span_digits_chars (ds : list Z) (rest : pystr) :
  Forall is_digit_value ds -> nondigit_head rest ->
  span_digits (digit_chars ds ++ rest) = (digit_chars ds, rest).
Proof.
  intros Hds Hrest. induction Hds as [|d ds Hd Hds IH].
  - cbn [digit_chars map app]. destruct rest as [|c rest]; [reflexivity|].
    cbn in Hrest. cbn [span_digits]. now rewrite Hrest.
  - cbn [digit_chars map app span_digits]. rewrite (is_digit_digit_char d Hd).
    unfold digit_chars in IH. now rewrite IH.
Qed.

Lemma chars_value_digit_chars (ds : list Z) : chars_value (digit_chars ds) = digits_value ds.
Proof.
  unfold chars_value, digit_chars. rewrite map_map. f_equal.
  rewrite <- (map_id ds) at 2. apply map_ext. intros d. unfold digit_char. lia.
Qed.

Lemma zeros_digit_chars (k : Z) : zeros k = digit_chars (repeat 0 (Z.to_nat k)).
Proof.
  unfold zeros, digit_chars. now rewrite map_repeat.
Qed.

Lemma Forall_digit_zeros (k : nat) : Forall is_digit_value (repeat 0 k).
Proof.
  apply Forall_forall. intros x Hx. apply repeat_spec in Hx. subst. unfold is_digit_value. lia.
Qed.

Lemma digit_chars_app (a b : list Z) : digit_chars (a ++ b) = digit_chars a ++ digit_chars b.
Proof. apply map_app. Qed.

Lemma digits2_pos_size (p : positive) : digits2_pos p = Pos.size p.
Proof. induction p; cbn; congruence. Qed.

Lemma digits2_pos_log2 (p : positive) : Z.pos (digits2_pos p) = Z.log2 (Z.pos p) + 1.
Proof.
  rewrite digits2_pos_size. destruct p; cbn [Z.log2 Pos.size]; lia.
Qed.

(** Validity of [SpecFloat] for binary64, as bounds on mantissa and
    exponent. *)
Lemma valid_double_bounds (s : bool) (m : positive) (e : Z) :
  valid_double (S754_finite s m e) = true -> double_bounds (Z.pos m) e.
Proof.
  unfold valid_double, valid_binary, bounded, canonical_mantissa, fexp, emin.
  rewrite digits2_pos_log2. intros H.
  apply andb_true_iff in H. destruct H as [Hc He].
  apply Z.eqb_eq in Hc. apply Z.leb_le in He.
  pose proof (Z.log2_spec (Z.pos m) ltac:(lia)) as [L1 L2].
  pose proof (Z.log2_nonneg (Z.pos m)) as L0.
  set (l := Z.log2 (Z.pos m)) in *.
  unfold double_bounds.
  destruct (Z.le_gt_cases 52 l) as [Hl | Hl].
  - left. assert (l = 52) by lia. subst l.
    replace (Z.log2 (Z.pos m)) with 52 in * by lia.
    change (2 ^ 52) with 4503599627370496 in L1.
    change (2 ^ Z.succ 52) with 9007199254740992 in L2. lia.
  - right. assert (2 ^ Z.succ l <= 2 ^ 52) by (apply Z.pow_le_mono_r; lia).
    change (2 ^ 52) with 4503599627370496 in *. lia.
Qed.

(** ** The rounding interval and equal rationals *)

Lemma leb_ratio (X Y n d n' d' P Q : Z) :
  0 < d -> 0 < d' -> 0 < P -> 0 < Q -> n * d' = n' * d ->
  (X * (d * Q) <=? Y * (n * P)) = (X * (d' * Q) <=? Y * (n' * P)).
Proof.
  intros Hd Hd' HP HQ E.
  assert (H1 : X * (d * Q) * d' = X * (d' * Q) * d) by ring.
  assert (H2 : Y * (n * P) * d' = Y * (n' * P) * d).
  { transitivity (Y * P * (n * d')); [ring|]. rewrite E. ring. }
  destruct (Z.leb_spec (X * (d * Q)) (Y * (n * P)));
    destruct (Z.leb_spec (X * (d' * Q)) (Y * (n' * P))); try reflexivity; exfalso; nia.
Qed.

Lemma ltb_ratio (X Y n d n' d' P Q : Z) :
  0 < d -> 0 < d' -> 0 < P -> 0 < Q -> n * d' = n' * d ->
  (X * (d * Q) <? Y * (n * P)) = (X * (d' * Q) <? Y * (n' * P)).
Proof.
  intros Hd Hd' HP HQ E.
  assert (H1 : X * (d * Q) * d' = X * (d' * Q) * d) by ring.
  assert (H2 : Y * (n * P) * d' = Y * (n' * P) * d).
  { transitivity (Y * P * (n * d')); [ring|]. rewrite E. ring. }
  destruct (Z.ltb_spec (X * (d * Q)) (Y * (n * P)));
    destruct (Z.ltb_spec (X * (d' * Q)) (Y * (n' * P))); try reflexivity; exfalso; nia.
Qed.

Lemma leb_ratio' (X Y n d n' d' P Q : Z) :
  0 < d -> 0 < d' -> 0 < P -> 0 < Q -> n * d' = n' * d ->
  (Y * (n * P) <=? X * (d * Q)) = (Y * (n' * P) <=? X * (d' * Q)).
Proof.
  intros Hd Hd' HP HQ E.
  assert (H1 : X * (d * Q) * d' = X * (d' * Q) * d) by ring.
  assert (H2 : Y * (n * P) * d' = Y * (n' * P) * d).
  { transitivity (Y * P * (n * d')); [ring|]. rewrite E. ring. }
  destruct (Z.leb_spec (Y * (n * P)) (X * (d * Q)));
    destruct (Z.leb_spec (Y * (n' * P)) (X * (d' * Q))); try reflexivity; exfalso; nia.
Qed.

Lemma ltb_ratio' (X Y n d n' d' P Q : Z) :
  0 < d -> 0 < d' -> 0 < P -> 0 < Q -> n * d' = n' * d ->
  (Y * (n * P) <? X * (d * Q)) = (Y * (n' * P) <? X * (d' * Q)).
Proof.
  intros Hd Hd' HP HQ E.
  assert (H1 : X * (d * Q) * d' = X * (d' * Q) * d) by ring.
  assert (H2 : Y * (n * P) * d' = Y * (n' * P) * d).
  { transitivity (Y * P * (n * d')); [ring|]. rewrite E. ring. }
  destruct (Z.ltb_spec (Y * (n * P)) (X * (d * Q)));
    destruct (Z.ltb_spec (Y * (n' * P)) (X * (d' * Q))); try reflexivity; exfalso; nia.
Qed.

(** The interval test depends on the rational, not on the fraction. *)
Lemma in_rounding_interval_ratio (m e n d n' d' : Z) :
  0 < d -> 0 < d' -> n * d' = n' * d ->
  in_rounding_interval m e n d = in_rounding_interval m e n' d'.
Proof.
  intros Hd Hd' E. unfold in_rounding_interval, scaled.
  pose proof (pow2_pos (Z.max 0 (- e)) ltac:(lia)) as HP.
  pose proof (pow2_pos (Z.max 0 e) ltac:(lia)) as HQ.
  set (P := 2 ^ Z.max 0 (- e)) in *. set (Q := 2 ^ Z.max 0 e) in *.
  rewrite (leb_ratio (4 * m - 1) 4 n d n' d' P Q), (leb_ratio (2 * m - 1) 2 n d n' d' P Q),
    (ltb_ratio (2 * m - 1) 2 n d n' d' P Q), (leb_ratio' (2 * m + 1) 2 n d n' d' P Q),
    (ltb_ratio' (2 * m + 1) 2 n d n' d' P Q) by assumption.
  reflexivity.
Qed.

(** ** The shortest decimal of a float *)

Lemma candidate_reads_back (m e q k c p : Z) :
  candidate m e q k = Some (c, p) -> reads_back m e c p.
Proof.
  unfold candidate, reads_back.
  set (p0 := q - k + 1).
  set (num := m * 2 ^ Z.max 0 e * 10 ^ Z.max 0 (- p0)).
  set (den := 2 ^ Z.max 0 (- e) * 10 ^ Z.max 0 p0).
  set (c0 := num / den).
  set (lo := (0 <? c0) && in_rounding_interval m e (c0 * 10 ^ Z.max 0 p0) (10 ^ Z.max 0 (- p0))).
  set (hi := (0 <? c0 + 1)
             && in_rounding_interval m e ((c0 + 1) * 10 ^ Z.max 0 p0) (10 ^ Z.max 0 (- p0))).
  assert (Hlo : lo = true -> reads_back m e c0 p0).
  { intros H. apply andb_true_iff in H. destruct H as [H1 H2]. apply Z.ltb_lt in H1. now split. }
  assert (Hhi : hi = true -> reads_back m e (c0 + 1) p0).
  { intros H. apply andb_true_iff in H. destruct H as [H1 H2]. apply Z.ltb_lt in H1. now split. }
  unfold reads_back in Hlo, Hhi.
  destruct lo, hi; intros H; try discriminate; injection H as <- <-; auto.
  repeat match goal with |- context [if ?b then _ else _] => destruct b end; auto.
Qed.

Lemma first_candidate_reads_back (m e q : Z) (ks : list Z) (c p : Z) :
  first_candidate m e q ks = Some (c, p) -> reads_back m e c p.
Proof.
  induction ks as [|k ks IH]; cbn [first_candidate]; [discriminate|].
  destruct (candidate m e q k) as [[c' p']|] eqn:E.
  - intros H. injection H as <- <-. now apply candidate_reads_back with q k.
  - exact IH.
Qed.

Lemma exact_decimal_reads_back (m e : Z) :
  0 < m -> reads_back m e (fst (exact_decimal m e)) (snd (exact_decimal m e)).
Proof.
  intros Hm. unfold exact_decimal, reads_back.
  assert (Hin : forall N D, 0 < D -> N = m * D ->
    ( (if (m =? 4503599627370496) && (-1074 <? e) then (4 * m - 1) * D <=? 4 * N
       else if Z.even m then (2 * m - 1) * D <=? 2 * N else (2 * m - 1) * D <? 2 * N)
      && (if Z.even m then 2 * N <=? (2 * m + 1) * D else 2 * N <? (2 * m + 1) * D)) = true).
  { intros N D HD ->. apply andb_true_iff. split.
    - destruct ((m =? 4503599627370496) && (-1074 <? e)); [apply Z.leb_le; nia|].
      destruct (Z.even m); [apply Z.leb_le | apply Z.ltb_lt]; nia.
    - destruct (Z.even m); [apply Z.leb_le | apply Z.ltb_lt]; nia. }
  destruct (Z.leb_spec 0 e) as [He | He]; cbn [fst snd].
  - pose proof (pow2_pos e He) as HP. split; [nia|].
    unfold in_rounding_interval, scaled. cbn [Z.max Z.opp].
    change (10 ^ Z.max 0 0) with 1. change (10 ^ Z.max 0 (- 0)) with 1.
    rewrite (Z.max_l 0 (- e)), (Z.max_r 0 e) by lia. change (2 ^ 0) with 1.
    apply Hin; [lia | ring].
  - assert (H5 : 0 < 5 ^ (- e)) by (apply Z.pow_pos_nonneg; lia).
    split; [nia|].
    unfold in_rounding_interval, scaled.
    rewrite (Z.max_l 0 e), (Z.max_r 0 (- e)) by lia. change (10 ^ 0) with 1. change (2 ^ 0) with 1.
    apply Hin.
    + assert (0 < 10 ^ (- e)) by (apply Z.pow_pos_nonneg; lia). lia.
    + change 10 with (5 * 2). rewrite Z.pow_mul_l. ring.
Qed.

Lemma shortest_decimal_reads_back (m e : Z) :
  0 < m -> reads_back m e (fst (shortest_decimal m e)) (snd (shortest_decimal m e)).
Proof.
  intros Hm. unfold shortest_decimal.
  destruct (first_candidate m e _ _) as [[c p]|] eqn:E.
  - cbn [fst snd]. now apply first_candidate_reads_back in E.
  - now apply exact_decimal_reads_back.
Qed.

(** ** Trailing zeros *)

Lemma strip_zeros_rev_spec (l : list Z) :
  l = repeat 0 (Z.to_nat (snd (strip_zeros_rev l))) ++ fst (strip_zeros_rev l)
  /\ 0 <= snd (strip_zeros_rev l).
Proof.
  induction l as [|x l [IH1 IH2]]; [now split|].
  cbn [strip_zeros_rev].
  destruct x as [|p|p]; try (cbn; now split).
  destruct (strip_zeros_rev l) as [l' z]. cbn [fst snd] in *.
  split; [|lia].
  rewrite Z2Nat.inj_add by lia. rewrite Nat.add_comm. change (Z.to_nat 1) with 1%nat.
  cbn [Nat.add repeat app]. now f_equal.
Qed.

Lemma strip_trailing_zeros_spec (c : Z) :
  0 < c ->
  exists d ds z,
    strip_trailing_zeros c = (d :: ds, z) /\ 0 <= z /\ 0 < d /\
    Forall is_digit_value (d :: ds) /\ c = digits_value (d :: ds) * 10 ^ z.
Proof.
  intros Hc. unfold strip_trailing_zeros.
  destruct (decimal_digits_pos c Hc) as (d & ds & E & Hv & Hf & Hd).
  rewrite E.
  destruct (strip_zeros_rev_spec (rev (d :: ds))) as [Hs Hz].
  destruct (strip_zeros_rev (rev (d :: ds))) as [r z]. cbn [fst snd] in Hs, Hz.
  assert (Hrev : d :: ds = rev r ++ repeat 0 (Z.to_nat z)).
  { rewrite <- (rev_involutive (d :: ds)), Hs, rev_app_distr.
    f_equal. rewrite rev_repeat. reflexivity. }
  destruct (rev r) as [|d' ds'] eqn:Er.
  - cbn [app] in Hrev. exfalso.
    assert (Hin : In d (repeat 0 (Z.to_nat z))) by (rewrite <- Hrev; now left).
    apply repeat_spec in Hin. lia.
  - cbn [app] in Hrev. injection Hrev as <- Hds.
    exists d, ds', z. repeat split; try assumption.
    + rewrite Hds in Hf.
      change (d :: ds' ++ repeat 0 (Z.to_nat z)) with ((d :: ds') ++ repeat 0 (Z.to_nat z)) in Hf.
      now apply Forall_app in Hf.
    + rewrite <- Hv, Hds.
      change (d :: ds' ++ repeat 0 (Z.to_nat z)) with ((d :: ds') ++ repeat 0 (Z.to_nat z)).
      rewrite digits_value_app, digits_value_zeros, repeat_length, Z2Nat.id by lia. lia.
Qed.

(** ** Matching the pieces of a number *)

Lemma delimited_nondigit (rest : pystr) : delimited rest -> nondigit_head rest.
Proof.
  destruct rest as [|c rest]; [trivial|]. intros [-> | ->]; reflexivity.
Qed.

Lemma match_integer_run (d : Z) (ds : list Z) (rest : pystr) :
  Forall is_digit_value (d :: ds) -> 0 < d -> nondigit_head rest ->
  match_integer (digit_chars (d :: ds) ++ rest) = Some (digit_chars (d :: ds), rest).
Proof.
  intros Hf Hd Hrest.
  pose proof (span_digits_chars (d :: ds) rest Hf Hrest) as Hspan.
  cbn [digit_chars map app] in *. unfold match_integer.
  inversion Hf as [|? ? Hd' _]; subst.
  rewrite (is_digit_digit_char d Hd').
  destruct (Z.eqb_spec (digit_char d) 48) as [E | _]; [unfold digit_char in E; lia|].
  now rewrite Hspan.
Qed.

Lemma match_frac_run (fd : list Z) (rest : pystr) :
  fd <> [] -> Forall is_digit_value fd -> nondigit_head rest ->
  match_frac (46 :: digit_chars fd ++ rest) = (Some (digit_chars fd), rest).
Proof.
  intros Hne Hf Hrest. unfold match_frac. rewrite Z.eqb_refl.
  rewrite (span_digits_chars fd rest Hf Hrest).
  destruct fd; [contradiction | reflexivity].
Qed.

Lemma match_frac_none (s : pystr) :
  match s with [] => True | c :: _ => c <> 46 end -> match_frac s = (None, s).
Proof.
  destruct s as [|c s]; [reflexivity|]. intros H. unfold match_frac.
  destruct (Z.eqb_spec c 46); [contradiction | reflexivity].
Qed.

Lemma match_exp_run (neg : bool) (xd : list Z) (rest : pystr) :
  xd <> [] -> Forall is_digit_value xd -> nondigit_head rest ->
  match_exp (101 :: (if neg then 45 else 43) :: digit_chars xd ++ rest)
  = (Some (neg, digit_chars xd), rest).
Proof.
  intros Hne Hf Hrest. unfold match_exp.
  change ((101 =? 101) || (101 =? 69)) with true. cbv iota.
  destruct neg; cbn [Z.eqb Pos.eqb]; rewrite (span_digits_chars xd rest Hf Hrest);
    destruct xd; try contradiction; reflexivity.
Qed.

Lemma match_exp_none (s : pystr) :
  match s with [] => True | c :: _ => c <> 101 /\ c <> 69 end -> match_exp s = (None, s).
Proof.
  destruct s as [|c s]; [reflexivity|]. intros [H1 H2]. unfold match_exp.
  destruct (Z.eqb_spec c 101); [contradiction|].
  destruct (Z.eqb_spec c 69); [contradiction | reflexivity].
Qed.

Lemma delimited_no_point (rest : pystr) :
  delimited rest -> match rest with [] => True | c :: _ => c <> 46 end.
Proof. destruct rest; [trivial|]. intros [-> | ->]; discriminate. Qed.

Lemma delimited_no_exp (rest : pystr) :
  delimited rest -> match rest with [] => True | c :: _ => c <> 101 /\ c <> 69 end.
Proof. destruct rest; [trivial|]. intros [-> | ->]; split; discriminate. Qed.

(** The sign of a number followed by a digit. *)
Lemma match_number_signed (neg : bool) (c : codepoint) (body : pystr) :
  is_digit c = true ->
  match_number (sign_str neg ++ c :: body) =
  match match_integer (c :: body) with
  | None => None
  | Some (int_digits, s2) =>
    let '(frac, s3) := match_frac s2 in
    let '(ex, s4) := match_exp s3 in
    Some ({| nm_negative := neg; nm_integer := int_digits; nm_frac := frac; nm_exp := ex |}, s4)
  end.
Proof.
  intros Hc. unfold match_number. destruct neg.
  - reflexivity.
  - cbn [sign_str app].
    destruct (Z.eqb_spec c 45) as [-> | _]; [discriminate Hc | reflexivity].
Qed.

(** ** Reading a decimal *)

Lemma pow10_pos (k : Z) : 0 <= k -> 0 < 10 ^ k.
Proof. intros. apply Z.pow_pos_nonneg; lia. Qed.

(** [D0 * 10^j * 10^(E0 - j)] and [D0 * 10^E0] are one rational. *)
Lemma decimal_ratio (D0 E0 j : Z) :
  0 <= j ->
  (D0 * 10 ^ j * 10 ^ Z.max 0 (E0 - j)) * 10 ^ Z.max 0 (- E0)
  = (D0 * 10 ^ Z.max 0 E0) * 10 ^ Z.max 0 (- (E0 - j)).
Proof.
  intros Hj.
  transitivity (D0 * (10 ^ j * 10 ^ Z.max 0 (E0 - j) * 10 ^ Z.max 0 (- E0))); [ring|].
  transitivity (D0 * (10 ^ Z.max 0 E0 * 10 ^ Z.max 0 (- (E0 - j)))); [|ring].
  f_equal. rewrite <- !Z.pow_add_r by lia. f_equal. lia.
Qed.

Lemma float_of_decimal_rounds (neg : bool) (m e D0 E0 j : Z) :
  double_bounds m e -> 0 < D0 -> 0 <= j ->
  in_rounding_interval m e (D0 * 10 ^ Z.max 0 E0) (10 ^ Z.max 0 (- E0)) = true ->
  float_of_decimal neg (D0 * 10 ^ j) (E0 - j) = S754_finite neg (Z.to_pos m) e.
Proof.
  intros Hb HD Hj Hin. unfold float_of_decimal.
  pose proof (pow10_pos j Hj). pose proof (pow10_pos (Z.max 0 (E0 - j)) ltac:(lia)).
  pose proof (pow10_pos (Z.max 0 (- (E0 - j))) ltac:(lia)).
  pose proof (pow10_pos (Z.max 0 (- E0)) ltac:(lia)).
  apply float_of_ratio_rounds; try assumption; [nia|].
  rewrite <- Hin. apply in_rounding_interval_ratio; try assumption.
  apply decimal_ratio. assumption.
Qed.

Lemma digits_value_leading_zeros (k : nat) (ds : list Z) :
  digits_value (repeat 0 k ++ ds) = digits_value ds.
Proof. rewrite digits_value_app, digits_value_zeros. lia. Qed.

Lemma digits_value_trailing_zeros (k : nat) (ds : list Z) :
  digits_value (ds ++ repeat 0 k) = digits_value ds * 10 ^ Z.of_nat k.
Proof. rewrite digits_value_app, digits_value_zeros, repeat_length. lia. Qed.

Lemma digits_value_pos (d : Z) (ds : list Z) :
  Forall is_digit_value (d :: ds) -> 0 < d -> 0 < digits_value (d :: ds).
Proof.
  intros Hf Hd. change (d :: ds) with ([d] ++ ds). rewrite digits_value_app.
  inversion Hf as [|? ? _ Hds]; subst.
  pose proof (digits_value_bound ds Hds). change (digits_value [d]) with d.
  pose proof (pow10_pos (Z.of_nat (length ds)) ltac:(lia)). nia.
Qed.

Lemma length_digit_chars (ds : list Z) : length (digit_chars ds) = length ds.
Proof. apply length_map. Qed.

Lemma chars_value_cons_zero (cs : pystr) : chars_value (48 :: cs) = chars_value cs.
Proof.
  unfold chars_value. cbn [map]. change (48 - 48) with 0.
  change (0 :: map (fun c => c - 48) cs) with (repeat 0 1 ++ map (fun c => c - 48) cs).
  apply digits_value_leading_zeros.
Qed.

(** The exponent field of [format_float_short]: at least two digits. *)
Lemma exponent_digits (ex : Z) :
  0 <= ex ->
  exists xd, xd <> [] /\ Forall is_digit_value xd /\ digits_value xd = ex /\
    (if ex <? 10 then u "0" else []) ++ nat_str ex = digit_chars xd.
Proof.
  intros Hex. destruct (decimal_digits_value ex Hex) as [Hv Hf].
  destruct (Z.ltb_spec ex 10).
  - exists (0 :: decimal_digits ex). repeat split.
    + discriminate.
    + constructor; [unfold is_digit_value; lia | assumption].
    + change (0 :: decimal_digits ex) with (repeat 0 1 ++ decimal_digits ex).
      now rewrite digits_value_leading_zeros.
  - exists (decimal_digits ex). repeat split; try assumption.
    intros E. rewrite E in Hv. cbn in Hv. lia.
Qed.

Lemma match_number_digits (neg : bool) (d : Z) (l : list Z) (tail : pystr) :
  is_digit_value d ->
  match_number (sign_str neg ++ digit_chars (d :: l) ++ tail) =
  match match_integer (digit_chars (d :: l) ++ tail) with
  | None => None
  | Some (int_digits, s2) =>
    let '(frac, s3) := match_frac s2 in
    let '(ex, s4) := match_exp s3 in
    Some ({| nm_negative := neg; nm_integer := int_digits; nm_frac := frac; nm_exp := ex |}, s4)
  end.
Proof.
  intros Hd. apply (match_number_signed neg (digit_char d)).
  now apply is_digit_digit_char.
Qed.

Lemma match_integer_zero (tail : pystr) :
  match_integer (digit_chars [0] ++ tail) = Some (digit_chars [0], tail).
Proof. reflexivity. Qed.

(** The number regex matches the whole text [format_float_short] writes,
    and the value it denotes is the decimal [0.d1...dn * 10^decpt]. *)
Lemma match_number_format (neg : bool) (d : Z) (ds : list Z) (decpt : Z) (rest : pystr) :
  Forall is_digit_value (d :: ds) -> 0 < d -> delimited rest ->
  exists nm j,
    match_number (sign_str neg ++ format_float_short (d :: ds) decpt ++ rest) = Some (nm, rest) /\
    0 <= j /\
    number_value nm
    = PyFloat (float_of_decimal neg (digits_value (d :: ds) * 10 ^ j)
                                (decpt - Z.of_nat (length (d :: ds)) - j)).
Proof.
  intros Hf Hd Hrest.
  pose proof (delimited_nondigit rest Hrest) as Hnd.
  pose proof (delimited_no_point rest Hrest) as Hnp.
  pose proof (delimited_no_exp rest Hrest) as Hne.
  inversion Hf as [|? ? Hd' Hds]; subst.
  assert (H0 : is_digit_value 0) by (unfold is_digit_value; lia).
  unfold format_float_short.
  set (n := Z.of_nat (length (d :: ds))).
  assert (Hn : n = Z.of_nat (length ds) + 1) by (unfold n; cbn [length]; lia).
  destruct ((-4 <? decpt) && (decpt <=? 16)) eqn:Hfixed.
  - destruct (Z.leb_spec decpt 0) as [Hdp | Hdp].
    + (* 0.000ddd *)
      change (u "0.") with (digit_chars [0] ++ [46]).
      rewrite zeros_digit_chars, <- !app_assoc, (app_assoc (digit_chars (repeat _ _))),
        <- digit_chars_app.
      rewrite match_number_digits by assumption.
      rewrite match_integer_zero. cbn [app].
      rewrite match_frac_run; try assumption.
      * rewrite (match_exp_none rest Hne).
        eexists. exists 0. split; [reflexivity|]. split; [lia|].
        unfold number_value. cbn [nm_frac nm_exp nm_negative nm_integer].
        rewrite <- digit_chars_app, chars_value_digit_chars, length_digit_chars.
        change ([0] ++ repeat 0 (Z.to_nat (- decpt)) ++ d :: ds)
          with (repeat 0 1 ++ repeat 0 (Z.to_nat (- decpt)) ++ d :: ds).
        rewrite !digits_value_leading_zeros, length_app, repeat_length.
        f_equal. f_equal; [change (10 ^ 0) with 1; lia|].
        fold n. rewrite Nat2Z.inj_add, Z2Nat.id by lia. fold n. lia.
      * destruct (repeat 0 (Z.to_nat (- decpt))); discriminate.
      * apply Forall_app. split; [apply Forall_digit_zeros | assumption].
    + destruct (Z.leb_spec n decpt) as [Hlong | Hshort].
      * (* ddd000.0 *)
        change (u ".0") with (46 :: digit_chars [0]).
        rewrite zeros_digit_chars, <- !app_assoc, (app_assoc (digit_chars (d :: ds))),
          <- digit_chars_app.
        change ((d :: ds) ++ repeat 0 (Z.to_nat (decpt - n)))
          with (d :: ds ++ repeat 0 (Z.to_nat (decpt - n))).
        rewrite match_number_digits by assumption.
        assert (Hall : Forall is_digit_value (d :: ds ++ repeat 0 (Z.to_nat (decpt - n)))).
        { constructor; [assumption|]. apply Forall_app. split; [assumption | apply Forall_digit_zeros]. }
        rewrite match_integer_run; [|assumption | assumption | reflexivity].
        cbn [app].
        rewrite match_frac_run; [|discriminate | constructor; [assumption | constructor] | assumption].
        rewrite (match_exp_none rest Hne).
        eexists. exists (decpt - n + 1). split; [reflexivity|]. split; [lia|].
        unfold number_value. cbn [nm_frac nm_exp nm_negative nm_integer].
        rewrite <- digit_chars_app, chars_value_digit_chars.
        change (d :: ds ++ repeat 0 (Z.to_nat (decpt - n)))
          with ((d :: ds) ++ repeat 0 (Z.to_nat (decpt - n))).
        rewrite <- app_assoc.
        change (repeat 0 (Z.to_nat (decpt - n)) ++ [0])
          with (repeat 0 (Z.to_nat (decpt - n)) ++ repeat 0 1).
        rewrite <- repeat_app, digits_value_trailing_zeros.
        f_equal. f_equal.
        -- f_equal. f_equal. rewrite Nat2Z.inj_add, Z2Nat.id by lia. reflexivity.
        -- cbn [length digit_chars map]. fold n. lia.
      * (* dd.ddd *)
        change (u ".") with [46].
        assert (Hsplit : d :: ds = firstn (Z.to_nat decpt) (d :: ds) ++ skipn (Z.to_nat decpt) (d :: ds))
          by (symmetry; apply firstn_skipn).
        destruct (Z.to_nat decpt) as [|k] eqn:Ek; [lia|].
        rewrite firstn_cons in *.
        assert (Hparts : Forall is_digit_value (d :: firstn k ds)
                         /\ Forall is_digit_value (skipn (S k) (d :: ds))).
        { apply Forall_app. rewrite <- Hsplit. exact Hf. }
        destruct Hparts as [Hfst Hskp].
        assert (Hlen : length (skipn (S k) (d :: ds)) = (length (d :: ds) - S k)%nat)
          by apply length_skipn.
        rewrite <- !app_assoc.
        rewrite match_number_digits by assumption.
        rewrite match_integer_run; [|assumption | assumption | reflexivity].
        cbn [app].
        rewrite match_frac_run; [|  | assumption | assumption].
        -- rewrite (match_exp_none rest Hne).
           eexists. exists 0. split; [reflexivity|]. split; [lia|].
           unfold number_value. cbn [nm_frac nm_exp nm_negative nm_integer].
           rewrite <- digit_chars_app, chars_value_digit_chars, length_digit_chars.
           rewrite <- Hsplit. f_equal. f_equal; [change (10 ^ 0) with 1; lia|].
           rewrite Hlen. unfold n in *. lia.
        -- intros E. rewrite E in Hlen. cbn [length] in Hlen. cbn [length] in Hn. lia.
  - (* d.ddde+XX *)
    change (u "e") with [101]. change (u "-") with [45]. change (u "+") with [43].
    change (u ".") with [46].
    destruct (exponent_digits (Z.abs (decpt - 1)) (Z.abs_nonneg _)) as (xd & Hxne & Hxf & Hxv & Hxe).
    rewrite <- !app_assoc. rewrite (app_assoc _ (nat_str _) rest), Hxe.
    change (firstn 1 (d :: ds)) with [d]. change (skipn 1 (d :: ds)) with ds.
    rewrite match_number_digits by assumption.
    set (sg := if decpt - 1 <? 0 then [45] else [43]).
    assert (Hsg : forall tail, [101] ++ sg ++ tail
                  = 101 :: (if decpt - 1 <? 0 then 45 else 43) :: tail).
    { intros tail. unfold sg. destruct (decpt - 1 <? 0); reflexivity. }
    rewrite Hsg.
    rewrite match_integer_run; [| constructor; [assumption | constructor] | assumption | ].
    + destruct (Z.ltb_spec 1 n) as [Hmany | Hone].
      * rewrite <- app_assoc. cbn [app].
        rewrite match_frac_run; [| | assumption | reflexivity].
        -- rewrite match_exp_run; try assumption.
           eexists. exists 0. split; [reflexivity|]. split; [lia|].
           unfold number_value. cbn [nm_frac nm_exp nm_negative nm_integer].
           rewrite <- digit_chars_app, !chars_value_digit_chars, length_digit_chars, Hxv.
           cbn [app]. f_equal. f_equal; [change (10 ^ 0) with 1; lia|].
           destruct (Z.ltb_spec (decpt - 1) 0); lia.
        -- intros ->. cbn [length] in Hn. lia.
      * assert (ds = []) by (destruct ds; [reflexivity | cbn [length] in Hn; lia]).
        subst ds. cbn [app].
        rewrite match_frac_none by discriminate.
        rewrite match_exp_run; try assumption.
        eexists. exists 0. split; [reflexivity|]. split; [lia|].
        unfold number_value. cbn [nm_frac nm_exp nm_negative nm_integer].
        rewrite app_nil_r, !chars_value_digit_chars, Hxv.
        f_equal. f_equal; [change (10 ^ 0) with 1; lia|].
        cbn [length] in *. destruct (Z.ltb_spec (decpt - 1) 0); lia.
    + destruct (1 <? n); reflexivity.
Qed.

(** ** Numbers read back *)

(** [float(repr(x)) == x] for a finite float. *)
Lemma float_repr_reads_back (s : bool) (m : positive) (e : Z) (rest : pystr) :
  valid_double (S754_finite s m e) = true -> delimited rest ->
  exists nm,
    match_number (float_repr (S754_finite s m e) ++ rest) = Some (nm, rest) /\
    number_value nm = PyFloat (S754_finite s m e).
Proof.
  intros Hvalid Hrest. apply valid_double_bounds in Hvalid.
  unfold float_repr.
  destruct (shortest_decimal_reads_back (Z.pos m) e ltac:(lia)) as [Hc Hin].
  destruct (shortest_decimal (Z.pos m) e) as [c p]. cbn [fst snd] in Hc, Hin.
  destruct (strip_trailing_zeros_spec c Hc) as (d & ds & z & Es & Hz & Hd & Hf & Hcv).
  rewrite Es.
  destruct (match_number_format s d ds (Z.of_nat (length (d :: ds)) + z + p) rest Hf Hd Hrest)
    as (nm & j & Hm & Hj & Hv).
  exists nm. rewrite <- app_assoc. split; [exact Hm|].
  rewrite Hv.
  replace (Z.of_nat (length (d :: ds)) + z + p - Z.of_nat (length (d :: ds)) - j)
    with (z + p - j) by lia.
  rewrite (float_of_decimal_rounds s (Z.pos m) e (digits_value (d :: ds)) (z + p) j);
    try assumption.
  - reflexivity.
  - now apply digits_value_pos.
  - rewrite <- Hin.
    pose proof (pow10_pos (Z.max 0 (- (z + p))) ltac:(lia)).
    pose proof (pow10_pos (Z.max 0 (- p)) ltac:(lia)).
    apply in_rounding_interval_ratio; try assumption.
    rewrite Hcv. symmetry.
    pose proof (decimal_ratio (digits_value (d :: ds)) (z + p) z Hz) as R.
    replace (z + p - z) with p in R by lia. exact R.
Qed.

(** [int(repr(n)) == n] *)
Lemma int_repr_reads_back (n : Z) (rest : pystr) :
  delimited rest ->
  exists nm,
    match_number (int_repr n ++ rest) = Some (nm, rest) /\ number_value nm = PyInt n.
Proof.
  intros Hrest.
  pose proof (delimited_nondigit rest Hrest) as Hnd.
  pose proof (delimited_no_point rest Hrest) as Hnp.
  pose proof (delimited_no_exp rest Hrest) as Hne.
  assert (Hnat : forall neg k, 0 <= k ->
    exists nm, match_number (sign_str neg ++ nat_str k ++ rest) = Some (nm, rest) /\
               number_value nm = PyInt (if neg then - k else k)).
  { intros neg k Hk. unfold nat_str. fold (digit_chars (decimal_digits k)).
    destruct (Z.eq_dec k 0) as [-> | Hk0].
    - rewrite decimal_digits_zero.
      rewrite match_number_digits by (unfold is_digit_value; lia).
      rewrite match_integer_zero, (match_frac_none rest Hnp), (match_exp_none rest Hne).
      eexists. split; [reflexivity|]. destruct neg; reflexivity.
    - destruct (decimal_digits_pos k ltac:(lia)) as (d & ds & E & Hv & Hf & Hd).
      rewrite E. pose proof (Forall_inv Hf) as Hd'.
      rewrite match_number_digits by assumption.
      rewrite match_integer_run by assumption.
      rewrite (match_frac_none rest Hnp), (match_exp_none rest Hne).
      eexists. split; [reflexivity|].
      unfold number_value. cbn [nm_frac nm_exp nm_negative nm_integer].
      now rewrite chars_value_digit_chars, Hv. }
  unfold int_repr. destruct (Z.ltb_spec n 0) as [Hneg | Hpos].
  - destruct (Hnat true (- n) ltac:(lia)) as (nm & Hm & Hv).
    exists nm. split; [exact Hm|]. rewrite Hv. f_equal. lia.
  - destruct (Hnat false n Hpos) as (nm & Hm & Hv). now exists nm.
Qed.

(** A matched number starts with a minus sign or a digit. *)
Lemma match_number_head (s : pystr) (nm : number_match) (rest : pystr) :
  match_number s = Some (nm, rest) ->
  exists c r, s = c :: r /\ (c = 45 \/ is_digit c = true).
Proof.
  unfold match_number. destruct s as [|c r]; [discriminate|].
  intros H. exists c, r. split; [reflexivity|].
  destruct (Z.eqb_spec c 45) as [-> | Hc]; [now left | right].
  unfold match_integer in H.
  destruct (Z.eqb_spec c 48) as [-> | _]; [reflexivity|].
  destruct (is_digit c); [reflexivity | discriminate].
Qed.

Lemma scan_once_number (fuel : nat) (s : pystr) (nm : number_match) (rest : pystr) :
  match_number s = Some (nm, rest) ->
  scan_once (S fuel) s = Parsed (number_value nm) rest.
Proof.
  intros Hm. destruct (match_number_head s nm rest Hm) as (c & r & -> & Hc).
  cbn [scan_once].
  assert (Hrange : 45 <= c <= 57).
  { destruct Hc as [-> | Hc]; [lia|]. unfold is_digit in Hc.
    apply andb_true_iff in Hc. destruct Hc as [H1 H2].
    apply Z.leb_le in H1. apply Z.leb_le in H2. lia. }
  destruct (Z.eqb_spec c 34); [lia|].
  destruct (Z.eqb_spec c 123); [lia|].
  destruct (Z.eqb_spec c 91); [lia|].
  change (u "null") with [110; 117; 108; 108]. change (u "true") with [116; 114; 117; 101].
  change (u "false") with [102; 97; 108; 115; 101].
  cbn [strip_prefix].
  destruct (Z.eqb_spec 110 c); [lia|].
  destruct (Z.eqb_spec 116 c); [lia|].
  destruct (Z.eqb_spec 102 c); [lia|].
  now rewrite Hm.
Qed.

(** ** Seventeen digits are enough *)

Lemma decimal_digits_magnitude (n : Z) :
  0 < n ->
  10 ^ (Z.of_nat (length (decimal_digits n)) - 1) <= n < 10 ^ Z.of_nat (length (decimal_digits n)).
Proof.
  intros Hn. destruct (decimal_digits_pos n Hn) as (d & ds & E & Hv & Hf & Hd).
  rewrite E. split.
  - change (d :: ds) with ([d] ++ ds) in Hv. rewrite digits_value_app in Hv.
    pose proof (digits_value_bound ds (Forall_inv_tail Hf)) as Hb.
    change (digits_value [d]) with d in Hv. cbn [length].
    replace (Z.of_nat (S (length ds)) - 1) with (Z.of_nat (length ds)) by lia.
    pose proof (pow10_pos (Z.of_nat (length ds)) ltac:(lia)). nia.
  - rewrite <- Hv at 1. apply digits_value_bound. assumption.
Qed.

(** [10^q <= n/d] for [q = floor_log10_ratio n d]. *)
Lemma floor_log10_ratio_lower (n d : Z) :
  0 < n -> 0 < d ->
  d * 10 ^ Z.max 0 (floor_log10_ratio n d) <= n * 10 ^ Z.max 0 (- floor_log10_ratio n d).
Proof.
  intros Hn Hd. unfold floor_log10_ratio.
  destruct (decimal_digits_magnitude n Hn) as [Ln _].
  destruct (decimal_digits_magnitude d Hd) as [_ Ld].
  set (ln := Z.of_nat (length (decimal_digits n))) in *.
  set (ld := Z.of_nat (length (decimal_digits d))) in *.
  assert (Hln : 1 <= ln).
  { unfold ln. destruct (decimal_digits_pos n Hn) as (d0 & ds & -> & _). cbn [length]. lia. }
  assert (Hld : 0 <= ld) by (unfold ld; lia).
  set (t := ln - ld).
  destruct (Z.leb_spec (d * 10 ^ Z.max 0 t) (n * 10 ^ Z.max 0 (- t))) as [H | H]; [exact H|].
  destruct (Z.le_gt_cases 1 t) as [Ht | Ht].
  - rewrite (Z.max_r 0 (t - 1)), (Z.max_l 0 (- (t - 1))) by lia. change (10 ^ 0) with 1.
    assert (E : 10 ^ ld * 10 ^ (t - 1) = 10 ^ (ln - 1)).
    { rewrite <- Z.pow_add_r by lia. f_equal. lia. }
    pose proof (pow10_pos (t - 1) ltac:(lia)). nia.
  - rewrite (Z.max_l 0 (t - 1)), (Z.max_r 0 (- (t - 1))) by lia. change (10 ^ 0) with 1.
    assert (E : 10 ^ (ln - 1) * 10 ^ (- (t - 1)) = 10 ^ ld).
    { rewrite <- Z.pow_add_r by lia. f_equal. lia. }
    pose proof (pow10_pos (- (t - 1)) ltac:(lia)). nia.
Qed.

(** Of two neighbouring multiples of a step that is [10^16] times smaller
    than a number, one lies in the rounding interval of the 53-bit
    significand, also where the interval is narrower below a power of two. *)
Lemma neighbour_rounds_back (narrow : bool) (m c X Y : Z) :
  0 < m < 9007199254740992 -> 0 < X -> 0 < Y ->
  (narrow = true -> m = 4503599627370496) ->
  c * Y <= m * X < (c + 1) * Y ->
  10000000000000000 * Y <= m * X ->
  ((if narrow then (4 * m - 1) * X <=? 4 * (c * Y)
    else if Z.even m then (2 * m - 1) * X <=? 2 * (c * Y)
         else (2 * m - 1) * X <? 2 * (c * Y))
   && (if Z.even m then 2 * (c * Y) <=? (2 * m + 1) * X
       else 2 * (c * Y) <? (2 * m + 1) * X) = true)
  \/
  ((if narrow then (4 * m - 1) * X <=? 4 * ((c + 1) * Y)
    else if Z.even m then (2 * m - 1) * X <=? 2 * ((c + 1) * Y)
         else (2 * m - 1) * X <? 2 * ((c + 1) * Y))
   && (if Z.even m then 2 * ((c + 1) * Y) <=? (2 * m + 1) * X
       else 2 * ((c + 1) * Y) <? (2 * m + 1) * X) = true).
Proof.
  intros Hm HX HY Hnarrow Hfloor Hscale.
  assert (Hgap : Y < X).
  { assert (H : m * X <= 9007199254740992 * X)
      by (apply Z.mul_le_mono_nonneg_r; lia).
    lia. }
  destruct narrow.
  - pose proof (Hnarrow eq_refl) as Hm52. subst m.
    change (Z.even 4503599627370496) with true. cbv iota.
    destruct (Z.leb_spec ((4 * 4503599627370496 - 1) * X) (4 * (c * Y))) as [H1 | H1].
    + left. apply andb_true_iff. split; [reflexivity | apply Z.leb_le; lia].
    + right. apply andb_true_iff. split; apply Z.leb_le; lia.
  - destruct (Z.even m).
    + destruct (Z.leb_spec ((2 * m - 1) * X) (2 * (c * Y))) as [H1 | H1].
      * left. apply andb_true_iff. split; [reflexivity | apply Z.leb_le; lia].
      * right. apply andb_true_iff. split; apply Z.leb_le; lia.
    + destruct (Z.ltb_spec ((2 * m - 1) * X) (2 * (c * Y))) as [H1 | H1].
      * left. apply andb_true_iff. split; [reflexivity | apply Z.ltb_lt; lia].
      * right. apply andb_true_iff. split; apply Z.ltb_lt; lia.
Qed.

(** With seventeen significant digits one of the two decimals around a
    binary64 number rounds back to it: they are [10^-16] apart at most,
    relative to the number, and the rounding interval is wider. *)
Lemma candidate_seventeen (m e : Z) :
  double_bounds m e ->
  candidate m e (floor_log10_ratio (m * 2 ^ Z.max 0 e) (2 ^ Z.max 0 (- e))) 17 <> None.
Proof.
  intros Hb.
  assert (Hm : 0 < m < 9007199254740992) by (destruct Hb; lia).
  pose proof (pow2_pos (Z.max 0 e) ltac:(lia)) as HQ.
  pose proof (pow2_pos (Z.max 0 (- e)) ltac:(lia)) as HP.
  assert (HmQ : 0 < m * 2 ^ Z.max 0 e) by (apply Z.mul_pos_pos; lia).
  pose proof (floor_log10_ratio_lower (m * 2 ^ Z.max 0 e) (2 ^ Z.max 0 (- e)) HmQ HP) as Hq.
  clear HmQ Hb.
  set (q := floor_log10_ratio (m * 2 ^ Z.max 0 e) (2 ^ Z.max 0 (- e))) in *.
  unfold candidate.
  set (p := q - 17 + 1).
  unfold in_rounding_interval, scaled.
  set (narrow := (m =? 4503599627370496) && (-1074 <? e)).
  assert (Hnarrow : narrow = true -> m = 4503599627370496).
  { intros Hn. apply andb_true_iff in Hn. destruct Hn as [Hm52 _].
    now apply Z.eqb_eq in Hm52. }
  set (Q := 2 ^ Z.max 0 e) in *. set (P := 2 ^ Z.max 0 (- e)) in *.
  pose proof (pow10_pos (Z.max 0 p) ltac:(lia)) as HB'.
  pose proof (pow10_pos (Z.max 0 (- p)) ltac:(lia)) as HA'.
  pose proof (pow10_pos (Z.max 0 q) ltac:(lia)) as HB.
  assert (Hpow : 10 ^ Z.max 0 (- p) * 10 ^ Z.max 0 q
                 = 10 ^ Z.max 0 (- q) * 10 ^ Z.max 0 p * 10000000000000000).
  { change 10000000000000000 with (10 ^ 16). rewrite <- !Z.pow_add_r by lia.
    f_equal. unfold p. lia. }
  set (A' := 10 ^ Z.max 0 (- p)) in *. set (B' := 10 ^ Z.max 0 p) in *.
  set (A := 10 ^ Z.max 0 (- q)) in *. set (B := 10 ^ Z.max 0 q) in *.
  clearbody A' B' A B P Q p q narrow.
  assert (HX : 0 < A' * Q) by (apply Z.mul_pos_pos; assumption).
  assert (HY : 0 < P * B') by (apply Z.mul_pos_pos; assumption).
  assert (Hbig : 10000000000000000 * (P * B') <= m * (A' * Q)).
  { apply (Z.mul_le_mono_pos_r _ _ B HB).
    transitivity (P * B * (B' * 10000000000000000)); [apply Z.eq_le_incl; ring|].
    transitivity (m * Q * A * (B' * 10000000000000000)).
    - apply Z.mul_le_mono_nonneg_r; lia.
    - apply Z.eq_le_incl.
      transitivity (m * Q * (A * B' * 10000000000000000)); [ring|].
      rewrite <- Hpow. ring. }
  clear Hpow Hq HB A B.
  replace (m * Q * A') with (m * (A' * Q)) by ring.
  pose proof (Z.div_mod (m * (A' * Q)) (P * B') ltac:(lia)) as Hdm.
  pose proof (Z.mod_pos_bound (m * (A' * Q)) (P * B') HY) as Hr.
  assert (Hc : 10000000000000000 <= m * (A' * Q) / (P * B'))
    by (apply Z.div_le_lower_bound; lia).
  set (c := m * (A' * Q) / (P * B')) in *.
  set (r := m * (A' * Q) mod (P * B')) in *.
  clearbody c r.
  assert (Hlo : forall x, 0 < x -> (0 <? x) = true) by (intros x Hx; now apply Z.ltb_lt).
  rewrite (Hlo c) by lia. rewrite (Hlo (c + 1)) by lia. cbn [andb].
  replace (c * B' * P) with (c * (P * B')) by ring.
  replace ((c + 1) * B' * P) with ((c + 1) * (P * B')) by ring.
  assert (Hfloor : c * (P * B') <= m * (A' * Q) < (c + 1) * (P * B')) by lia.
  destruct (neighbour_rounds_back narrow m c (A' * Q) (P * B') Hm HX HY Hnarrow Hfloor Hbig)
    as [H | H]; rewrite H.
  - match goal with |- context [if ?b then _ else _] => destruct b end; discriminate.
  - match goal with |- context [if ?b && true then _ else _] => destruct b end;
      cbn [andb]; discriminate.
Qed.

Lemma first_candidate_found (m e q : Z) (ks : list Z) (k : Z) :
  In k ks -> candidate m e q k <> None -> first_candidate m e q ks <> None.
Proof.
  induction ks as [|k' ks IH]; intros Hin Hk; [contradiction|].
  cbn [first_candidate]. destruct (candidate m e q k') eqn:E; [discriminate|].
  destruct Hin as [-> | Hin]; [contradiction | now apply IH].
Qed.

(** The search of [shortest_decimal] always succeeds: the repr of a float
    has seventeen significant digits at most, and the exact expansion
    behind the search is never used. *)
Lemma shortest_decimal_within_seventeen (m e : Z) :
  double_bounds m e ->
  first_candidate m e (floor_log10_ratio (m * 2 ^ Z.max 0 e) (2 ^ Z.max 0 (- e)))
    [1; 2; 3; 4; 5; 6; 7; 8; 9; 10; 11; 12; 13; 14; 15; 16; 17]
  = Some (shortest_decimal m e).
Proof.
  intros Hb. unfold shortest_decimal.
  pose proof (first_candidate_found m e
                (floor_log10_ratio (m * 2 ^ Z.max 0 e) (2 ^ Z.max 0 (- e)))
                [1; 2; 3; 4; 5; 6; 7; 8; 9; 10; 11; 12; 13; 14; 15; 16; 17] 17) as Hfound.
  destruct (first_candidate m e _ _) as [r|]; [reflexivity|].
  exfalso. apply Hfound; [|now apply candidate_seventeen | reflexivity].
  cbn. tauto.
Qed.

(** ** Checking a property of every small number by computation *)

Lemma all_below_spec (n : nat) (f : Z -> bool) :
  all_below n f = true -> forall x, 0 <= x < Z.of_nat n -> f x = true.
Proof.
  induction n as [|n IH]; intros H x Hx; [lia|].
  cbn [all_below] in H. apply andb_true_iff in H. destruct H as [Hn Hrest].
  destruct (Z.eq_dec x (Z.of_nat n)) as [-> | Hne]; [assumption|].
  apply IH; [assumption | lia].
Qed.

(** ** Hexadecimal escapes *)

Lemma hex_value_hex_digit (d : Z) : 0 <= d < 16 -> hex_value (hex_digit d) = Some d.
Proof.
  intros Hd.
  apply (all_below_spec 16 (fun d => match hex_value (hex_digit d) with
                                     | Some v => v =? d
                                     | None => false
                                     end) eq_refl) in Hd.
  destruct (hex_value (hex_digit d)) as [v|]; [|discriminate].
  apply Z.eqb_eq in Hd. now subst.
Qed.

Lemma hex4_shape (c : Z) :
  0 <= c < 65536 ->
  exists h1 h2 h3 h4, hex 4 c = [h1; h2; h3; h4] /\ hex4_value h1 h2 h3 h4 = Some c.
Proof.
  intros Hc. cbn [hex app].
  do 4 eexists. split; [reflexivity|].
  unfold hex4_value.
  assert (H0 : 0 <= c / 16 / 16 / 16 < 16).
  { split; [repeat apply Z.div_pos; lia|].
    repeat (apply Z.div_lt_upper_bound; [lia|]). lia. }
  rewrite !hex_value_hex_digit by (apply Z.mod_pos_bound; lia).
  f_equal.
  rewrite (Z.mod_small (c / 16 / 16 / 16) 16 H0).
  pose proof (Z.div_mod c 16 ltac:(lia)).
  pose proof (Z.div_mod (c / 16) 16 ltac:(lia)).
  pose proof (Z.div_mod (c / 16 / 16) 16 ltac:(lia)).
  lia.
Qed.

(** ** Surrogate pairs *)

Lemma lor_high (x : Z) : 0 <= x < 1024 -> Z.lor 55296 x = 55296 + x.
Proof.
  intros Hx.
  apply (all_below_spec 1024 (fun x => Z.lor 55296 x =? 55296 + x) eq_refl) in Hx.
  now apply Z.eqb_eq in Hx.
Qed.

Lemma lor_low (x : Z) : 0 <= x < 1024 -> Z.lor 56320 x = 56320 + x.
Proof.
  intros Hx.
  apply (all_below_spec 1024 (fun x => Z.lor 56320 x =? 56320 + x) eq_refl) in Hx.
  now apply Z.eqb_eq in Hx.
Qed.

Lemma lor_shiftl_10 (a b : Z) :
  0 <= a -> 0 <= b < 1024 -> Z.lor (Z.shiftl a 10) b = a * 1024 + b.
Proof.
  intros Ha Hb. rewrite Z.shiftl_mul_pow2 by lia. change (2 ^ 10) with 1024.
  rewrite <- Z.lxor_lor, <- Z.add_nocarry_lxor; try reflexivity.
  - apply Z.bits_inj'. intros n Hn. rewrite Z.land_spec, Z.bits_0.
    destruct (Z.lt_ge_cases n 10) as [Hlt | Hge].
    + replace (a * 1024) with (a * 2 ^ 10) by reflexivity.
      rewrite Z.mul_pow2_bits_low by lia. reflexivity.
    + rewrite (Z.bits_above_log2 b n); [apply andb_false_r | lia |].
      destruct (Z.eq_dec b 0) as [-> | Hb0]; [cbn; lia|].
      apply Z.log2_lt_pow2; [lia|].
      apply Z.lt_le_trans with (2 ^ 10); [change (2 ^ 10) with 1024; lia|].
      apply Z.pow_le_mono_r; lia.
  - apply Z.bits_inj'. intros n Hn. rewrite Z.land_spec, Z.bits_0.
    destruct (Z.lt_ge_cases n 10) as [Hlt | Hge].
    + replace (a * 1024) with (a * 2 ^ 10) by reflexivity.
      rewrite Z.mul_pow2_bits_low by lia. reflexivity.
    + rewrite (Z.bits_above_log2 b n); [apply andb_false_r | lia |].
      destruct (Z.eq_dec b 0) as [-> | Hb0]; [cbn; lia|].
      apply Z.log2_lt_pow2; [lia|].
      apply Z.lt_le_trans with (2 ^ 10); [change (2 ^ 10) with 1024; lia|].
      apply Z.pow_le_mono_r; lia.
Qed.

Lemma surrogates_of (c : codepoint) :
  65536 <= c < 1114112 ->
  high_of c = 55296 + (c - 65536) / 1024 /\ low_of c = 56320 + (c - 65536) mod 1024.
Proof.
  intros Hc. unfold high_of, low_of.
  rewrite Z.shiftr_div_pow2 by lia. change (2 ^ 10) with 1024.
  change 1023 with (Z.ones 10). rewrite !Z.land_ones by lia. change (2 ^ 10) with 1024.
  assert (Hq : 0 <= (c - 65536) / 1024 < 1024).
  { split; [apply Z.div_pos; lia | apply Z.div_lt_upper_bound; lia]. }
  rewrite (Z.mod_small _ 1024 Hq).
  pose proof (Z.mod_pos_bound (c - 65536) 1024 ltac:(lia)).
  rewrite lor_high, lor_low by assumption. split; reflexivity.
Qed.

Lemma surrogates_join (c : codepoint) :
  65536 <= c < 1114112 ->
  is_high_surrogate (high_of c) = true /\ is_low_surrogate (low_of c) = true /\
  0 <= high_of c < 65536 /\ 0 <= low_of c < 65536 /\
  65536 + Z.lor (Z.shiftl (high_of c - 55296) 10) (low_of c - 56320) = c.
Proof.
  intros Hc. destruct (surrogates_of c Hc) as [-> ->].
  assert (Hq : 0 <= (c - 65536) / 1024 < 1024).
  { split; [apply Z.div_pos; lia | apply Z.div_lt_upper_bound; lia]. }
  pose proof (Z.mod_pos_bound (c - 65536) 1024 ltac:(lia)) as Hr.
  pose proof (Z.div_mod (c - 65536) 1024 ltac:(lia)) as Hdm.
  unfold is_high_surrogate, is_low_surrogate.
  split; [apply andb_true_iff; split; apply Z.leb_le; lia|].
  split; [apply andb_true_iff; split; apply Z.leb_le; lia|].
  split; [lia|]. split; [lia|].
  replace (55296 + (c - 65536) / 1024 - 55296) with ((c - 65536) / 1024) by lia.
  replace (56320 + (c - 65536) mod 1024 - 56320) with ((c - 65536) mod 1024) by lia.
  rewrite lor_shiftl_10 by lia. lia.
Qed.

(** ** JSON strings read back *)

Lemma scanstring_plain (c : codepoint) (tail : pystr) :
  32 <= c -> c <> 34 -> c <> 92 ->
  scanstring (c :: tail) = read_after c (scanstring tail).
Proof.
  intros H1 H2 H3. cbn [scanstring].
  destruct (Z.eqb_spec c 34); [contradiction|].
  destruct (Z.eqb_spec c 92); [contradiction|].
  destruct (Z.ltb_spec c 32); [lia | reflexivity].
Qed.

Lemma scanstring_short (e ch : codepoint) (tail : pystr) :
  unescape e = Some ch -> e <> 117 ->
  scanstring (92 :: e :: tail) = read_after ch (scanstring tail).
Proof.
  intros Hu He. cbn [scanstring]. change (92 =? 34) with false. change (92 =? 92) with true.
  cbv iota. destruct (Z.eqb_spec e 117); [contradiction|]. now rewrite Hu.
Qed.

Lemma scanstring_u4 (c : codepoint) (tail : pystr) :
  0 <= c < 65536 ->
  (is_high_surrogate c = true -> no_low_escape tail) ->
  scanstring (92 :: 117 :: hex 4 c ++ tail) = read_after c (scanstring tail).
Proof.
  intros Hc Htail.
  destruct (hex4_shape c Hc) as (h1 & h2 & h3 & h4 & -> & Hv).
  cbn [app scanstring]. change (92 =? 34) with false. change (92 =? 92) with true.
  change (117 =? 117) with true. cbv iota. rewrite Hv.
  destruct (is_high_surrogate c) eqn:Hhigh; [|reflexivity].
  specialize (Htail eq_refl).
  destruct tail as [|b [|c2 r3]]; try reflexivity.
  unfold no_low_escape in Htail.
  destruct ((b =? 92) && (c2 =? 117)); [|reflexivity].
  destruct (Htail eq_refl) as (v & r4 & -> & Hvr & Hlow).
  destruct (hex4_shape v Hvr) as (g1 & g2 & g3 & g4 & -> & Hg).
  cbn [app]. rewrite Hg, Hlow. reflexivity.
Qed.

Lemma scanstring_pair (c : codepoint) (tail : pystr) :
  65536 <= c < 1114112 ->
  scanstring (92 :: 117 :: hex 4 (high_of c) ++ 92 :: 117 :: hex 4 (low_of c) ++ tail)
  = read_after c (scanstring tail).
Proof.
  intros Hc. destruct (surrogates_join c Hc) as (Hh & Hl & Hhr & Hlr & Hjoin).
  destruct (hex4_shape _ Hhr) as (h1 & h2 & h3 & h4 & -> & Hv).
  destruct (hex4_shape _ Hlr) as (g1 & g2 & g3 & g4 & -> & Hg).
  cbn [app scanstring]. change (92 =? 34) with false. change (92 =? 92) with true.
  change (117 =? 117) with true. cbv iota. rewrite Hv, Hh.
  cbn [andb]. cbv iota. rewrite Hg, Hl, Hjoin. reflexivity.
Qed.

(** What [json_escape] writes for a character is read as that
    character. *)
Lemma scanstring_escape (c : codepoint) (tail : pystr) :
  is_codepoint c ->
  (is_high_surrogate c = true -> no_low_escape tail) ->
  scanstring (json_escape c ++ tail) = read_after c (scanstring tail).
Proof.
  intros Hc Htail. unfold is_codepoint in Hc. unfold json_escape.
  destruct (Z.eqb_spec c 34) as [-> | H34]; [now apply scanstring_short|].
  destruct (Z.eqb_spec c 92) as [-> | H92]; [now apply scanstring_short|].
  destruct (Z.eqb_spec c 10) as [-> | H10]; [now apply scanstring_short|].
  destruct (Z.eqb_spec c 13) as [-> | H13]; [now apply scanstring_short|].
  destruct (Z.eqb_spec c 9) as [-> | H9]; [now apply scanstring_short|].
  destruct (Z.eqb_spec c 8) as [-> | H8]; [now apply scanstring_short|].
  destruct (Z.eqb_spec c 12) as [-> | H12]; [now apply scanstring_short|].
  destruct ((32 <=? c) && (c <=? 126)) eqn:Hplain.
  - apply andb_true_iff in Hplain. destruct Hplain as [Hlo _]. apply Z.leb_le in Hlo.
    now apply scanstring_plain.
  - change (u "\u") with [92; 117].
    destruct (Z.ltb_spec c 65536) as [Hsmall | Hbig].
    + cbn [app]. apply scanstring_u4; [lia | assumption].
    + rewrite <- !app_assoc. cbn [app]. apply (scanstring_pair c tail). lia.
Qed.

(** The escapes of a text that does not begin with a low surrogate do not
    begin with the escape of one. *)
Lemma no_low_escape_text (s : pystr) (rest : pystr) :
  Forall is_codepoint s ->
  match s with d :: _ => is_low_surrogate d = false | [] => True end ->
  no_low_escape (flat_map json_escape s ++ 34 :: rest).
Proof.
  intros Hs Hhead. destruct s as [|d s].
  { cbn [flat_map app no_low_escape]. destruct rest; [trivial | discriminate]. }
  pose proof (Forall_inv Hs) as Hd. unfold is_codepoint in Hd.
  cbn [flat_map]. rewrite <- app_assoc.
  set (tail := flat_map json_escape s ++ 34 :: rest).
  unfold json_escape.
  destruct (Z.eqb_spec d 34) as [-> | H34]; [cbn; discriminate|].
  destruct (Z.eqb_spec d 92) as [-> | H92]; [cbn; discriminate|].
  destruct (Z.eqb_spec d 10) as [-> | H10]; [cbn; discriminate|].
  destruct (Z.eqb_spec d 13) as [-> | H13]; [cbn; discriminate|].
  destruct (Z.eqb_spec d 9) as [-> | H9]; [cbn; discriminate|].
  destruct (Z.eqb_spec d 8) as [-> | H8]; [cbn; discriminate|].
  destruct (Z.eqb_spec d 12) as [-> | H12]; [cbn; discriminate|].
  destruct ((32 <=? d) && (d <=? 126)) eqn:Hplain.
  - cbn [app no_low_escape]. destruct tail as [|c2 r3]; [trivial|].
    destruct (Z.eqb_spec d 92); [contradiction | discriminate].
  - change (u "\u") with [92; 117].
    destruct (Z.ltb_spec d 65536) as [Hsmall | Hbig].
    + cbn [app no_low_escape]. intros _. exists d, tail. repeat split; try lia. assumption.
    + destruct (surrogates_join d ltac:(lia)) as (Hh & _ & Hhr & _).
      rewrite <- !app_assoc. cbn [app no_low_escape]. intros _.
      exists (high_of d). eexists. split; [reflexivity|]. split; [assumption|].
      unfold is_high_surrogate in Hh. unfold is_low_surrogate.
      apply andb_true_iff in Hh. destruct Hh as [_ Hh]. apply Z.leb_le in Hh.
      apply andb_false_iff. left. apply Z.leb_gt. lia.
Qed.

Lemma scanstring_escaped (s : pystr) (rest : pystr) :
  Forall is_codepoint s -> no_split_pair s = true ->
  scanstring (flat_map json_escape s ++ 34 :: rest) = Some (s, rest).
Proof.
  induction s as [|c s IH]; intros Hs Hpair; [reflexivity|].
  pose proof (Forall_inv Hs) as Hc. pose proof (Forall_inv_tail Hs) as Hs'.
  cbn [no_split_pair] in Hpair. apply andb_true_iff in Hpair. destruct Hpair as [Hhead Hpair].
  cbn [flat_map]. rewrite <- app_assoc.
  rewrite scanstring_escape; [now rewrite IH | assumption |].
  intros Hhigh. apply no_low_escape_text; [assumption|].
  destruct s as [|d s]; [trivial|].
  rewrite Hhigh in Hhead. cbn [andb] in Hhead. now apply negb_true_iff in Hhead.
Qed.

(** [encode_string] writes a string the scanner reads back. *)
Lemma encode_string_reads_back (s : pystr) (rest : pystr) :
  Forall is_codepoint s -> no_split_pair s = true ->
  exists body, encode_string s ++ rest = 34 :: body /\ scanstring body = Some (s, rest).
Proof.
  intros Hs Hpair. exists (flat_map json_escape s ++ 34 :: rest). split.
  - unfold encode_string. cbn [app]. now rewrite <- app_assoc.
  - now apply scanstring_escaped.
Qed.

(** ** Values of the Python types *)

Lemma forallb_is_codepoint (s : pystr) :
  forallb is_codepointb s = true -> Forall is_codepoint s.
Proof.
  intros H. apply Forall_forall. intros c Hc.
  rewrite forallb_forall in H. specialize (H c Hc).
  unfold is_codepointb in H. apply andb_true_iff in H. destruct H as [H1 H2].
  apply Z.leb_le in H1. apply Z.ltb_lt in H2. unfold is_codepoint. lia.
Qed.

(** ** Whitespace *)

Lemma skip_ws_start (c : codepoint) (r : pystr) :
  is_ws c = false -> skip_ws (c :: r) = c :: r.
Proof. intros H. cbn [skip_ws]. now rewrite H. Qed.

Lemma skip_ws_newline_indent (indent level : nat) (c : codepoint) (r : pystr) :
  is_ws c = false -> skip_ws (newline_indent indent level ++ c :: r) = c :: r.
Proof.
  intros H. unfold newline_indent. cbn [app skip_ws]. change (is_ws 10) with true. cbv iota.
  induction (indent * level)%nat as [|k IH]; cbn [repeat app skip_ws].
  - now rewrite H.
  - change (is_ws 32) with true. cbv iota. exact IH.
Qed.

Lemma delimited_newline_indent (indent level : nat) (tail : pystr) :
  delimited (newline_indent indent level ++ tail).
Proof. cbn. now right. Qed.

Lemma digit_not_ws (c : codepoint) : c = 45 \/ is_digit c = true -> value_start c.
Proof.
  intros Hc.
  assert (Hrange : 45 <= c <= 57).
  { destruct Hc as [-> | Hc]; [lia|]. unfold is_digit in Hc.
    apply andb_true_iff in Hc. destruct Hc as [H1 H2].
    apply Z.leb_le in H1. apply Z.leb_le in H2. lia. }
  unfold value_start, is_ws. split; [|lia].
  destruct (Z.eqb_spec c 32); [lia|]. destruct (Z.eqb_spec c 9); [lia|].
  destruct (Z.eqb_spec c 10); [lia|]. destruct (Z.eqb_spec c 13); [lia | reflexivity].
Qed.

Lemma number_start (text : pystr) (nm : number_match) :
  match_number (text ++ []) = Some (nm, []) ->
  exists c r, text = c :: r /\ value_start c.
Proof.
  rewrite app_nil_r. intros H.
  destruct (match_number_head text nm [] H) as (c & r & -> & Hc).
  exists c, r. split; [reflexivity | now apply digit_not_ws].
Qed.

Lemma floatstr_start (x : spec_float) :
  valid_double x = true -> exists c r, floatstr x = c :: r /\ value_start c.
Proof.
  intros Hx. destruct x as [s | s | | s m e].
  - destruct s; eexists; eexists; (split; [reflexivity | split; [reflexivity | discriminate]]).
  - destruct s; eexists; eexists; (split; [reflexivity | split; [reflexivity | discriminate]]).
  - eexists; eexists; (split; [reflexivity | split; [reflexivity | discriminate]]).
  - destruct (float_repr_reads_back s m e [] Hx I) as (nm & Hm & _).
    exact (number_start _ nm Hm).
Qed.

(** Every encoded value starts with a character that is neither
    whitespace nor a closing bracket. *)
Lemma iterencode_start (indent level : nat) (v : pyvalue) :
  python_value v = true ->
  exists c r, iterencode indent level v = c :: r /\ value_start c.
Proof.
  intros Hv.
  destruct v as [| b | n | x | s | l | d]; cbn [iterencode].
  - eexists; eexists; (split; [reflexivity | split; [reflexivity | discriminate]]).
  - destruct b; eexists; eexists; (split; [reflexivity | split; [reflexivity | discriminate]]).
  - destruct (int_repr_reads_back n [] I) as (nm & Hm & _). exact (number_start _ nm Hm).
  - now apply floatstr_start.
  - eexists; eexists; (split; [reflexivity | split; [reflexivity | discriminate]]).
  - destruct l; eexists; eexists; (split; [reflexivity | split; [reflexivity | discriminate]]).
  - destruct d; eexists; eexists; (split; [reflexivity | split; [reflexivity | discriminate]]).
Qed.

(** ** The decoder reads back what the encoder writes *)

Lemma float_zero_reads_back (s : bool) (rest : pystr) :
  delimited rest ->
  exists nm, match_number (float_repr (S754_zero s) ++ rest) = Some (nm, rest) /\
             number_value nm = PyFloat (S754_zero s).
Proof.
  intros Hrest.
  pose proof (delimited_nondigit rest Hrest) as Hnd.
  pose proof (delimited_no_exp rest Hrest) as Hne.
  assert (H0 : is_digit_value 0) by (unfold is_digit_value; lia).
  unfold float_repr. change (u "0.0") with (digit_chars [0] ++ 46 :: digit_chars [0]).
  rewrite <- !app_assoc. rewrite match_number_digits by assumption.
  rewrite match_integer_zero. cbn [app].
  rewrite match_frac_run; [| discriminate | constructor; [assumption | constructor] | assumption].
  rewrite (match_exp_none rest Hne).
  eexists. split; [reflexivity|]. destruct s; reflexivity.
Qed.

Lemma scan_once_float (x : spec_float) (fuel : nat) (rest : pystr) :
  valid_double x = true -> delimited rest ->
  scan_once (S fuel) (floatstr x ++ rest) = Parsed (PyFloat x) rest.
Proof.
  intros Hx Hrest. destruct x as [s | s | | s m e].
  - destruct (float_zero_reads_back s rest Hrest) as (nm & Hm & Hv).
    change (floatstr (S754_zero s)) with (float_repr (S754_zero s)).
    rewrite (scan_once_number fuel _ nm rest Hm). now rewrite Hv.
  - destruct s; reflexivity.
  - reflexivity.
  - destruct (float_repr_reads_back s m e rest Hx Hrest) as (nm & Hm & Hv).
    change (floatstr (S754_finite s m e)) with (float_repr (S754_finite s m e)).
    rewrite (scan_once_number fuel _ nm rest Hm). now rewrite Hv.
Qed.

Lemma scan_once_int (n : Z) (fuel : nat) (rest : pystr) :
  delimited rest ->
  scan_once (S fuel) (int_repr n ++ rest) = Parsed (PyInt n) rest.
Proof.
  intros Hrest. destruct (int_repr_reads_back n rest Hrest) as (nm & Hm & Hv).
  rewrite (scan_once_number fuel _ nm rest Hm). now rewrite Hv.
Qed.

Lemma scan_once_string (s : pystr) (fuel : nat) (rest : pystr) :
  Forall is_codepoint s -> no_split_pair s = true ->
  scan_once (S fuel) (encode_string s ++ rest) = Parsed (PyStr s) rest.
Proof.
  intros Hs Hpair.
  destruct (encode_string_reads_back s rest Hs Hpair) as (body & -> & Hscan).
  cbn [scan_once]. change (34 =? 34) with true. cbv iota. now rewrite Hscan.
Qed.

Lemma reads_back_scalar (v : pyvalue) :
  (1 <= fuel_for v)%nat ->
  (forall fuel level rest, delimited rest ->
     scan_once (S fuel) (iterencode 2 level v ++ rest) = Parsed v rest) ->
  reads_back_value v.
Proof.
  intros H1 H. intros fuel level rest Hfuel Hrest.
  destruct fuel as [|fuel]; [lia|]. now apply H.
Qed.

(** ** Dicts *)

Lemma pystr_eqb_eq (a b : pystr) : pystr_eqb a b = true <-> a = b.
Proof.
  unfold pystr_eqb. destruct (list_eq_dec Z.eq_dec a b); split; congruence.
Qed.

Lemma distinct_NoDup (ks : list pystr) : distinct ks = true -> NoDup ks.
Proof.
  induction ks as [|k ks IH]; cbn [distinct]; intros H; [constructor|].
  apply andb_true_iff in H. destruct H as [Hk Hks].
  constructor; [|now apply IH].
  intros Hin. apply negb_true_iff in Hk.
  assert (existsb (pystr_eqb k) ks = true); [|congruence].
  apply existsb_exists. exists k. split; [assumption | now apply pystr_eqb_eq].
Qed.

Lemma dict_set_fresh (d : list (pystr * pyvalue)) (k : pystr) (v : pyvalue) :
  ~ In k (map fst d) -> dict_set d k v = d ++ [(k, v)].
Proof.
  induction d as [|[k' v'] d IH]; intros Hk; [reflexivity|].
  cbn [dict_set app]. cbn [map fst In] in Hk.
  destruct (pystr_eqb k k') eqn:E.
  - apply pystr_eqb_eq in E. subst. tauto.
  - f_equal. apply IH. tauto.
Qed.

Lemma dict_of_pairs_from (pairs acc : list (pystr * pyvalue)) :
  NoDup (map fst (acc ++ pairs)) ->
  fold_left (fun d kv => dict_set d (fst kv) (snd kv)) pairs acc = acc ++ pairs.
Proof.
  revert acc. induction pairs as [|[k v] pairs IH]; intros acc Hnd.
  - now rewrite app_nil_r.
  - cbn [fold_left fst snd].
    rewrite dict_set_fresh.
    + rewrite IH; rewrite <- app_assoc; [reflexivity | exact Hnd].
    + rewrite map_app in Hnd. cbn [map fst] in Hnd.
      apply NoDup_remove_2 in Hnd. intros Hin. apply Hnd. apply in_or_app. now left.
Qed.

(** A dict read from pairs with distinct keys is the list of the pairs. *)
Lemma dict_of_pairs_distinct (d : list (pystr * pyvalue)) :
  distinct (map fst d) = true -> dict_of_pairs d = d.
Proof.
  intros H. unfold dict_of_pairs. apply (dict_of_pairs_from d []).
  now apply distinct_NoDup.
Qed.

(** ** Arrays and objects *)

Lemma join_cons2 (sep p q : pystr) (ps : list pystr) :
  join sep (p :: q :: ps) = p ++ sep ++ join sep (q :: ps).
Proof. reflexivity. Qed.

(** The items of a non-empty list, written by the encoder, are read
    back. *)
Lemma array_items_encoded (l : list pyvalue) : forall x,
  Forall reads_back_value (x :: l) ->
  Forall (fun v => python_value v = true) (x :: l) ->
  forall fuel level rest,
    (fold_right (fun x acc => S (Nat.max (fuel_for x) acc)) 0%nat (x :: l) <= fuel)%nat ->
    array_items fuel
      (join (u "," ++ newline_indent 2 (S level)) (map (iterencode 2 (S level)) (x :: l))
         ++ newline_indent 2 level ++ u "]" ++ rest)
    = Parsed (x :: l) rest.
Proof.
  induction l as [|y l IH]; intros x Hrb Hpv.
  - pose proof (Forall_inv Hrb) as Hx.
    intros fuel level rest Hfuel. cbn [fold_right] in Hfuel.
    destruct fuel as [|fuel]; [lia|]. cbn [map join array_items].
    rewrite Hx by (try lia; apply delimited_newline_indent).
    change (u "]") with [93]. cbn [app].
    rewrite skip_ws_newline_indent by reflexivity.
    reflexivity.
  - pose proof (Forall_inv Hrb) as Hx.
    pose proof (IH y (Forall_inv_tail Hrb) (Forall_inv_tail Hpv)) as Hitems.
    intros fuel level rest Hfuel.
    change (fold_right (fun x acc => S (Nat.max (fuel_for x) acc)) 0%nat (x :: y :: l))
      with (S (Nat.max (fuel_for x)
                 (fold_right (fun x acc => S (Nat.max (fuel_for x) acc)) 0%nat (y :: l))))
      in Hfuel.
    destruct fuel as [|fuel]; [lia|].
    specialize (Hitems fuel level rest ltac:(lia)).
    cbn [map] in *. rewrite join_cons2. cbn [array_items].
    set (sep := u "," ++ newline_indent 2 (S level)) in *.
    set (tail := newline_indent 2 level ++ u "]" ++ rest) in *.
    assert (Hsep : forall t, sep ++ t = 44 :: newline_indent 2 (S level) ++ t).
    { intros t. unfold sep. now rewrite <- app_assoc. }
    rewrite <- !app_assoc, Hsep.
    rewrite Hx by (try lia; cbn; now left).
    rewrite skip_ws_start by reflexivity.
    change (44 =? 93) with false. change (44 =? 44) with true. cbv iota.
    destruct (iterencode_start 2 (S level) y (Forall_inv (Forall_inv_tail Hpv)))
      as (c & r & Ey & Hc & _).
    assert (Hhead : exists r', join sep (iterencode 2 (S level) y :: map (iterencode 2 (S level)) l)
                               = c :: r').
    { destruct l; cbn [map join]; rewrite Ey; eexists; reflexivity. }
    destruct Hhead as (r' & Hhead).
    rewrite Hhead in *. cbn [app] in *.
    rewrite skip_ws_newline_indent by assumption.
    now rewrite Hitems.
Qed.

Lemma skip_ws_indent (indent level : nat) (s : pystr) :
  skip_ws (newline_indent indent level ++ s) = skip_ws s.
Proof.
  unfold newline_indent. cbn [app skip_ws]. change (is_ws 10) with true. cbv iota.
  induction (indent * level)%nat as [|k IH]; cbn [repeat app skip_ws]; [reflexivity|].
  change (is_ws 32) with true. cbv iota. exact IH.
Qed.

Lemma skip_ws_encoded (indent level : nat) (v : pyvalue) (t : pystr) :
  python_value v = true ->
  skip_ws (iterencode indent level v ++ t) = iterencode indent level v ++ t.
Proof.
  intros Hv. destruct (iterencode_start indent level v Hv) as (c & r & -> & Hc & _).
  cbn [app]. now apply skip_ws_start.
Qed.

Lemma encode_pair_body (level : nat) (k : pystr) (x : pyvalue) (t : pystr) :
  encode_pair level (k, x) ++ t
  = 34 :: flat_map json_escape k ++ 34 :: 58 :: 32 :: iterencode 2 level x ++ t.
Proof.
  unfold encode_pair, encode_string. cbn [fst snd app].
  change (u ": ") with [58; 32]. now rewrite <- !app_assoc.
Qed.

(** The pairs of a non-empty dict, written by the encoder, are read
    back. *)
Lemma object_items_encoded (d : list (pystr * pyvalue)) : forall kv,
  Forall pair_ok (kv :: d) ->
  forall fuel level rest body,
    (fold_right (fun kv acc => S (Nat.max (fuel_for (snd kv)) acc)) 0%nat (kv :: d) <= fuel)%nat ->
    join (u "," ++ newline_indent 2 (S level)) (map (encode_pair (S level)) (kv :: d))
      ++ newline_indent 2 level ++ u "}" ++ rest = 34 :: body ->
    object_items fuel body = Parsed (kv :: d) rest.
Proof.
  induction d as [|kv' d IH]; intros [k x] Hok.
  - destruct (Forall_inv Hok) as (Hk & Hkp & Hpv & Hx). cbn [fst snd] in *.
    intros fuel level rest body Hfuel Hbody. cbn [fold_right snd] in Hfuel.
    destruct fuel as [|fuel]; [lia|].
    remember (newline_indent 2 level ++ u "}" ++ rest) as tail eqn:Etail.
    cbn [map join] in Hbody. rewrite encode_pair_body in Hbody.
    remember (iterencode 2 (S level) x ++ tail) as more eqn:Emore.
    injection Hbody as <-. subst more.
    cbn [object_items]. rewrite scanstring_escaped by assumption.
    rewrite skip_ws_start by reflexivity. change (58 =? 58) with true. cbv iota.
    cbn [skip_ws]. change (is_ws 32) with true. cbv iota.
    rewrite skip_ws_encoded by assumption. subst tail.
    rewrite Hx; [ | lia | apply delimited_newline_indent].
    change (u "}") with [125]. cbn [app].
    rewrite skip_ws_newline_indent by reflexivity.
    reflexivity.
  - destruct (Forall_inv Hok) as (Hk & Hkp & Hpv & Hx). cbn [fst snd] in *.
    destruct kv' as [k' x'].
    pose proof (IH (k', x') (Forall_inv_tail Hok)) as Hitems.
    intros fuel level rest body Hfuel Hbody.
    change (fold_right (fun kv acc => S (Nat.max (fuel_for (snd kv)) acc)) 0%nat
              ((k, x) :: (k', x') :: d))
      with (S (Nat.max (fuel_for x)
                 (fold_right (fun kv acc => S (Nat.max (fuel_for (snd kv)) acc)) 0%nat
                    ((k', x') :: d))))
      in Hfuel.
    destruct fuel as [|fuel]; [lia|].
    specialize (Hitems fuel level rest).
    cbn [map] in *. rewrite join_cons2 in Hbody.
    remember (u "," ++ newline_indent 2 (S level)) as sep eqn:Esep.
    remember (newline_indent 2 level ++ u "}" ++ rest) as tail eqn:Etail.
    assert (Hsep : forall t, sep ++ t = 44 :: newline_indent 2 (S level) ++ t).
    { intros t. subst sep. now rewrite <- app_assoc. }
    assert (Hhead : exists body',
      join sep (encode_pair (S level) (k', x') :: map (encode_pair (S level)) d) ++ tail
      = 34 :: body').
    { destruct d; cbn [map join]; rewrite <- ?app_assoc, encode_pair_body; eexists; reflexivity. }
    destruct Hhead as (body' & Hhead).
    rewrite <- !app_assoc, encode_pair_body, Hhead in Hbody.
    remember (iterencode 2 (S level) x ++ sep ++ 34 :: body') as more eqn:Emore.
    injection Hbody as <-. subst more.
    cbn [object_items]. rewrite scanstring_escaped by assumption.
    rewrite skip_ws_start by reflexivity. change (58 =? 58) with true. cbv iota.
    cbn [skip_ws]. change (is_ws 32) with true. cbv iota.
    rewrite skip_ws_encoded by assumption.
    rewrite Hsep.
    rewrite Hx; [ | lia | cbn; now left].
    rewrite skip_ws_start by reflexivity.
    change (44 =? 125) with false. change (44 =? 44) with true. cbv iota.
    rewrite skip_ws_indent.
    rewrite skip_ws_start by reflexivity.
    change (34 =? 34) with true. cbv iota.
    now rewrite (Hitems body' ltac:(lia) Hhead).
Qed.

(** The decoder reads back every value of the Python types without a
    split surrogate pair. *)
Lemma iterencode_reads_back (v : pyvalue) :
  python_value v = true -> no_split_surrogates v = true -> reads_back_value v.
Proof.
  induction v as [| b | n | x | s | l IH | d IH] using pyvalue_ind; intros Hpv Hns.
  - apply reads_back_scalar; [apply Nat.le_refl | reflexivity].
  - apply reads_back_scalar; [apply Nat.le_refl|].
    intros fuel level rest _. destruct b; reflexivity.
  - apply reads_back_scalar; [apply Nat.le_refl|].
    intros fuel level rest Hrest. now apply scan_once_int.
  - apply reads_back_scalar; [apply Nat.le_refl|].
    intros fuel level rest Hrest. now apply scan_once_float.
  - apply reads_back_scalar; [apply Nat.le_refl|]. intros fuel level rest Hrest.
    apply scan_once_string; [now apply forallb_is_codepoint | assumption].
  - destruct l as [|x l].
    + apply reads_back_scalar; [apply Nat.le_refl | reflexivity].
    + cbn [python_value no_split_surrogates] in Hpv, Hns.
      assert (Hall : Forall reads_back_value (x :: l)
                     /\ Forall (fun v => python_value v = true) (x :: l)).
      { rewrite forallb_forall in Hpv, Hns. rewrite Forall_forall in IH.
        split; apply Forall_forall; intros y Hy; auto. }
      destruct Hall as [Hrb Hpvs].
      pose proof (array_items_encoded l x Hrb Hpvs) as Hitems.
      intros fuel level rest Hfuel _.
      change (fuel_for (PyList (x :: l)))
        with (S (fold_right (fun x acc => S (Nat.max (fuel_for x) acc)) 0%nat (x :: l))) in Hfuel.
      destruct fuel as [|fuel]; [lia|].
      specialize (Hitems fuel level rest ltac:(lia)).
      remember (x :: l) as items eqn:Eitems.
      assert (Henc : iterencode 2 level (PyList items)
                     = 91 :: newline_indent 2 (S level)
                          ++ join (u "," ++ newline_indent 2 (S level))
                                  (map (iterencode 2 (S level)) items)
                          ++ newline_indent 2 level ++ u "]").
      { subst items. reflexivity. }
      rewrite Henc. clear Henc.
      remember (join (u "," ++ newline_indent 2 (S level)) (map (iterencode 2 (S level)) items)
                  ++ newline_indent 2 level ++ u "]" ++ rest) as text eqn:Etext.
      assert (Hstart : exists c r, text = c :: r /\ value_start c).
      { subst text items. cbn [map].
        destruct (iterencode_start 2 (S level) x (Forall_inv Hpvs)) as (c & r & Ex & Hc).
        destruct l; cbn [map join]; rewrite Ex; eexists; eexists; (split; [reflexivity | exact Hc]). }
      destruct Hstart as (c & r & Ec & Hws & H93).
      cbn [app]. rewrite <- !app_assoc, <- Etext.
      cbn [scan_once]. change (91 =? 34) with false. change (91 =? 123) with false.
      change (91 =? 91) with true. cbv iota.
      rewrite skip_ws_indent, Ec, skip_ws_start by assumption.
      destruct (Z.eqb_spec c 93); [contradiction|].
      rewrite <- Ec, Hitems. reflexivity.
  - destruct d as [|kv d].
    + apply reads_back_scalar; [apply Nat.le_refl | reflexivity].
    + cbn [python_value no_split_surrogates] in Hpv, Hns.
      apply andb_true_iff in Hpv. destruct Hpv as [Hdistinct Hpv].
      assert (Hok : Forall pair_ok (kv :: d)).
      { rewrite forallb_forall in Hpv, Hns. rewrite Forall_forall in IH.
        apply Forall_forall. intros y Hy.
        specialize (Hpv y Hy). specialize (Hns y Hy). specialize (IH y Hy).
        apply andb_true_iff in Hpv. apply andb_true_iff in Hns.
        destruct Hpv as [Hk Hv]. destruct Hns as [Hkp Hvp].
        repeat split; auto. now apply forallb_is_codepoint. }
      pose proof (object_items_encoded d kv Hok) as Hitems.
      intros fuel level rest Hfuel _.
      change (fuel_for (PyDict (kv :: d)))
        with (S (fold_right (fun kv acc => S (Nat.max (fuel_for (snd kv)) acc)) 0%nat (kv :: d)))
        in Hfuel.
      destruct fuel as [|fuel]; [lia|].
      specialize (Hitems fuel level rest).
      remember (kv :: d) as items eqn:Eitems.
      assert (Henc : iterencode 2 level (PyDict items)
                     = 123 :: newline_indent 2 (S level)
                           ++ join (u "," ++ newline_indent 2 (S level))
                                   (map (encode_pair (S level)) items)
                           ++ newline_indent 2 level ++ u "}").
      { subst items. reflexivity. }
      rewrite Henc. clear Henc.
      remember (join (u "," ++ newline_indent 2 (S level)) (map (encode_pair (S level)) items)
                  ++ newline_indent 2 level ++ u "}" ++ rest) as text eqn:Etext.
      assert (Hstart : exists body, text = 34 :: body).
      { subst text items. destruct kv as [k x]. cbn [map].
        destruct d; cbn [map join]; rewrite <- ?app_assoc, encode_pair_body; eexists; reflexivity. }
      destruct Hstart as (body & Ebody).
      cbn [app]. rewrite <- !app_assoc, <- Etext.
      cbn [scan_once]. change (123 =? 34) with false. change (123 =? 123) with true. cbv iota.
      rewrite skip_ws_indent, Ebody, skip_ws_start by reflexivity.
      change (34 =? 125) with false. change (34 =? 34) with true. cbv iota.
      rewrite (Hitems body ltac:(lia) Ebody).
      rewrite dict_of_pairs_distinct; [reflexivity | assumption].
Qed.

(** ** Fuel *)

Lemma length_join_fuel (A : Type) (sep : pystr) (enc : A -> pystr) (fuel : A -> nat)
    (l : list A) :
  (1 <= length sep)%nat ->
  Forall (fun x => (fuel x <= length (enc x))%nat) l ->
  (fold_right (fun x acc => S (Nat.max (fuel x) acc)) 0%nat l
   <= S (length (join sep (map enc l))))%nat.
Proof.
  intros Hsep Hl. induction Hl as [|x l Hx Hl IH]; [cbn; lia|].
  destruct l as [|y l].
  - cbn [fold_right map join]. lia.
  - change (map enc (x :: y :: l)) with (enc x :: enc y :: map enc l).
    rewrite join_cons2, !length_app.
    change (fold_right (fun x acc => S (Nat.max (fuel x) acc)) 0%nat (x :: y :: l))
      with (S (Nat.max (fuel x)
                 (fold_right (fun x acc => S (Nat.max (fuel x) acc)) 0%nat (y :: l)))).
    change (enc y :: map enc l) with (map enc (y :: l)). lia.
Qed.

(** The text of a value is at least as long as the fuel reading it
    takes. *)
Lemma fuel_for_length (v : pyvalue) : forall level,
  python_value v = true -> (fuel_for v <= length (iterencode 2 level v))%nat.
Proof.
  induction v as [| b | n | x | s | l IH | d IH] using pyvalue_ind; intros level Hpv;
    try (destruct (iterencode_start 2 level _ Hpv) as (c & r & -> & _); cbn; lia).
  - destruct l as [|x l]; [cbn; lia|].
    cbn [python_value] in Hpv. rewrite forallb_forall in Hpv. rewrite Forall_forall in IH.
    remember (x :: l) as items eqn:Eitems.
    assert (Henc : iterencode 2 level (PyList items)
                   = 91 :: newline_indent 2 (S level)
                        ++ join (u "," ++ newline_indent 2 (S level))
                                (map (iterencode 2 (S level)) items)
                        ++ newline_indent 2 level ++ u "]").
    { subst items. reflexivity. }
    rewrite Henc. cbn [fuel_for length]. rewrite !length_app.
    pose proof (length_join_fuel pyvalue (u "," ++ newline_indent 2 (S level))
                  (iterencode 2 (S level)) fuel_for items) as Hj.
    cbn [length app newline_indent] in *.
    assert (Hall : Forall (fun x => (fuel_for x <= length (iterencode 2 (S level) x))%nat) items).
    { apply Forall_forall. intros y Hy. apply IH; auto. }
    specialize (Hj ltac:(cbn; lia) Hall). cbn [length]. lia.
  - destruct d as [|kv d]; [cbn; lia|].
    cbn [python_value] in Hpv. apply andb_true_iff in Hpv. destruct Hpv as [_ Hpv].
    rewrite forallb_forall in Hpv. rewrite Forall_forall in IH.
    remember (kv :: d) as items eqn:Eitems.
    assert (Henc : iterencode 2 level (PyDict items)
                   = 123 :: newline_indent 2 (S level)
                         ++ join (u "," ++ newline_indent 2 (S level))
                                 (map (encode_pair (S level)) items)
                         ++ newline_indent 2 level ++ u "}").
    { subst items. reflexivity. }
    rewrite Henc. cbn [fuel_for length]. rewrite !length_app.
    pose proof (length_join_fuel (pystr * pyvalue) (u "," ++ newline_indent 2 (S level))
                  (encode_pair (S level)) (fun kv => fuel_for (snd kv)) items) as Hj.
    cbn [length app newline_indent] in *.
    assert (Hall : Forall (fun kv => (fuel_for (snd kv) <= length (encode_pair (S level) kv))%nat)
                          items).
    { apply Forall_forall. intros y Hy. specialize (Hpv y Hy).
      apply andb_true_iff in Hpv. destruct Hpv as [_ Hv].
      specialize (IH y Hy (S level) Hv).
      unfold encode_pair. rewrite !length_app. lia. }
    specialize (Hj ltac:(cbn; lia) Hall). cbn [length]. lia.
Qed.

(** ** [json.loads(json.dumps(v, indent=2)) == v] *)

Lemma json_loads_dumps (v : pyvalue) :
  python_value v = true -> no_split_surrogates v = true ->
  json_loads (json_dumps 2 v) = Some v.
Proof.
  intros Hpv Hns. unfold json_loads, json_dumps.
  pose proof (skip_ws_encoded 2 0 v [] Hpv) as Hskip. rewrite app_nil_r in Hskip.
  rewrite Hskip.
  pose proof (iterencode_reads_back v Hpv Hns
                (2 * length (iterencode 2 0 v) + 1)%nat 0%nat []) as Hread.
  rewrite app_nil_r in Hread. rewrite Hread; [reflexivity | | exact I].
  pose proof (fuel_for_length v 0%nat Hpv). lia.
Qed.

(** ** The fuel of the decoder is enough *)

Lemma skip_ws_length (s : pystr) : (length (skip_ws s) <= length s)%nat.
Proof.
  induction s as [|c s IH]; cbn [skip_ws length]; [lia|].
  destruct (is_ws c); cbn [length]; lia.
Qed.

Lemma strip_prefix_length (p s rest : pystr) :
  strip_prefix p s = Some rest -> (length rest + length p = length s)%nat.
Proof.
  revert s. induction p as [|a p IH]; intros s H.
  - cbn in H. injection H as ->. cbn. lia.
  - destruct s as [|c s]; cbn [strip_prefix] in H; [discriminate|].
    destruct (a =? c); [|discriminate]. apply IH in H. cbn [length]. lia.
Qed.

Lemma span_digits_length (s : pystr) :
  (length (snd (span_digits s)) <= length s)%nat.
Proof.
  induction s as [|c s IH]; cbn [span_digits]; [cbn; lia|].
  destruct (is_digit c); [|cbn; lia].
  destruct (span_digits s) as [ds rest]. cbn [snd length] in *. lia.
Qed.

Lemma match_integer_length (s ds rest : pystr) :
  match_integer s = Some (ds, rest) -> (length rest < length s)%nat.
Proof.
  unfold match_integer. destruct s as [|c r]; [discriminate|].
  destruct (c =? 48).
  - intros H. injection H as _ <-. cbn. lia.
  - destruct (is_digit c) eqn:Hc; [|discriminate].
    intros H. injection H as H.
    pose proof (span_digits_length r) as Hr.
    cbn [span_digits] in H. rewrite Hc in H.
    destruct (span_digits r) as [ds' rest']. injection H as _ <-.
    cbn [snd length] in *. lia.
Qed.

Lemma match_frac_length (s : pystr) : (length (snd (match_frac s)) <= length s)%nat.
Proof.
  unfold match_frac. destruct s as [|c r]; [cbn; lia|].
  destruct (c =? 46); [|cbn; lia].
  pose proof (span_digits_length r) as Hr.
  destruct (span_digits r) as [[|d ds] rest]; cbn [snd length] in *; lia.
Qed.

Lemma match_exp_length (s : pystr) : (length (snd (match_exp s)) <= length s)%nat.
Proof.
  unfold match_exp. destruct s as [|c r]; [cbn; lia|].
  destruct ((c =? 101) || (c =? 69)); [|cbn; lia].
  destruct r as [|sg r'].
  - cbn. lia.
  - pose proof (span_digits_length r') as Hr'.
    pose proof (span_digits_length (sg :: r')) as Hr.
    destruct (sg =? 45); [|destruct (sg =? 43)].
    + destruct (span_digits r') as [[|d ds] rest]; cbn [snd length] in *; lia.
    + destruct (span_digits r') as [[|d ds] rest]; cbn [snd length] in *; lia.
    + destruct (span_digits (sg :: r')) as [[|d ds] rest]; cbn [snd length] in *; lia.
Qed.

Lemma match_number_length (s : pystr) (nm : number_match) (rest : pystr) :
  match_number s = Some (nm, rest) -> (length rest < length s)%nat.
Proof.
  unfold match_number.
  set (start := match s with
                | [] => (false, s)
                | c :: r => if c =? 45 then (true, r) else (false, s)
                end).
  assert (Hstart : (length (snd start) <= length s)%nat).
  { unfold start. destruct s as [|c r]; [cbn; lia|]. destruct (c =? 45); cbn; lia. }
  destruct start as [neg s1]. cbn [snd] in Hstart.
  destruct (match_integer s1) as [[ds s2]|] eqn:Hint; [|discriminate].
  apply match_integer_length in Hint.
  pose proof (match_frac_length s2) as Hfrac.
  destruct (match_frac s2) as [frac s3]. cbn [snd] in Hfrac.
  pose proof (match_exp_length s3) as Hexp.
  destruct (match_exp s3) as [ex s4]. cbn [snd] in Hexp.
  intros H. injection H as _ <-. lia.
Qed.

Lemma scanstring_length (n : nat) : forall s str rest,
  (length s <= n)%nat -> scanstring s = Some (str, rest) -> (length rest < length s)%nat.
Proof.
  induction n as [|n IH]; intros s str rest Hn H.
  - destruct s; [discriminate | cbn in Hn; lia].
  - assert (Hrec : forall t c' res, (length t < length s)%nat ->
              match scanstring t with
              | Some (str0, rest0) => Some (c' :: str0, rest0)
              | None => None
              end = Some res -> (length (snd res) < length s)%nat).
    { intros t c' [str0 rest0] Ht Hres.
      destruct (scanstring t) as [[str1 rest1]|] eqn:Et; [|discriminate].
      injection Hres as _ <-. apply IH in Et; [cbn [snd]; lia | lia]. }
    destruct s as [|c r]; [discriminate|]. cbn [scanstring] in H. cbn [length] in *.
    destruct (c =? 34); [injection H as _ <-; lia|].
    destruct (c =? 92).
    + destruct r as [|esc r1]; [discriminate|]. cbn [length] in *.
      destruct (esc =? 117).
      * destruct r1 as [|h1 [|h2 [|h3 [|h4 r2]]]]; try discriminate. cbn [length] in *.
        destruct (hex4_value h1 h2 h3 h4) as [uni|]; [|discriminate].
        destruct (is_high_surrogate uni).
        -- destruct r2 as [|b [|c2 r3]];
             try (apply Hrec in H; [exact H | cbn [length]; lia]).
           destruct ((b =? 92) && (c2 =? 117)).
           ++ destruct r3 as [|g1 [|g2 [|g3 [|g4 r4]]]]; try discriminate.
              destruct (hex4_value g1 g2 g3 g4) as [uni2|]; [|discriminate].
              destruct (is_low_surrogate uni2);
                (apply Hrec in H; [exact H | cbn [length]; lia]).
           ++ apply Hrec in H; [exact H | cbn [length]; lia].
        -- apply Hrec in H; [exact H | cbn [length]; lia].
      * destruct (unescape esc) as [ch|]; [|discriminate].
        apply Hrec in H; [exact H | cbn [length]; lia].
    + destruct (c <? 32); [discriminate|].
      apply Hrec in H; [exact H | cbn [length]; lia].
Qed.

Lemma consumes_map {A B : Type} (s : pystr) (r : parse A) (f : A -> B) (t : pystr) :
  consumes t r -> (length t <= length s)%nat ->
  consumes s match r with
             | Parsed a rest => Parsed (f a) rest
             | Malformed => Malformed
             | OutOfFuel => OutOfFuel
             end.
Proof. destruct r; cbn; lia. Qed.

Lemma scan_once_leaf (s : pystr) :
  s <> [] ->
  consumes s
    match strip_prefix (u "null") s, strip_prefix (u "true") s, strip_prefix (u "false") s with
    | Some rest, _, _ => Parsed PyNone rest
    | _, Some rest, _ => Parsed (PyBool true) rest
    | _, _, Some rest => Parsed (PyBool false) rest
    | None, None, None =>
      match match_number s with
      | Some (m, rest) => Parsed (number_value m) rest
      | None =>
        match strip_prefix (u "NaN") s, strip_prefix (u "Infinity") s,
              strip_prefix (u "-Infinity") s with
        | Some rest, _, _ => Parsed (PyFloat S754_nan) rest
        | _, Some rest, _ => Parsed (PyFloat (S754_infinity false)) rest
        | _, _, Some rest => Parsed (PyFloat (S754_infinity true)) rest
        | None, None, None => Malformed
        end
      end
    end.
Proof.
  intros Hs.
  assert (Hp : forall p rest, Nat.ltb 0 (length p) = true -> strip_prefix p s = Some rest ->
                              (length rest < length s)%nat).
  { intros p rest Hne H. apply strip_prefix_length in H. apply Nat.ltb_lt in Hne. lia. }
  destruct (strip_prefix (u "null") s) eqn:E1; [apply (Hp (u "null") _ eq_refl E1)|].
  destruct (strip_prefix (u "true") s) eqn:E2; [apply (Hp (u "true") _ eq_refl E2)|].
  destruct (strip_prefix (u "false") s) eqn:E3; [apply (Hp (u "false") _ eq_refl E3)|].
  destruct (match_number s) as [[m rest]|] eqn:E4; [apply (match_number_length _ _ _ E4)|].
  destruct (strip_prefix (u "NaN") s) eqn:E5; [apply (Hp (u "NaN") _ eq_refl E5)|].
  destruct (strip_prefix (u "Infinity") s) eqn:E6; [apply (Hp (u "Infinity") _ eq_refl E6)|].
  destruct (strip_prefix (u "-Infinity") s) eqn:E7; [apply (Hp (u "-Infinity") _ eq_refl E7)|].
  exact I.
Qed.

(** With fuel for two steps per character the decoder never stops for
    lack of fuel. *)
Lemma decoder_fuel (fuel : nat) :
  (forall s, (2 * length s + 1 <= fuel)%nat -> consumes s (scan_once fuel s)) /\
  (forall s, (2 * length s + 2 <= fuel)%nat -> consumes s (array_items fuel s)) /\
  (forall s, (2 * length s + 2 <= fuel)%nat -> consumes s (object_items fuel s)).
Proof.
  induction fuel as [|fuel (IHscan & IHarray & IHobject)].
  - repeat split; intros s Hs; lia.
  - split; [|split]; intros s Hs.
    + (* scan_once *)
      cbn [scan_once]. destruct s as [|c r]; [exact I|]. cbn [length] in Hs.
      destruct (c =? 34).
      { destruct (scanstring r) as [[str rest]|] eqn:E; [|exact I].
        apply (scanstring_length (length r)) in E; [cbn [consumes length]; lia | lia]. }
      destruct (c =? 123).
      { pose proof (skip_ws_length r) as Hw.
        destruct (skip_ws r) as [|c1 r1]; [exact I|]. cbn [length] in Hw.
        destruct (c1 =? 125); [cbn [consumes length]; lia|].
        destruct (c1 =? 34); [|exact I].
        apply (consumes_map (c :: r) (object_items fuel r1) (fun pairs => PyDict (dict_of_pairs pairs)) r1).
        - apply IHobject. lia.
        - cbn [length]. lia. }
      destruct (c =? 91).
      { pose proof (skip_ws_length r) as Hw.
        destruct (skip_ws r) as [|c1 r1]; [exact I|]. cbn [length] in Hw.
        destruct (c1 =? 93); [cbn [consumes length]; lia|].
        apply (consumes_map (c :: r) (array_items fuel (c1 :: r1)) PyList (c1 :: r1)).
        - apply IHarray. cbn [length]. lia.
        - cbn [length]. lia. }
      apply scan_once_leaf. discriminate.
    + (* array_items *)
      cbn [array_items].
      pose proof (IHscan s ltac:(lia)) as Hv.
      destruct (scan_once fuel s) as [v rest | |]; [|exact I | contradiction].
      cbn [consumes] in Hv.
      pose proof (skip_ws_length rest) as Hw.
      destruct (skip_ws rest) as [|c r]; [exact I|]. cbn [length] in Hw.
      destruct (c =? 93); [cbn [consumes]; lia|].
      destruct (c =? 44); [|exact I].
      pose proof (skip_ws_length r) as Hw'.
      apply (consumes_map s (array_items fuel (skip_ws r)) (cons v) (skip_ws r)).
      * apply IHarray. lia.
      * lia.
    + (* object_items *)
      cbn [object_items].
      destruct (scanstring s) as [[key rest]|] eqn:Ekey; [|exact I].
      apply (scanstring_length (length s)) in Ekey; [|lia].
      pose proof (skip_ws_length rest) as Hw.
      destruct (skip_ws rest) as [|c r]; [exact I|]. cbn [length] in Hw.
      destruct (c =? 58); [|exact I].
      pose proof (skip_ws_length r) as Hw1.
      pose proof (IHscan (skip_ws r) ltac:(lia)) as Hv.
      destruct (scan_once fuel (skip_ws r)) as [v rest1 | |]; [|exact I | contradiction].
      cbn [consumes] in Hv.
      pose proof (skip_ws_length rest1) as Hw2.
      destruct (skip_ws rest1) as [|c1 r1]; [exact I|]. cbn [length] in Hw2.
      destruct (c1 =? 125); [cbn [consumes]; lia|].
      destruct (c1 =? 44); [|exact I].
      pose proof (skip_ws_length r1) as Hw3.
      destruct (skip_ws r1) as [|c2 r2]; [exact I|]. cbn [length] in Hw3.
      destruct (c2 =? 34); [|exact I].
      apply (consumes_map s (object_items fuel r2) (cons (key, v)) r2).
      * apply IHobject. lia.
      * lia.
Qed.

(** [json_loads] never fails for lack of fuel: [None] is a document the
    decoder rejects. *)
Lemma json_loads_fuel (s : pystr) :
  scan_once (2 * length s + 1) (skip_ws s) <> OutOfFuel.
Proof.
  pose proof (skip_ws_length s) as Hw.
  destruct (decoder_fuel (2 * length s + 1)) as (Hscan & _).
  specialize (Hscan (skip_ws s) ltac:(lia)).
  intros E. rewrite E in Hscan. exact Hscan.
Qed.

(** ** The forecast formatter *)

Section ForecastProperties.

Variable isprintable : codepoint -> bool.
Variable client_get : pystr -> list (pystr * pystr) -> spec_float -> py response.
Variable is_error_status : Z -> bool.

Local Abbreviation fetch := (make_openmeteo_request client_get is_error_status).
Local Abbreviation fmt := (py_format isprintable).

Lemma getitem_int_list (l : list pyvalue) (i : nat) :
  (i < length l)%nat ->
  getitem_int (PyList l) (Z.of_nat i) = Return (nth i l PyNone).
Proof.
  intros Hi. unfold getitem_int.
  destruct (Z.of_nat i <? 0) eqn:Hneg; [apply Z.ltb_lt in Hneg; lia|].
  replace ((0 <=? Z.of_nat i) && (Z.of_nat i <? Z.of_nat (length l))) with true.
  - now rewrite Nat2Z.id.
  - symmetry. apply andb_true_iff. split; [apply Z.leb_le | apply Z.ltb_lt]; lia.
Qed.

Lemma getitem_int_list_short (l : list pyvalue) (i : nat) :
  (length l <= i)%nat ->
  getitem_int (PyList l) (Z.of_nat i) = Raise IndexError.
Proof.
  intros Hi. unfold getitem_int.
  destruct (Z.of_nat i <? 0) eqn:Hneg; [apply Z.ltb_lt in Hneg; lia|].
  replace (Z.of_nat i <? Z.of_nat (length l)) with false.
  - now rewrite andb_false_r.
  - symmetry. apply Z.ltb_ge. lia.
Qed.

Lemma forecast_entry_columns (daily : pyvalue) (c : daily_columns) (i : nat) :
  has_columns daily c -> columns_cover c -> (i < length (col_time c))%nat ->
  forecast_entry isprintable daily (Z.of_nat i) = Return (block_of isprintable c i).
Proof.
  intros (Ht & Hmax & Hmin & Hp & Hw) (Lmax & Lmin & Lp & Lw) Hi.
  unfold forecast_entry, daily_at.
  rewrite Ht, Hmax, Hmin, Hp, Hw. cbn [bind].
  rewrite !getitem_int_list by lia. cbn [bind].
  unfold block_of, forecast_lines, join.
  repeat rewrite <- app_assoc. reflexivity.
Qed.

Lemma forecast_entries_columns (daily : pyvalue) (c : daily_columns) (k a : nat) :
  has_columns daily c -> columns_cover c -> (a + k <= length (col_time c))%nat ->
  forecast_entries isprintable daily (map Z.of_nat (seq a k))
  = Return (map (block_of isprintable c) (seq a k)).
Proof.
  intros Hc Hl. revert a. induction k as [|k IH]; intros a Ha; [reflexivity|].
  cbn [seq map forecast_entries].
  rewrite (forecast_entry_columns daily c a Hc Hl) by lia. cbn [bind].
  rewrite IH by lia. reflexivity.
Qed.

Lemma format_forecast_columns (data daily : pyvalue) (c : daily_columns) :
  getitem_str data (u "daily") = Return daily ->
  has_columns daily c -> columns_cover c ->
  format_forecast isprintable data
  = Return (join (nl ++ u "---" ++ nl) (map (block_of isprintable c) (seq 0 (length (col_time c))))).
Proof.
  intros Hd Hc Hl. unfold format_forecast.
  rewrite Hd. cbn [bind].
  destruct Hc as (Ht & Hrest). rewrite Ht. cbn [bind py_len].
  unfold range. rewrite Nat2Z.id.
  rewrite (forecast_entries_columns daily c (length (col_time c)) 0);
    [reflexivity | now split | assumption | lia].
Qed.

(** A value under a key makes a dict non-empty, hence truthy. *)
Lemma getitem_str_truthy (data : pyvalue) (k : pystr) (v : pyvalue) :
  getitem_str data k = Return v -> truthy data = true.
Proof.
  destruct data; cbn; try discriminate.
  destruct items; cbn; [discriminate | reflexivity].
Qed.

Lemma get_forecast_fetched (latitude longitude : spec_float) (data : pyvalue) :
  fetch (forecast_url latitude longitude) = Return data ->
  get_forecast isprintable client_get is_error_status latitude longitude
  = if negb (truthy data) then Return (u "Unable to fetch forecast data for this location.")
    else format_forecast isprintable data.
Proof.
  intros H. unfold get_forecast. rewrite H. reflexivity.
Qed.

Lemma get_current_weather_fetched (latitude longitude : spec_float) (data : pyvalue) :
  fetch (current_weather_url latitude longitude) = Return data ->
  get_current_weather client_get is_error_status latitude longitude
  = if negb (truthy data) then
      Return (u "Unable to fetch current weather data for this location.")
    else Return (json_dumps 2 data).
Proof.
  intros H. unfold get_current_weather. rewrite H. reflexivity.
Qed.

(** C1: for a fetched payload whose [daily] object holds five parallel
    lists of one length, [get_forecast] returns [len(daily.time)] blocks
    joined by ["\n---\n"]; block [i] is the five lines [Date],
    [Max Temperature], [Min Temperature], [Precipitation] and
    [Weather Code] with the values of index [i] (between the line break
    that opens and the one that closes the f-string). *)
Theorem get_forecast_blocks (latitude longitude : spec_float)
    (data daily : pyvalue) (c : daily_columns) :
  fetch (forecast_url latitude longitude) = Return data ->
  getitem_str data (u "daily") = Return daily ->
  has_columns daily c ->
  same_length c ->
  exists blocks : list pystr,
    get_forecast isprintable client_get is_error_status latitude longitude
    = Return (join (nl ++ u "---" ++ nl) blocks) /\
    length blocks = length (col_time c) /\
    forall i, (i < length (col_time c))%nat ->
      nth i blocks [] =
      nl ++ join nl (forecast_lines (fmt (nth i (col_time c) PyNone))
                                    (fmt (nth i (col_tmax c) PyNone))
                                    (fmt (nth i (col_tmin c) PyNone))
                                    (fmt (nth i (col_precipitation c) PyNone))
                                    (fmt (nth i (col_weathercode c) PyNone))) ++ nl.
Proof.
  intros Hfetch Hdaily Hcols (Lmax & Lmin & Lp & Lw).
  exists (map (block_of isprintable c) (seq 0 (length (col_time c)))).
  split; [|split].
  - rewrite (get_forecast_fetched _ _ _ Hfetch).
    rewrite (getitem_str_truthy _ _ _ Hdaily). cbn [negb].
    apply (format_forecast_columns data daily c Hdaily Hcols).
    unfold columns_cover. rewrite Lmax, Lmin, Lp, Lw. auto.
  - now rewrite length_map, length_seq.
  - intros i Hi.
    rewrite (nth_indep _ [] (block_of isprintable c 0)) by now rewrite length_map, length_seq.
    rewrite map_nth, seq_nth by assumption. reflexivity.
Qed.

End ForecastProperties.

Section FetcherProperties.

Variable isprintable : codepoint -> bool.
Variable client_get : pystr -> list (pystr * pystr) -> spec_float -> py response.
Variable is_error_status : Z -> bool.

Local Abbreviation fetch := (make_openmeteo_request client_get is_error_status).

(** C2: [make_openmeteo_request] returns for every URL and never raises:
    [None] when the GET raises (network error, timeout), when the status
    is an error status, and when the body is not JSON; the parsed
    document otherwise. *)
Theorem make_openmeteo_request_absorbs_failures (url : pystr) :
  exists v : pyvalue,
    fetch url = Return v /\
    match client_get url [(u "User-Agent", USER_AGENT); (u "Accept", u "application/json")]
            timeout_seconds with
    | Raise _ => v = PyNone
    | Return r =>
      if is_error_status (status_code r) then v = PyNone
      else match json_loads (content r) with
           | None => v = PyNone
           | Some document => v = document
           end
    end.
Proof.
  unfold make_openmeteo_request.
  destruct (client_get url _ timeout_seconds) as [r | e]; cbn [bind try_except].
  - unfold raise_for_status, response_json.
    destruct (is_error_status (status_code r)); cbn [bind try_except].
    + exists PyNone. split; reflexivity.
    + destruct (json_loads (content r)) as [document |]; cbn [try_except].
      * exists document. split; reflexivity.
      * exists PyNone. split; reflexivity.
  - exists PyNone. split; reflexivity.
Qed.

(** The [try] block turns every exception into [None]. *)
Lemma try_except_returns (A : Type) (body : py A) (a : A) :
  exists r, try_except body (Return a) = Return r.
Proof.
  destruct body as [r | e]; [exists r | exists a]; reflexivity.
Qed.

Lemma fetch_returns (url : pystr) : exists v, fetch url = Return v.
Proof.
  unfold make_openmeteo_request. apply try_except_returns.
Qed.

End FetcherProperties.

(** ** The two tools *)

Section ToolProperties.

Variable isprintable : codepoint -> bool.
Variable client_get : pystr -> list (pystr * pystr) -> spec_float -> py response.
Variable is_error_status : Z -> bool.

Local Abbreviation fetch := (make_openmeteo_request client_get is_error_status).
Local Abbreviation forecast := (get_forecast isprintable client_get is_error_status).
Local Abbreviation current_weather := (get_current_weather client_get is_error_status).

Lemma get_forecast_falsy (latitude longitude : spec_float) (data : pyvalue) :
  fetch (forecast_url latitude longitude) = Return data ->
  truthy data = false ->
  forecast latitude longitude = Return forecast_fallback.
Proof.
  intros Hfetch Hfalsy.
  rewrite (get_forecast_fetched _ _ _ _ _ _ Hfetch), Hfalsy. cbn [negb]. reflexivity.
Qed.

Lemma get_current_weather_falsy (latitude longitude : spec_float) (data : pyvalue) :
  fetch (current_weather_url latitude longitude) = Return data ->
  truthy data = false ->
  current_weather latitude longitude = Return current_weather_fallback.
Proof.
  intros Hfetch Hfalsy.
  rewrite (get_current_weather_fetched _ _ _ _ _ Hfetch), Hfalsy. cbn [negb]. reflexivity.
Qed.

(** C3: when the fetcher returns [None], [get_forecast] returns exactly
    "Unable to fetch forecast data for this location." and
    [get_current_weather] returns exactly "Unable to fetch current
    weather data for this location.". *)
Theorem absence_gives_fallback (latitude longitude : spec_float) :
  (fetch (forecast_url latitude longitude) = Return PyNone ->
   forecast latitude longitude
   = Return (u "Unable to fetch forecast data for this location.")) /\
  (fetch (current_weather_url latitude longitude) = Return PyNone ->
   current_weather latitude longitude
   = Return (u "Unable to fetch current weather data for this location.")).
Proof.
  split; intros Hfetch.
  - now apply (get_forecast_falsy latitude longitude PyNone).
  - now apply (get_current_weather_falsy latitude longitude PyNone).
Qed.

(** C8: when the fetcher returns the parsed empty object [{}], both
    tools return their fetch-failure fallback string, as after a network
    failure. *)
Theorem empty_object_gives_fallback (latitude longitude : spec_float) :
  (fetch (forecast_url latitude longitude) = Return (PyDict []) ->
   forecast latitude longitude = Return forecast_fallback) /\
  (fetch (current_weather_url latitude longitude) = Return (PyDict []) ->
   current_weather latitude longitude = Return current_weather_fallback).
Proof.
  split; intros Hfetch.
  - now apply (get_forecast_falsy latitude longitude (PyDict [])).
  - now apply (get_current_weather_falsy latitude longitude (PyDict [])).
Qed.

(** C9: for a fetched payload whose [daily.time] is empty, [get_forecast]
    returns the empty string. *)
Theorem get_forecast_no_days (latitude longitude : spec_float)
    (data daily time : pyvalue) :
  fetch (forecast_url latitude longitude) = Return data ->
  getitem_str data (u "daily") = Return daily ->
  getitem_str daily (u "time") = Return time ->
  py_len time = Return 0 ->
  forecast latitude longitude = Return [].
Proof.
  intros Hfetch Hdaily Htime Hlen.
  rewrite (get_forecast_fetched _ _ _ _ _ _ Hfetch).
  rewrite (getitem_str_truthy _ _ _ Hdaily). cbn [negb].
  unfold format_forecast. rewrite Hdaily. cbn [bind].
  rewrite Htime. cbn [bind]. rewrite Hlen. reflexivity.
Qed.

(** Formatting reads the payload through its [daily] key only. *)
Lemma format_forecast_reads_daily (data1 data2 daily : pyvalue) :
  getitem_str data1 (u "daily") = Return daily ->
  getitem_str data2 (u "daily") = Return daily ->
  format_forecast isprintable data1 = format_forecast isprintable data2.
Proof.
  intros H1 H2. unfold format_forecast. now rewrite H1, H2.
Qed.

Lemma get_forecast_shaped (latitude longitude : spec_float) (data : pyvalue) :
  fetch (forecast_url latitude longitude) = Return data ->
  forecast_shaped data ->
  exists text, forecast latitude longitude = Return text.
Proof.
  intros Hfetch (daily & c & Hdaily & Hcols & Hcover).
  rewrite (get_forecast_fetched _ _ _ _ _ _ Hfetch).
  rewrite (getitem_str_truthy _ _ _ Hdaily). cbn [negb].
  rewrite (format_forecast_columns isprintable data daily c Hdaily Hcols Hcover).
  eexists. reflexivity.
Qed.

(** A payload without a [daily] key: the [KeyError] of line 72 leaves
    [get_forecast]. *)
Lemma get_forecast_missing_daily (latitude longitude : spec_float)
    (items : list (pystr * pyvalue)) :
  fetch (forecast_url latitude longitude) = Return (PyDict items) ->
  items <> [] ->
  dict_get (u "daily") items = None ->
  forecast latitude longitude = Raise KeyError.
Proof.
  intros Hfetch Hne Hmissing.
  rewrite (get_forecast_fetched _ _ _ _ _ _ Hfetch).
  destruct items as [|kv items]; [contradiction|].
  cbn [truthy length Nat.eqb negb]. unfold format_forecast, getitem_str.
  rewrite Hmissing. reflexivity.
Qed.

End ToolProperties.

(** C10: the forecast text depends on the payload through its [daily]
    field only: two fetched payloads with equal [daily] objects give equal
    results of [get_forecast], whatever else they hold, whichever network
    and coordinates they came from. *)
Theorem get_forecast_depends_on_daily_only
    (isprintable : codepoint -> bool)
    (client_get1 client_get2 : pystr -> list (pystr * pystr) -> spec_float -> py response)
    (is_error_status1 is_error_status2 : Z -> bool)
    (latitude1 longitude1 latitude2 longitude2 : spec_float)
    (data1 data2 daily : pyvalue) :
  make_openmeteo_request client_get1 is_error_status1 (forecast_url latitude1 longitude1)
  = Return data1 ->
  make_openmeteo_request client_get2 is_error_status2 (forecast_url latitude2 longitude2)
  = Return data2 ->
  getitem_str data1 (u "daily") = Return daily ->
  getitem_str data2 (u "daily") = Return daily ->
  get_forecast isprintable client_get1 is_error_status1 latitude1 longitude1
  = get_forecast isprintable client_get2 is_error_status2 latitude2 longitude2.
Proof.
  intros Hfetch1 Hfetch2 Hdaily1 Hdaily2.
  rewrite (get_forecast_fetched _ _ _ _ _ _ Hfetch1).
  rewrite (get_forecast_fetched _ _ _ _ _ _ Hfetch2).
  rewrite (getitem_str_truthy _ _ _ Hdaily1), (getitem_str_truthy _ _ _ Hdaily2).
  cbn [negb]. now apply format_forecast_reads_daily with daily.
Qed.

(** ** The properties at sample inputs *)

Lemma sample_fetch :
  make_openmeteo_request sample_server not_2xx (forecast_url berlin_latitude berlin_longitude)
  = Return sample_forecast.
Proof. vm_compute. reflexivity. Qed.

Lemma sample_has_columns : has_columns sample_daily sample_columns.
Proof. repeat split. Qed.

Lemma get_forecast_blocks_witness :
  exists blocks : list pystr,
    get_forecast printable_latin1 sample_server not_2xx berlin_latitude berlin_longitude
    = Return (join (nl ++ u "---" ++ nl) blocks) /\
    length blocks = length (col_time sample_columns) /\
    forall i, (i < length (col_time sample_columns))%nat ->
      nth i blocks [] =
      nl ++ join nl (forecast_lines
                       (py_format printable_latin1 (nth i (col_time sample_columns) PyNone))
                       (py_format printable_latin1 (nth i (col_tmax sample_columns) PyNone))
                       (py_format printable_latin1 (nth i (col_tmin sample_columns) PyNone))
                       (py_format printable_latin1 (nth i (col_precipitation sample_columns) PyNone))
                       (py_format printable_latin1 (nth i (col_weathercode sample_columns) PyNone)))
         ++ nl.
Proof.
  apply (get_forecast_blocks printable_latin1 sample_server not_2xx
           berlin_latitude berlin_longitude sample_forecast sample_daily sample_columns).
  - exact sample_fetch.
  - reflexivity.
  - exact sample_has_columns.
  - repeat split.
Defined.

Lemma absence_gives_fallback_witness :
  get_forecast printable_latin1 offline not_2xx berlin_latitude berlin_longitude
  = Return (u "Unable to fetch forecast data for this location.") /\
  get_current_weather offline not_2xx berlin_latitude berlin_longitude
  = Return (u "Unable to fetch current weather data for this location.").
Proof.
  destruct (absence_gives_fallback printable_latin1 offline not_2xx
              berlin_latitude berlin_longitude) as [Hforecast Hcurrent].
  split; [apply Hforecast | apply Hcurrent]; reflexivity.
Defined.

Lemma empty_object_gives_fallback_witness :
  get_forecast printable_latin1 (answering 200 (u "{}")) not_2xx
    berlin_latitude berlin_longitude = Return forecast_fallback /\
  get_current_weather (answering 200 (u "{}")) not_2xx
    berlin_latitude berlin_longitude = Return current_weather_fallback.
Proof.
  destruct (empty_object_gives_fallback printable_latin1 (answering 200 (u "{}")) not_2xx
              berlin_latitude berlin_longitude) as [Hforecast Hcurrent].
  split; [apply Hforecast | apply Hcurrent]; vm_compute; reflexivity.
Defined.

Lemma get_forecast_no_days_witness :
  get_forecast printable_latin1 (answering 200 (json_dumps 2 sample_no_days)) not_2xx
    berlin_latitude berlin_longitude = Return [].
Proof.
  apply (get_forecast_no_days printable_latin1 (answering 200 (json_dumps 2 sample_no_days))
           not_2xx berlin_latitude berlin_longitude
           sample_no_days (PyDict [(u "time", PyList [])]) (PyList [])).
  - vm_compute. reflexivity.
  - reflexivity.
  - reflexivity.
  - reflexivity.
Defined.

Lemma get_forecast_depends_on_daily_only_witness :
  get_forecast printable_latin1 sample_server not_2xx berlin_latitude berlin_longitude
  = get_forecast printable_latin1 (answering 200 (json_dumps 2 sample_forecast_bare)) not_2xx
      berlin_longitude berlin_latitude.
Proof.
  apply (get_forecast_depends_on_daily_only printable_latin1
           sample_server (answering 200 (json_dumps 2 sample_forecast_bare)) not_2xx not_2xx
           berlin_latitude berlin_longitude berlin_longitude berlin_latitude
           sample_forecast sample_forecast_bare sample_daily).
  - exact sample_fetch.
  - vm_compute. reflexivity.
  - reflexivity.
  - reflexivity.
Defined.

Lemma sample_is_forecast_shaped : forecast_shaped sample_forecast.
Proof.
  exists sample_daily, sample_columns. split; [reflexivity|].
  split; [exact sample_has_columns|]. repeat split; apply Nat.le_refl.
Qed.

(** C4, as stated, fails: a payload without a [daily] key (the error
    document of the upstream API) makes [get_forecast] raise [KeyError]
    to its caller. *)
Lemma get_forecast_raises_on_missing_daily :
  ~ (forall isprintable client_get is_error_status latitude longitude,
       exists text,
         get_forecast isprintable client_get is_error_status latitude longitude = Return text).
Proof.
  intros Hnever.
  destruct (Hnever printable_latin1 (answering 200 (json_dumps 2 sample_no_daily)) not_2xx
              berlin_latitude berlin_longitude) as (text & Htext).
  rewrite (get_forecast_missing_daily printable_latin1
             (answering 200 (json_dumps 2 sample_no_daily)) not_2xx
             berlin_latitude berlin_longitude
             [ (u "error", PyBool true);
               (u "reason", PyStr (u "Latitude must be in range of -90 to 90")) ]) in Htext.
  - discriminate Htext.
  - vm_compute. reflexivity.
  - discriminate.
  - reflexivity.
Qed.

(** ** The request URLs *)

Lemma berlin_latitude_repr : float_repr berlin_latitude = u "52.52".
Proof. vm_compute. reflexivity. Qed.

Lemma berlin_longitude_repr : float_repr berlin_longitude = u "13.41".
Proof. vm_compute. reflexivity. Qed.

(** C6: for latitude 52.52 and longitude 13.41 the URL [get_forecast]
    builds, and requests, is exactly the one of the spec. *)
Theorem forecast_url_berlin :
  forecast_url berlin_latitude berlin_longitude
  = u "https://api.open-meteo.com/v1/forecast?latitude=52.52&longitude=13.41&hourly=temperature_2m,precipitation,weathercode&daily=temperature_2m_max,temperature_2m_min,precipitation_sum,weathercode&timezone=auto"
  /\
  forall isprintable client_get is_error_status,
    get_forecast isprintable client_get is_error_status berlin_latitude berlin_longitude
    = (data <- make_openmeteo_request client_get is_error_status
                 (u "https://api.open-meteo.com/v1/forecast?latitude=52.52&longitude=13.41&hourly=temperature_2m,precipitation,weathercode&daily=temperature_2m_max,temperature_2m_min,precipitation_sum,weathercode&timezone=auto") ;;
       if negb (truthy data) then Return forecast_fallback
       else format_forecast isprintable data).
Proof.
  assert (Hurl : forecast_url berlin_latitude berlin_longitude
                 = u "https://api.open-meteo.com/v1/forecast?latitude=52.52&longitude=13.41&hourly=temperature_2m,precipitation,weathercode&daily=temperature_2m_max,temperature_2m_min,precipitation_sum,weathercode&timezone=auto").
  { unfold forecast_url. rewrite berlin_latitude_repr, berlin_longitude_repr.
    vm_compute. reflexivity. }
  split; [exact Hurl|].
  intros isprintable client_get is_error_status.
  unfold get_forecast. rewrite Hurl. reflexivity.
Qed.

Lemma count_char_app (c : codepoint) (a b : pystr) :
  count_char c (a ++ b) = (count_char c a + count_char c b)%nat.
Proof.
  unfold count_char. now rewrite filter_app, length_app.
Qed.

Lemma count_char_free (s : pystr) : comma_free s -> count_char 44 s = 0%nat.
Proof.
  unfold comma_free, count_char, mem_char.
  induction s as [|c s IH]; cbn [existsb filter]; [reflexivity|].
  intros H. apply orb_false_iff in H. destruct H as [Hc Hs].
  rewrite Hc. now apply IH.
Qed.

(** Joining [n] comma-free names takes [n - 1] commas. *)
Lemma count_commas_join (vars : list pystr) :
  Forall comma_free vars -> vars <> [] ->
  S (count_char 44 (join (u ",") vars)) = length vars.
Proof.
  induction 1 as [|v vars Hv Hvars IH]; intros Hne; [contradiction|].
  destruct vars as [|w vars].
  - cbn [join length]. now rewrite count_char_free.
  - change (join (u ",") (v :: w :: vars)) with (v ++ u "," ++ join (u ",") (w :: vars)).
    rewrite !count_char_app, (count_char_free v Hv).
    change (count_char 44 (u ",")) with 1%nat.
    cbn [length plus]. f_equal. apply IH. discriminate.
Qed.

(** C7 (amended): for every latitude and longitude the URL of
    [get_current_weather] interpolates the two coordinates and asks, in
    its [current] parameter, for a fixed list of exactly fifteen
    variables. *)
Theorem current_weather_url_fifteen_variables :
  current_url_requests CURRENT_VARIABLES /\ length CURRENT_VARIABLES = 15%nat.
Proof.
  split; [split|].
  - unfold CURRENT_VARIABLES.
    repeat (apply Forall_cons; [vm_compute; reflexivity|]). apply Forall_nil.
  - intros latitude longitude. unfold current_weather_url.
    do 5 (apply f_equal2; [reflexivity|]).
    vm_compute. reflexivity.
  - reflexivity.
Qed.

(** C7, as stated, fails: no list of fourteen variables is the [current]
    parameter of the URL. *)
Lemma current_weather_url_not_fourteen :
  ~ (exists vars : list pystr, current_url_requests vars /\ length vars = 14%nat).
Proof.
  intros (vars & (Hfree & Hurl) & Hlen).
  specialize (Hurl berlin_latitude berlin_longitude).
  unfold current_weather_url in Hurl.
  do 5 apply app_inv_head in Hurl.
  assert (Hcount : S (count_char 44 (join (u ",") vars)) = 14%nat).
  { rewrite <- Hlen. apply count_commas_join; [assumption|].
    intros ->. discriminate Hlen. }
  assert (Hcommas : count_char 44 (u "&current=" ++ join (u ",") vars) = 14%nat).
  { rewrite <- Hurl. vm_compute. reflexivity. }
  rewrite count_char_app in Hcommas.
  change (count_char 44 (u "&current=")) with 0%nat in Hcommas.
  cbn [plus] in Hcommas. rewrite Hcommas in Hcount. discriminate Hcount.
Qed.

Section ShortColumns.

Variable isprintable : codepoint -> bool.
Variable client_get : pystr -> list (pystr * pystr) -> spec_float -> py response.
Variable is_error_status : Z -> bool.

(** Day [i] of a [daily] object whose value columns do not all reach
    index [i]: the first short column raises [IndexError]. *)
Lemma forecast_entry_short (daily : pyvalue) (c : daily_columns) (i : nat) :
  has_columns daily c -> (i < length (col_time c))%nat ->
  ~ ((i < length (col_tmax c))%nat /\ (i < length (col_tmin c))%nat /\
     (i < length (col_precipitation c))%nat /\ (i < length (col_weathercode c))%nat) ->
  forecast_entry isprintable daily (Z.of_nat i) = Raise IndexError.
Proof.
  intros (Ht & Hmax & Hmin & Hp & Hw) Hi Hshort.
  unfold forecast_entry, daily_at.
  rewrite Ht, Hmax, Hmin, Hp, Hw. cbn [bind].
  rewrite getitem_int_list by assumption. cbn [bind].
  destruct (Nat.lt_ge_cases i (length (col_tmax c))) as [H1 | H1];
    [rewrite getitem_int_list by assumption | now rewrite getitem_int_list_short].
  cbn [bind].
  destruct (Nat.lt_ge_cases i (length (col_tmin c))) as [H2 | H2];
    [rewrite getitem_int_list by assumption | now rewrite getitem_int_list_short].
  cbn [bind].
  destruct (Nat.lt_ge_cases i (length (col_precipitation c))) as [H3 | H3];
    [rewrite getitem_int_list by assumption | now rewrite getitem_int_list_short].
  cbn [bind].
  destruct (Nat.lt_ge_cases i (length (col_weathercode c))) as [H4 | H4];
    [tauto | now rewrite getitem_int_list_short].
Qed.

Lemma forecast_entry_outcome (daily : pyvalue) (c : daily_columns) (i : nat) :
  has_columns daily c -> (i < length (col_time c))%nat ->
  (exists block, forecast_entry isprintable daily (Z.of_nat i) = Return block) \/
  forecast_entry isprintable daily (Z.of_nat i) = Raise IndexError.
Proof.
  intros Hc Hi.
  destruct (Nat.lt_ge_cases i (length (col_tmax c))) as [H1 | H1];
    [| right; apply (forecast_entry_short daily c i Hc Hi); lia].
  destruct (Nat.lt_ge_cases i (length (col_tmin c))) as [H2 | H2];
    [| right; apply (forecast_entry_short daily c i Hc Hi); lia].
  destruct (Nat.lt_ge_cases i (length (col_precipitation c))) as [H3 | H3];
    [| right; apply (forecast_entry_short daily c i Hc Hi); lia].
  destruct (Nat.lt_ge_cases i (length (col_weathercode c))) as [H4 | H4];
    [| right; apply (forecast_entry_short daily c i Hc Hi); lia].
  left. destruct Hc as (Ht & Hmax & Hmin & Hp & Hw).
  unfold forecast_entry, daily_at.
  rewrite Ht, Hmax, Hmin, Hp, Hw. cbn [bind].
  rewrite !getitem_int_list by assumption. cbn [bind]. eexists. reflexivity.
Qed.

Lemma forecast_entries_short (daily : pyvalue) (c : daily_columns) (k : nat) : forall a,
  has_columns daily c -> (a + k <= length (col_time c))%nat ->
  (exists i, (a <= i < a + k)%nat /\
     ~ ((i < length (col_tmax c))%nat /\ (i < length (col_tmin c))%nat /\
        (i < length (col_precipitation c))%nat /\ (i < length (col_weathercode c))%nat)) ->
  forecast_entries isprintable daily (map Z.of_nat (seq a k)) = Raise IndexError.
Proof.
  induction k as [|k IH]; intros a Hc Hak (i & Hi & Hshort); [lia|].
  cbn [seq map forecast_entries].
  destruct (Nat.eq_dec i a) as [-> | Hne].
  - now rewrite (forecast_entry_short daily c a Hc ltac:(lia) Hshort).
  - destruct (forecast_entry_outcome daily c a Hc ltac:(lia)) as [(block & ->) | ->];
      [|reflexivity].
    cbn [bind]. rewrite IH; [reflexivity | assumption | lia |].
    exists i. split; [lia | assumption].
Qed.

(** X1: a value column shorter than [time]: the [IndexError] of the loop
    body leaves [get_forecast], and no text of the days before the short
    index is returned. *)
Lemma get_forecast_short_column (latitude longitude : spec_float)
    (data daily : pyvalue) (c : daily_columns) :
  make_openmeteo_request client_get is_error_status (forecast_url latitude longitude)
  = Return data ->
  getitem_str data (u "daily") = Return daily ->
  has_columns daily c -> ~ columns_cover c ->
  get_forecast isprintable client_get is_error_status latitude longitude = Raise IndexError.
Proof.
  intros Hfetch Hdaily Hc Hshort.
  rewrite (get_forecast_fetched _ _ _ _ _ _ Hfetch).
  rewrite (getitem_str_truthy _ _ _ Hdaily). cbn [negb].
  unfold format_forecast. rewrite Hdaily. cbn [bind].
  pose proof Hc as (Ht & _). rewrite Ht. cbn [bind py_len].
  unfold range. rewrite Nat2Z.id.
  set (n := length (col_time c)) in *.
  rewrite (forecast_entries_short daily c n 0 Hc ltac:(unfold n; lia)); [reflexivity|].
  unfold columns_cover in Hshort. fold n in Hshort.
  set (m := Nat.min (Nat.min (length (col_tmax c)) (length (col_tmin c)))
                    (Nat.min (length (col_precipitation c)) (length (col_weathercode c)))).
  exists m. split; [unfold n in *; lia | lia].
Qed.

End ShortColumns.

(** ** The pass-through of [get_current_weather] *)

(** C5 (amended): for every fetched, truthy payload in which no string
    holds a high surrogate directly followed by a low surrogate,
    [get_current_weather] returns the whole payload as JSON text with
    2-space indentation, and parsing that text gives back the payload:
    the same values under the same keys in the same order. *)
Theorem get_current_weather_round_trip
    (client_get : pystr -> list (pystr * pystr) -> spec_float -> py response)
    (is_error_status : Z -> bool) (latitude longitude : spec_float) (data : pyvalue) :
  make_openmeteo_request client_get is_error_status (current_weather_url latitude longitude)
  = Return data ->
  truthy data = true ->
  python_value data = true ->
  no_split_surrogates data = true ->
  exists text,
    get_current_weather client_get is_error_status latitude longitude = Return text /\
    text = json_dumps 2 data /\
    json_loads text = Some data.
Proof.
  intros Hfetch Htruthy Hvalue Hpairs.
  exists (json_dumps 2 data). split; [|split].
  - rewrite (get_current_weather_fetched _ _ _ _ _ Hfetch), Htruthy. reflexivity.
  - reflexivity.
  - now apply json_loads_dumps.
Qed.

Lemma get_current_weather_round_trip_witness :
  exists text,
    get_current_weather (answering 200 (json_dumps 2 sample_current)) not_2xx
      berlin_latitude berlin_longitude = Return text /\
    text = json_dumps 2 sample_current /\
    json_loads text = Some sample_current.
Proof.
  apply (get_current_weather_round_trip (answering 200 (json_dumps 2 sample_current)) not_2xx
           berlin_latitude berlin_longitude sample_current).
  - vm_compute. reflexivity.
  - reflexivity.
  - vm_compute. reflexivity.
  - vm_compute. reflexivity.
Defined.

(** C5, as stated, fails: a payload with a string of two characters, a
    high surrogate and then a low surrogate, is written as one escaped
    pair and parsed back as one character. *)
Lemma get_current_weather_joins_split_pair :
  ~ (forall client_get is_error_status latitude longitude data current,
       make_openmeteo_request client_get is_error_status
         (current_weather_url latitude longitude) = Return data ->
       python_value data = true ->
       getitem_str data (u "current") = Return current ->
       exists text,
         get_current_weather client_get is_error_status latitude longitude = Return text /\
         json_loads text = Some data).
Proof.
  intros Hclaim.
  destruct (Hclaim (answering 200 sample_split_pair_body) not_2xx
              berlin_latitude berlin_longitude sample_split_pair (PyStr [55357; 56832]))
    as (text & Htext & Hloads).
  - vm_compute. reflexivity.
  - vm_compute. reflexivity.
  - reflexivity.
  - assert (Hout : get_current_weather (answering 200 sample_split_pair_body) not_2xx
                     berlin_latitude berlin_longitude
                   = Return (json_dumps 2 sample_split_pair)).
    { vm_compute. reflexivity. }
    rewrite Hout in Htext. injection Htext as <-.
    assert (Hback : json_loads (json_dumps 2 sample_split_pair)
                    = Some (PyDict [(u "current", PyStr [128512])])).
    { vm_compute. reflexivity. }
    rewrite Hback in Hloads. discriminate Hloads.
Qed.

(** ** What leaves [get_forecast] *)

Section ForecastErrors.

Variable isprintable : codepoint -> bool.
Variable client_get : pystr -> list (pystr * pystr) -> spec_float -> py response.
Variable is_error_status : Z -> bool.

Local Abbreviation fetch := (make_openmeteo_request client_get is_error_status).
Local Abbreviation forecast := (get_forecast isprintable client_get is_error_status).

Lemma getitem_str_raises (o : pyvalue) (k : pystr) (e : pyexc) :
  getitem_str o k = Raise e -> e = KeyError \/ e = TypeError.
Proof.
  destruct o; cbn; try (intros H; injection H as <-; now right).
  destruct (dict_get k items); [discriminate|].
  intros H. injection H as <-. now left.
Qed.

Lemma getitem_int_raises (o : pyvalue) (i : Z) (e : pyexc) :
  getitem_int o i = Raise e -> lookup_error e.
Proof.
  unfold lookup_error.
  destruct o; cbn; try (intros H; injection H as <-; tauto).
  - match goal with |- context [if ?b then _ else _] => destruct b end;
      [discriminate | intros H; injection H as <-; tauto].
  - match goal with |- context [if ?b then _ else _] => destruct b end;
      [discriminate | intros H; injection H as <-; tauto].
Qed.

Lemma daily_at_raises (daily : pyvalue) (key : pystr) (i : Z) (e : pyexc) :
  daily_at daily key i = Raise e -> lookup_error e.
Proof.
  unfold daily_at. destruct (getitem_str daily key) as [column | e'] eqn:E; cbn [bind].
  - apply getitem_int_raises.
  - intros H. injection H as <-. unfold lookup_error.
    destruct (getitem_str_raises _ _ _ E); tauto.
Qed.

Lemma forecast_entry_raises (daily : pyvalue) (i : Z) (e : pyexc) :
  forecast_entry isprintable daily i = Raise e -> lookup_error e.
Proof.
  unfold forecast_entry.
  repeat match goal with
  | |- context [bind (daily_at daily ?k i)] =>
    let E := fresh "E" in
    destruct (daily_at daily k i) eqn:E; cbn [bind];
      [ | intros H; injection H as <-; now apply (daily_at_raises _ _ _ _ E) ]
  end.
  discriminate.
Qed.

Lemma forecast_entries_raises (daily : pyvalue) (idxs : list Z) (e : pyexc) :
  forecast_entries isprintable daily idxs = Raise e -> lookup_error e.
Proof.
  induction idxs as [|i idxs IH]; cbn [forecast_entries]; [discriminate|].
  destruct (forecast_entry isprintable daily i) eqn:E; cbn [bind].
  - destruct (forecast_entries isprintable daily idxs); cbn [bind]; [discriminate|].
    intros H. injection H as <-. now apply IH.
  - intros H. injection H as <-. now apply (forecast_entry_raises _ _ _ E).
Qed.

Lemma format_forecast_raises (data : pyvalue) (e : pyexc) :
  format_forecast isprintable data = Raise e -> lookup_error e.
Proof.
  unfold format_forecast, lookup_error.
  destruct (getitem_str data (u "daily")) as [daily | e1] eqn:E1; cbn [bind];
    [ | intros H; injection H as <-; destruct (getitem_str_raises _ _ _ E1); tauto ].
  destruct (getitem_str daily (u "time")) as [time | e2] eqn:E2; cbn [bind];
    [ | intros H; injection H as <-; destruct (getitem_str_raises _ _ _ E2); tauto ].
  destruct (py_len time) as [n | e3] eqn:E3; cbn [bind].
  - destruct (forecast_entries isprintable daily (range n)) eqn:E4; cbn [bind]; [discriminate|].
    intros H. injection H as <-. now apply (forecast_entries_raises _ _ _ E4).
  - intros H. injection H as <-. destruct time; cbn in E3; try discriminate;
      injection E3 as <-; tauto.
Qed.

(** X4: whatever the network does and whatever document comes back, the
    only exceptions that leave [get_forecast] are the [KeyError],
    [IndexError] and [TypeError] of reading the payload: no exception of
    the request, of the status check or of the JSON decoder does. *)
Theorem get_forecast_raises_lookup_errors_only
    (latitude longitude : spec_float) (e : pyexc) :
  forecast latitude longitude = Raise e -> lookup_error e.
Proof.
  destruct (fetch_returns client_get is_error_status (forecast_url latitude longitude))
    as (data & Hfetch).
  rewrite (get_forecast_fetched _ _ _ _ _ _ Hfetch).
  destruct (negb (truthy data)); [discriminate|].
  apply format_forecast_raises.
Qed.

Lemma forecast_entries_first_raises (daily : pyvalue) (i : Z) (idxs : list Z) (e : pyexc) :
  forecast_entry isprintable daily i = Raise e ->
  forecast_entries isprintable daily (i :: idxs) = Raise e.
Proof.
  intros H. cbn [forecast_entries]. now rewrite H.
Qed.

Lemma range_succ (n : nat) : range (Z.of_nat (S n)) = 0 :: map Z.of_nat (seq 1 n).
Proof.
  unfold range. rewrite Nat2Z.id. reflexivity.
Qed.

Lemma getitem_int_first (x : pyvalue) (xs : list pyvalue) :
  getitem_int (PyList (x :: xs)) 0 = Return x.
Proof.
  apply (getitem_int_list (x :: xs) 0). cbn [length]. lia.
Qed.

(** The first day of a [daily] object that lacks a value column. *)
Lemma forecast_entry_missing_column (daily t : pyvalue) (ts : list pyvalue) :
  getitem_str daily (u "time") = Return (PyList (t :: ts)) ->
  (exists key, In key VALUE_COLUMNS /\ getitem_str daily key = Raise KeyError) ->
  (forall key, In key VALUE_COLUMNS ->
     getitem_str daily key = Raise KeyError \/
     exists x xs, getitem_str daily key = Return (PyList (x :: xs))) ->
  forecast_entry isprintable daily 0 = Raise KeyError.
Proof.
  intros Ht (key & Hin & Hkey) Hall.
  unfold forecast_entry, daily_at. rewrite Ht. cbn [bind].
  rewrite getitem_int_first. cbn [bind].
  assert (H1 := Hall (u "temperature_2m_max") (or_introl eq_refl)).
  assert (H2 := Hall (u "temperature_2m_min") (or_intror (or_introl eq_refl))).
  assert (H3 := Hall (u "precipitation_sum") (or_intror (or_intror (or_introl eq_refl)))).
  assert (H4 := Hall (u "weathercode")
                  (or_intror (or_intror (or_intror (or_introl eq_refl))))).
  destruct H1 as [H1 | (x1 & xs1 & H1)]; rewrite H1; [reflexivity|].
  cbn [bind]. rewrite getitem_int_first. cbn [bind].
  destruct H2 as [H2 | (x2 & xs2 & H2)]; rewrite H2; [reflexivity|].
  cbn [bind]. rewrite getitem_int_first. cbn [bind].
  destruct H3 as [H3 | (x3 & xs3 & H3)]; rewrite H3; [reflexivity|].
  cbn [bind]. rewrite getitem_int_first. cbn [bind].
  destruct H4 as [H4 | (x4 & xs4 & H4)]; rewrite H4; [reflexivity|].
  cbn [bind]. rewrite getitem_int_first. cbn [bind].
  exfalso. unfold VALUE_COLUMNS in Hin. cbn [map In] in Hin.
  destruct Hin as [<- | [<- | [<- | [<- | []]]]]; congruence.
Qed.

(** X2: a fetched, non-empty payload in which a key [get_forecast] reads
    is missing ([daily]; [time] in [daily]; with a day to format, one of
    the four value columns) makes [get_forecast] raise [KeyError]: the
    tool has no default for a missing field. *)
Theorem get_forecast_missing_key (latitude longitude : spec_float) (data : pyvalue) :
  fetch (forecast_url latitude longitude) = Return data ->
  truthy data = true ->
  lacks_key data ->
  forecast latitude longitude = Raise KeyError.
Proof.
  intros Hfetch Htruthy Hlacks.
  rewrite (get_forecast_fetched _ _ _ _ _ _ Hfetch), Htruthy. cbn [negb].
  unfold format_forecast.
  destruct Hlacks as [Hd | (daily & Hd & Hrest)]; rewrite Hd; cbn [bind]; [reflexivity|].
  destruct Hrest as [Ht | (t & ts & Ht & Hkey & Hall)]; rewrite Ht; cbn [bind]; [reflexivity|].
  cbn [py_len bind]. change (length (t :: ts)) with (S (length ts)).
  rewrite range_succ.
  rewrite (forecast_entries_first_raises daily 0 _ KeyError); [reflexivity|].
  now apply (forecast_entry_missing_column daily t ts).
Qed.

(** X3: a fetched payload that is truthy but no object (an array, a
    string, a number, [true]), or whose [daily] field is no object, or
    whose [daily.time] has no length, makes [get_forecast] raise
    [TypeError]. *)
Theorem get_forecast_wrong_type (latitude longitude : spec_float) (data : pyvalue) :
  fetch (forecast_url latitude longitude) = Return data ->
  truthy data = true ->
  wrong_type data ->
  forecast latitude longitude = Raise TypeError.
Proof.
  intros Hfetch Htruthy Hwrong.
  rewrite (get_forecast_fetched _ _ _ _ _ _ Hfetch), Htruthy. cbn [negb].
  unfold format_forecast.
  destruct Hwrong as [Hd | (daily & Hd & Hrest)].
  - destruct data; try discriminate; reflexivity.
  - rewrite Hd. cbn [bind].
    destruct Hrest as [Hnd | (time & Ht & Hlen)].
    + destruct daily; try discriminate; reflexivity.
    + rewrite Ht. cbn [bind]. rewrite Hlen. reflexivity.
Qed.

End ForecastErrors.

Lemma get_forecast_raises_lookup_errors_only_witness :
  get_forecast printable_latin1 (answering 200 (json_dumps 2 sample_no_daily)) not_2xx
    berlin_latitude berlin_longitude = Raise KeyError /\
  lookup_error KeyError.
Proof.
  assert (H : get_forecast printable_latin1 (answering 200 (json_dumps 2 sample_no_daily))
                not_2xx berlin_latitude berlin_longitude = Raise KeyError)
    by (vm_compute; reflexivity).
  split; [exact H|].
  exact (get_forecast_raises_lookup_errors_only printable_latin1
           (answering 200 (json_dumps 2 sample_no_daily)) not_2xx
           berlin_latitude berlin_longitude KeyError H).
Defined.

Lemma sample_lacks_key : lacks_key sample_no_precipitation.
Proof.
  right. eexists. split; [reflexivity|]. right. do 2 eexists. split; [reflexivity|]. split.
  - exists (u "precipitation_sum"). split; [|reflexivity].
    exact (or_intror (or_intror (or_introl eq_refl))).
  - intros key Hin. unfold VALUE_COLUMNS in Hin. cbn [map In] in Hin.
    destruct Hin as [<- | [<- | [<- | [<- | []]]]];
      try (left; reflexivity); right; do 2 eexists; reflexivity.
Qed.

Lemma get_forecast_missing_key_witness :
  get_forecast printable_latin1 (answering 200 (json_dumps 2 sample_no_precipitation)) not_2xx
    berlin_latitude berlin_longitude = Raise KeyError.
Proof.
  apply (get_forecast_missing_key printable_latin1
           (answering 200 (json_dumps 2 sample_no_precipitation)) not_2xx
           berlin_latitude berlin_longitude sample_no_precipitation).
  - vm_compute. reflexivity.
  - reflexivity.
  - exact sample_lacks_key.
Defined.

Lemma get_forecast_wrong_type_witness :
  get_forecast printable_latin1 (answering 200 (json_dumps 2 sample_array)) not_2xx
    berlin_latitude berlin_longitude = Raise TypeError.
Proof.
  apply (get_forecast_wrong_type printable_latin1
           (answering 200 (json_dumps 2 sample_array)) not_2xx
           berlin_latitude berlin_longitude sample_array).
  - vm_compute. reflexivity.
  - reflexivity.
  - left. reflexivity.
Defined.

Lemma sample_short_has_columns : has_columns sample_short_daily sample_short_columns.
Proof. repeat split. Qed.

Lemma get_forecast_short_column_witness :
  get_forecast printable_latin1 (answering 200 (json_dumps 2 sample_short)) not_2xx
    berlin_latitude berlin_longitude = Raise IndexError.
Proof.
  apply (get_forecast_short_column printable_latin1
           (answering 200 (json_dumps 2 sample_short)) not_2xx
           berlin_latitude berlin_longitude sample_short sample_short_daily
           sample_short_columns).
  - vm_compute. reflexivity.
  - reflexivity.
  - exact sample_short_has_columns.
  - intros (_ & _ & _ & H). cbn in H. lia.
Defined.

(** ** The fallback strings *)

Lemma truthy_falsy_document (v : pyvalue) : truthy v = false <-> falsy_document v.
Proof.
  unfold falsy_document. split.
  - destruct v as [| b | n | x | s | l | d]; cbn [truthy]; intros H.
    + tauto.
    + subst b. tauto.
    + apply negb_false_iff, Z.eqb_eq in H. subst n. tauto.
    + destruct x; try discriminate. right; right; right; left. now exists s.
    + destruct s; [tauto | discriminate].
    + destruct l; [tauto | discriminate].
    + destruct d; [tauto | discriminate].
  - intros [-> | [-> | [-> | [(s & ->) | [-> | [-> | ->]]]]]]; reflexivity.
Qed.

Section ForecastText.

Variable isprintable : codepoint -> bool.

Lemma forecast_entry_head (daily : pyvalue) (i : Z) (block : pystr) :
  forecast_entry isprintable daily i = Return block -> exists r, block = 10 :: r.
Proof.
  unfold forecast_entry.
  repeat match goal with
  | |- context [bind (daily_at daily ?k i)] =>
    destruct (daily_at daily k i); cbn [bind]; [ | discriminate ]
  end.
  intros H. injection H as <-. eexists. reflexivity.
Qed.

Lemma forecast_entries_head (daily : pyvalue) (idxs : list Z) : forall blocks,
  forecast_entries isprintable daily idxs = Return blocks ->
  Forall (fun block => exists r, block = 10 :: r) blocks.
Proof.
  induction idxs as [|i idxs IH]; cbn [forecast_entries]; intros blocks H.
  - injection H as <-. constructor.
  - destruct (forecast_entry isprintable daily i) as [b|] eqn:E; cbn [bind] in H;
      [ | discriminate ].
    destruct (forecast_entries isprintable daily idxs) as [bs|]; cbn [bind] in H;
      [ | discriminate ].
    injection H as <-. constructor; [now apply (forecast_entry_head daily i) | now apply IH].
Qed.

(** The forecast text is empty or starts with the line break that opens
    the first block. *)
Lemma format_forecast_head (data : pyvalue) (text : pystr) :
  format_forecast isprintable data = Return text ->
  text = [] \/ exists r, text = 10 :: r.
Proof.
  unfold format_forecast.
  destruct (getitem_str data (u "daily")) as [daily|]; cbn [bind]; [ | discriminate ].
  destruct (getitem_str daily (u "time")) as [time|]; cbn [bind]; [ | discriminate ].
  destruct (py_len time) as [n|]; cbn [bind]; [ | discriminate ].
  destruct (forecast_entries isprintable daily (range n)) as [blocks|] eqn:E; cbn [bind];
    [ | discriminate ].
  intros H. injection H as <-.
  pose proof (forecast_entries_head _ _ _ E) as Hheads.
  destruct Hheads as [| b bs (r & ->) _]; [now left | right].
  destruct bs; eexists; reflexivity.
Qed.

End ForecastText.

Lemma int_repr_head (n : Z) : exists c r, int_repr n = c :: r /\ (c = 45 \/ is_digit c = true).
Proof.
  destruct (int_repr_reads_back n [] I) as (nm & Hm & _).
  rewrite app_nil_r in Hm. exact (match_number_head _ _ _ Hm).
Qed.

(** [repr] of a finite float starts with a digit or a minus sign. *)
Lemma float_repr_head (s : bool) (m : positive) (e : Z) :
  exists c r, float_repr (S754_finite s m e) = c :: r /\ (c = 45 \/ is_digit c = true).
Proof.
  unfold float_repr.
  destruct (shortest_decimal_reads_back (Z.pos m) e ltac:(lia)) as [Hc _].
  destruct (shortest_decimal (Z.pos m) e) as [c p]. cbn [fst] in Hc.
  destruct (strip_trailing_zeros_spec c Hc) as (d & ds & z & Es & Hz & Hd & Hf & Hcv).
  rewrite Es.
  destruct (match_number_format s d ds (Z.of_nat (length (d :: ds)) + z + p) [] Hf Hd I)
    as (nm & j & Hm & _).
  rewrite app_nil_r in Hm. exact (match_number_head _ _ _ Hm).
Qed.

(** The first character of a JSON text: a digit, a minus sign, a quote, an
    opening bracket or brace, or the first letter of [null], [true],
    [false], [NaN] or [Infinity]. *)
Lemma iterencode_head (indent level : nat) (v : pyvalue) :
  exists c r, iterencode indent level v = c :: r /\
    (In c [110; 116; 102; 45; 78; 73; 34; 91; 123] \/ is_digit c = true).
Proof.
  destruct v as [| b | n | x | s | l | d]; cbn [iterencode].
  - eexists; eexists; split; [reflexivity | left; cbn; tauto].
  - destruct b; eexists; eexists; (split; [reflexivity | left; cbn; tauto]).
  - destruct (int_repr_head n) as (c & r & -> & [-> | Hd]);
      eexists; eexists; (split; [reflexivity | (left; cbn; tauto) || now right]).
  - destruct x as [s | s | | s m e]; cbn [floatstr].
    + destruct s; eexists; eexists; (split; [reflexivity | (left; cbn; tauto) || now right]).
    + destruct s; eexists; eexists; (split; [reflexivity | left; cbn; tauto]).
    + eexists; eexists; (split; [reflexivity | left; cbn; tauto]).
    + destruct (float_repr_head s m e) as (c & r & -> & [-> | Hd]);
        eexists; eexists; (split; [reflexivity | (left; cbn; tauto) || now right]).
  - eexists; eexists; (split; [reflexivity | left; cbn; tauto]).
  - destruct l; eexists; eexists; (split; [reflexivity | left; cbn; tauto]).
  - destruct d; eexists; eexists; (split; [reflexivity | left; cbn; tauto]).
Qed.

Section Fallbacks.

Variable isprintable : codepoint -> bool.
Variable client_get : pystr -> list (pystr * pystr) -> spec_float -> py response.
Variable is_error_status : Z -> bool.

Local Abbreviation fetch := (make_openmeteo_request client_get is_error_status).
Local Abbreviation forecast := (get_forecast isprintable client_get is_error_status).
Local Abbreviation current_weather := (get_current_weather client_get is_error_status).

(** X5: [get_forecast] returns "Unable to fetch forecast data for this
    location." exactly when the fetched document is falsy ([None] after a
    failure, or one of [null], [false], [0], [0.0], the empty string, array
    or object): no forecast text is that string, so the message always
    means that nothing was formatted. *)
Theorem get_forecast_fallback_iff_falsy (latitude longitude : spec_float) (data : pyvalue) :
  fetch (forecast_url latitude longitude) = Return data ->
  (forecast latitude longitude = Return forecast_fallback <-> falsy_document data).
Proof.
  intros Hfetch. rewrite <- truthy_falsy_document.
  rewrite (get_forecast_fetched _ _ _ _ _ _ Hfetch).
  destruct (truthy data); cbn [negb]; split; try reflexivity; try discriminate.
  intros H. destruct (format_forecast_head _ _ _ H) as [E | (r & E)]; discriminate.
Qed.

(** X6: [get_current_weather] returns "Unable to fetch current weather
    data for this location." exactly when the fetched document is falsy:
    no JSON text is that string. *)
Theorem get_current_weather_fallback_iff_falsy
    (latitude longitude : spec_float) (data : pyvalue) :
  fetch (current_weather_url latitude longitude) = Return data ->
  (current_weather latitude longitude = Return current_weather_fallback <-> falsy_document data).
Proof.
  intros Hfetch. rewrite <- truthy_falsy_document.
  rewrite (get_current_weather_fetched _ _ _ _ _ Hfetch).
  destruct (truthy data); cbn [negb]; split; try reflexivity; try discriminate.
  intros H. injection H as H. exfalso. unfold json_dumps in H.
  destruct (iterencode_head 2 0 data) as (c & r & E & Hc). rewrite E in H.
  unfold current_weather_fallback in H. injection H as -> _.
  destruct Hc as [Hc | Hc]; [ | discriminate ].
  cbn in Hc. repeat (destruct Hc as [Hc | Hc]; [discriminate|]). exact Hc.
Qed.

End Fallbacks.

Lemma get_forecast_fallback_iff_falsy_witness :
  get_forecast printable_latin1 (answering 200 (u "0.0")) not_2xx
    berlin_latitude berlin_longitude = Return forecast_fallback
  <-> falsy_document (PyFloat (S754_zero false)).
Proof.
  apply (get_forecast_fallback_iff_falsy printable_latin1 (answering 200 (u "0.0")) not_2xx
           berlin_latitude berlin_longitude (PyFloat (S754_zero false))).
  vm_compute. reflexivity.
Defined.

Lemma get_current_weather_fallback_iff_falsy_witness :
  get_current_weather sample_server not_2xx berlin_latitude berlin_longitude
    = Return current_weather_fallback
  <-> falsy_document sample_forecast.
Proof.
  apply (get_current_weather_fallback_iff_falsy sample_server not_2xx
           berlin_latitude berlin_longitude sample_forecast).
  vm_compute. reflexivity.
Defined.

(** ** The days [get_forecast] reads *)

Lemma nth_firstn_below (l : list pyvalue) (n i : nat) :
  (i < n)%nat -> nth i (firstn n l) PyNone = nth i l PyNone.
Proof.
  revert n i. induction l as [|x l IH]; intros n i Hi.
  - now rewrite firstn_nil.
  - destruct n; [lia|]. destruct i; [reflexivity|]. cbn [firstn nth]. apply IH. lia.
Qed.

Lemma firstn_agree (l1 l2 : list pyvalue) (n i : nat) :
  firstn n l1 = firstn n l2 -> (i < n)%nat -> nth i l1 PyNone = nth i l2 PyNone.
Proof.
  intros H Hi. rewrite <- (nth_firstn_below l1 n i Hi), <- (nth_firstn_below l2 n i Hi).
  now rewrite H.
Qed.

Lemma firstn_cover (l1 l2 : list pyvalue) (n : nat) :
  firstn n l1 = firstn n l2 -> (n <= length l1)%nat -> (n <= length l2)%nat.
Proof.
  intros H Hn. apply (f_equal (@length _)) in H. rewrite !length_firstn in H. lia.
Qed.

Lemma same_days_cover (c1 c2 : daily_columns) :
  same_days c1 c2 -> columns_cover c1 -> columns_cover c2.
Proof.
  intros (Ht & H1 & H2 & H3 & H4) (L1 & L2 & L3 & L4). unfold columns_cover.
  rewrite <- Ht.
  repeat split; eapply firstn_cover; eassumption.
Qed.

Lemma same_days_blocks (isprintable : codepoint -> bool) (c1 c2 : daily_columns) (i : nat) :
  same_days c1 c2 -> (i < length (col_time c1))%nat ->
  block_of isprintable c1 i = block_of isprintable c2 i.
Proof.
  intros (Ht & H1 & H2 & H3 & H4) Hi. unfold block_of.
  rewrite <- Ht.
  rewrite (firstn_agree _ _ _ i H1 Hi), (firstn_agree _ _ _ i H2 Hi),
    (firstn_agree _ _ _ i H3 Hi), (firstn_agree _ _ _ i H4 Hi).
  reflexivity.
Qed.

(** X7: [get_forecast] reads the first [len(daily.time)] items of each
    value column and nothing else of the [daily] object: two fetched
    payloads with the same days and the same values for those days give
    the same text, whatever else the columns and the object hold. *)
Theorem get_forecast_reads_days_only
    (isprintable : codepoint -> bool)
    (client_get1 client_get2 : pystr -> list (pystr * pystr) -> spec_float -> py response)
    (is_error_status1 is_error_status2 : Z -> bool)
    (latitude1 longitude1 latitude2 longitude2 : spec_float)
    (data1 data2 daily1 daily2 : pyvalue) (c1 c2 : daily_columns) :
  make_openmeteo_request client_get1 is_error_status1 (forecast_url latitude1 longitude1)
  = Return data1 ->
  make_openmeteo_request client_get2 is_error_status2 (forecast_url latitude2 longitude2)
  = Return data2 ->
  getitem_str data1 (u "daily") = Return daily1 ->
  getitem_str data2 (u "daily") = Return daily2 ->
  has_columns daily1 c1 -> has_columns daily2 c2 ->
  columns_cover c1 -> same_days c1 c2 ->
  exists text,
    get_forecast isprintable client_get1 is_error_status1 latitude1 longitude1 = Return text /\
    get_forecast isprintable client_get2 is_error_status2 latitude2 longitude2 = Return text.
Proof.
  intros Hfetch1 Hfetch2 Hdaily1 Hdaily2 Hc1 Hc2 Hcover Hsame.
  rewrite (get_forecast_fetched _ _ _ _ _ _ Hfetch1).
  rewrite (get_forecast_fetched _ _ _ _ _ _ Hfetch2).
  rewrite (getitem_str_truthy _ _ _ Hdaily1), (getitem_str_truthy _ _ _ Hdaily2).
  cbn [negb].
  rewrite (format_forecast_columns isprintable data1 daily1 c1 Hdaily1 Hc1 Hcover).
  rewrite (format_forecast_columns isprintable data2 daily2 c2 Hdaily2 Hc2
             (same_days_cover c1 c2 Hsame Hcover)).
  eexists. split; [reflexivity|].
  destruct Hsame as (Ht & Hrest). rewrite <- Ht. do 2 f_equal.
  apply map_ext_in. intros i Hi. apply in_seq in Hi. symmetry.
  apply same_days_blocks; [now split | lia].
Qed.

Lemma get_forecast_reads_days_only_witness :
  exists text,
    get_forecast printable_latin1 sample_server not_2xx berlin_latitude berlin_longitude
    = Return text /\
    get_forecast printable_latin1 (answering 200 (json_dumps 2 sample_surplus)) not_2xx
      berlin_latitude berlin_longitude = Return text.
Proof.
  apply (get_forecast_reads_days_only printable_latin1
           sample_server (answering 200 (json_dumps 2 sample_surplus)) not_2xx not_2xx
           berlin_latitude berlin_longitude berlin_latitude berlin_longitude
           sample_forecast sample_surplus sample_daily
           (PyDict [ (u "sunrise", PyList []);
                     (u "time", PyList (col_time sample_surplus_columns));
                     (u "temperature_2m_max", PyList (col_tmax sample_surplus_columns));
                     (u "temperature_2m_min", PyList (col_tmin sample_surplus_columns));
                     (u "precipitation_sum", PyList (col_precipitation sample_surplus_columns));
                     (u "weathercode", PyList (col_weathercode sample_surplus_columns)) ])
           sample_columns sample_surplus_columns).
  - exact sample_fetch.
  - vm_compute. reflexivity.
  - reflexivity.
  - reflexivity.
  - exact sample_has_columns.
  - repeat split.
  - repeat split; apply Nat.le_refl.
  - repeat split.
Defined.

(** ** Failures of the request, seen from the tools *)

Section RequestFailures.

Variable isprintable : codepoint -> bool.
Variable client_get : pystr -> list (pystr * pystr) -> spec_float -> py response.
Variable is_error_status : Z -> bool.

Lemma request_fails_none (url : pystr) :
  request_fails client_get is_error_status url ->
  make_openmeteo_request client_get is_error_status url = Return PyNone.
Proof.
  unfold request_fails, make_openmeteo_request, REQUEST_HEADERS.
  destruct (client_get url _ timeout_seconds) as [r | e]; cbn [bind try_except];
    [ | reflexivity ].
  unfold raise_for_status, response_json.
  destruct (is_error_status (status_code r)); cbn [bind try_except]; [reflexivity|].
  intros [H | H]; [discriminate|]. now rewrite H.
Qed.

(** X8: when the GET fails (the client raises, the status is an error
    status, or the body is not JSON; with an error status whatever the
    body holds) each tool returns its fallback string and nothing else:
    no exception, no partial text. *)
Theorem request_failure_gives_fallback (latitude longitude : spec_float) :
  (request_fails client_get is_error_status (forecast_url latitude longitude) ->
   get_forecast isprintable client_get is_error_status latitude longitude
   = Return (u "Unable to fetch forecast data for this location.")) /\
  (request_fails client_get is_error_status (current_weather_url latitude longitude) ->
   get_current_weather client_get is_error_status latitude longitude
   = Return (u "Unable to fetch current weather data for this location.")).
Proof.
  split; intros Hfails; apply request_fails_none in Hfails.
  - now apply (get_forecast_falsy isprintable client_get is_error_status _ _ PyNone).
  - now apply (get_current_weather_falsy client_get is_error_status _ _ PyNone).
Qed.

End RequestFailures.

Lemma request_failure_gives_fallback_witness :
  get_forecast printable_latin1 (answering 503 (json_dumps 2 sample_forecast)) not_2xx
    berlin_latitude berlin_longitude
  = Return (u "Unable to fetch forecast data for this location.") /\
  get_current_weather (answering 200 (u "<html>Bad gateway</html>")) not_2xx
    berlin_latitude berlin_longitude
  = Return (u "Unable to fetch current weather data for this location.").
Proof.
  destruct (request_failure_gives_fallback printable_latin1
              (answering 503 (json_dumps 2 sample_forecast)) not_2xx
              berlin_latitude berlin_longitude) as [Hforecast _].
  destruct (request_failure_gives_fallback printable_latin1
              (answering 200 (u "<html>Bad gateway</html>")) not_2xx
              berlin_latitude berlin_longitude) as [_ Hcurrent].
  split.
  - apply Hforecast. left. reflexivity.
  - apply Hcurrent. right. vm_compute. reflexivity.
Defined.

(** ** The floats [float()] returns *)

Lemma bounds_valid_double (s : bool) (m : positive) (e : Z) :
  double_bounds (Z.pos m) e -> valid_double (S754_finite s m e) = true.
Proof.
  unfold valid_double, valid_binary, bounded, canonical_mantissa, fexp, emin.
  rewrite digits2_pos_log2. intros Hb.
  pose proof (Z.log2_nonneg (Z.pos m)) as L0.
  apply andb_true_iff. destruct Hb as [[Hm He] | [Hm He]].
  - assert (Hl : Z.log2 (Z.pos m) = 52).
    { apply Z.log2_unique; [lia|]. change (2 ^ 52) with 4503599627370496.
      change (2 ^ (52 + 1)) with 9007199254740992. lia. }
    rewrite Hl. split; [apply Z.eqb_eq | apply Z.leb_le]; lia.
  - assert (Hl : Z.log2 (Z.pos m) < 52).
    { apply Z.log2_lt_pow2; [lia|]. change (2 ^ 52) with 4503599627370496. lia. }
    split; [apply Z.eqb_eq | apply Z.leb_le]; lia.
Qed.

Lemma round_half_even_bounds (N D : Z) :
  N / D <= round_half_even N D <= N / D + 1.
Proof.
  unfold round_half_even.
  destruct (2 * (N mod D) <? D); [lia|].
  destruct (D <? 2 * (N mod D)); [lia|].
  destruct (Z.even (N / D)); lia.
Qed.

(** The scaled significand of a ratio at the exponent [float()] picks:
    below [2^53], and at least [2^52] unless the exponent is the least
    one. *)
Lemma scaled_significand (n d : Z) :
  0 < n -> 0 < d ->
  let e := Z.max (floor_log2_ratio n d - 52) (-1074) in
  let N := fst (scaled n d e) in
  let D := snd (scaled n d e) in
  0 < D /\ 0 <= N / D < 9007199254740992 /\
  (-1074 < e -> 4503599627370496 <= N / D) /\
  (e = -1074 -> floor_log2_ratio n d - 52 < -1074 -> N / D < 4503599627370496).
Proof.
  intros Hn Hd. cbv zeta.
  set (e := Z.max (floor_log2_ratio n d - 52) (-1074)).
  destruct (scaled n d e) as [N0 D0] eqn:Es. cbn [fst snd].
  destruct (scaled_pos n d e N0 D0 Hn Hd Es) as [HN HD].
  assert (Hfst : fst (scaled n d e) = N0) by now rewrite Es.
  assert (Hsnd : snd (scaled n d e) = D0) by now rewrite Es.
  split; [assumption|].
  assert (Hupper : N0 < 9007199254740992 * D0).
  { destruct (Z.lt_ge_cases N0 (9007199254740992 * D0)) as [H | H]; [assumption|].
    exfalso.
    pose proof (floor_log2_ratio_lower n d e 53 Hn Hd ltac:(lia)) as L.
    rewrite Hfst, Hsnd in L. change (2 ^ 53) with 9007199254740992 in L.
    specialize (L H). unfold e in L. lia. }
  split; [split|split].
  - apply Z.div_pos; lia.
  - apply Z.div_lt_upper_bound; lia.
  - intros He. apply Z.div_le_lower_bound; [assumption|].
    destruct (Z.le_gt_cases (D0 * 4503599627370496) N0) as [H | H]; [assumption|].
    exfalso.
    pose proof (floor_log2_ratio_upper n d e 51 Hn Hd ltac:(lia)) as U.
    rewrite Hfst, Hsnd in U. change (2 ^ (51 + 1)) with 4503599627370496 in U.
    specialize (U ltac:(lia)). unfold e in U, He. lia.
  - intros He Hk. apply Z.div_lt_upper_bound; [assumption|].
    destruct (Z.lt_ge_cases N0 (D0 * 4503599627370496)) as [H | H]; [assumption|].
    exfalso.
    pose proof (floor_log2_ratio_lower n d e 52 Hn Hd ltac:(lia)) as L.
    rewrite Hfst, Hsnd in L. change (2 ^ 52) with 4503599627370496 in L.
    specialize (L ltac:(lia)). lia.
Qed.

(** [float()] of a ratio is a binary64 number. *)
Lemma float_of_ratio_valid (neg : bool) (n d : Z) :
  0 < d -> valid_double (float_of_ratio neg n d) = true.
Proof.
  intros Hd. unfold float_of_ratio.
  destruct (Z.leb_spec n 0) as [Hn | Hn]; [reflexivity|].
  pose proof (scaled_significand n d Hn Hd) as H. cbv zeta in H.
  set (e := Z.max (floor_log2_ratio n d - 52) (-1074)) in *.
  destruct (scaled n d e) as [N D]. cbn [fst snd] in H.
  destruct H as (HD & Hq & Hnormal & Hsub).
  pose proof (round_half_even_bounds N D) as Hm.
  set (m := round_half_even N D) in *.
  assert (He : -1074 <= e) by (unfold e; lia).
  destruct (Z.eqb_spec m 9007199254740992) as [Em | Em].
  - (* the significand rounds up to the next power of two *)
    destruct (Z.ltb_spec 971 (e + 1)); [reflexivity|].
    apply bounds_valid_double. left. lia.
  - destruct m as [|p|p] eqn:Ep; [reflexivity | | reflexivity].
    destruct (Z.ltb_spec 971 e); [reflexivity|].
    apply bounds_valid_double. unfold double_bounds.
    destruct (Z.eq_dec e (-1074)) as [E | E].
    + destruct (Z.lt_ge_cases (Z.pos p) 4503599627370496); [right | left]; lia.
    + left. specialize (Hnormal ltac:(lia)). lia.
Qed.

Lemma float_of_decimal_valid (neg : bool) (D E : Z) :
  valid_double (float_of_decimal neg D E) = true.
Proof.
  unfold float_of_decimal. apply float_of_ratio_valid. apply pow10_pos. lia.
Qed.

(** A number of a JSON text is a Python [int] or a binary64 [float]. *)
Lemma number_value_python (nm : number_match) : python_value (number_value nm) = true.
Proof.
  unfold number_value.
  destruct (nm_frac nm), (nm_exp nm); cbn [python_value];
    try apply float_of_decimal_valid; reflexivity.
Qed.

(** ** The documents [json.loads] returns *)

Lemma scalar_codepoint (c : codepoint) : scalar c -> is_codepoint c.
Proof.
  unfold scalar, is_scalar, is_codepointb, is_codepoint. intros H.
  apply andb_true_iff in H. destruct H as [H _].
  apply andb_true_iff in H. destruct H as [H _].
  apply andb_true_iff in H. destruct H as [H1 H2].
  apply Z.leb_le in H1. apply Z.ltb_lt in H2. lia.
Qed.

Lemma scalar_not_high (c : codepoint) : scalar c -> is_high_surrogate c = false.
Proof.
  unfold scalar, is_scalar. intros H.
  apply andb_true_iff in H. destruct H as [H _].
  apply andb_true_iff in H. destruct H as [_ H]. now apply negb_true_iff in H.
Qed.

Lemma scalar_not_low (c : codepoint) : scalar c -> is_low_surrogate c = false.
Proof.
  unfold scalar, is_scalar. intros H.
  apply andb_true_iff in H. destruct H as [_ H]. now apply negb_true_iff in H.
Qed.

Lemma unicode_text_scalar (s : pystr) : unicode_text s = true <-> Forall scalar s.
Proof.
  unfold unicode_text. rewrite forallb_forall, Forall_forall. reflexivity.
Qed.

Lemma hex_value_bound (c : codepoint) (v : Z) : hex_value c = Some v -> 0 <= v < 16.
Proof.
  unfold hex_value.
  destruct ((48 <=? c) && (c <=? 57)) eqn:E1;
    [ | destruct ((97 <=? c) && (c <=? 102)) eqn:E2;
        [ | destruct ((65 <=? c) && (c <=? 70)) eqn:E3; [ | discriminate ] ] ];
    intros H; injection H as <-;
    match goal with
    | E : _ && _ = true |- _ =>
      apply andb_true_iff in E; destruct E as [H1 H2];
      apply Z.leb_le in H1; apply Z.leb_le in H2; lia
    end.
Qed.

Lemma hex4_value_bound (h1 h2 h3 h4 : codepoint) (v : Z) :
  hex4_value h1 h2 h3 h4 = Some v -> 0 <= v < 65536.
Proof.
  unfold hex4_value.
  destruct (hex_value h1) as [a|] eqn:E1; [ | discriminate ].
  destruct (hex_value h2) as [b|] eqn:E2; [ | discriminate ].
  destruct (hex_value h3) as [c|] eqn:E3; [ | discriminate ].
  destruct (hex_value h4) as [d|] eqn:E4; [ | discriminate ].
  apply hex_value_bound in E1, E2, E3, E4.
  intros H. injection H as <-. lia.
Qed.

Lemma unescape_plain (e ch : codepoint) : unescape e = Some ch -> 0 <= ch < 128.
Proof.
  unfold unescape.
  repeat match goal with
  | |- (if ?b then _ else _) = _ -> _ => destruct b; [intros H; injection H as <-; lia|]
  end.
  discriminate.
Qed.

(** The character two escaped surrogates stand for. *)
Lemma joined_pair (hi lo : Z) :
  is_high_surrogate hi = true -> is_low_surrogate lo = true ->
  65536 <= 65536 + Z.lor (Z.shiftl (hi - 55296) 10) (lo - 56320) < 1114112.
Proof.
  unfold is_high_surrogate, is_low_surrogate. intros Hh Hl.
  apply andb_true_iff in Hh. destruct Hh as [H1 H2].
  apply andb_true_iff in Hl. destruct Hl as [L1 L2].
  apply Z.leb_le in H1, H2, L1, L2.
  rewrite lor_shiftl_10 by lia. lia.
Qed.

Lemma high_bounds (c : Z) : is_high_surrogate c = true -> 55296 <= c <= 56319.
Proof.
  unfold is_high_surrogate. intros H. apply andb_true_iff in H. destruct H as [H1 H2].
  apply Z.leb_le in H1, H2. lia.
Qed.

Lemma low_bounds (c : Z) : is_low_surrogate c = true -> 56320 <= c <= 57343.
Proof.
  unfold is_low_surrogate. intros H. apply andb_true_iff in H. destruct H as [H1 H2].
  apply Z.leb_le in H1, H2. lia.
Qed.

Lemma not_low (c : Z) : c < 56320 \/ 57343 < c -> is_low_surrogate c = false.
Proof.
  unfold is_low_surrogate. intros H. apply andb_false_iff.
  destruct H; [left; apply Z.leb_gt | right; apply Z.leb_gt]; lia.
Qed.

Lemma not_high (c : Z) : c < 55296 \/ 56319 < c -> is_high_surrogate c = false.
Proof.
  unfold is_high_surrogate. intros H. apply andb_false_iff.
  destruct H; [left; apply Z.leb_gt | right; apply Z.leb_gt]; lia.
Qed.

(** A string that the decoder read and that starts with a low surrogate
    was written with the escape of that surrogate first. *)
Lemma scanstring_head_low (s str rest : pystr) :
  Forall scalar s -> scanstring s = Some (str, rest) ->
  head_low str = true -> low_escape_head s = true.
Proof.
  intros Hs H Hlow.
  assert (Hcons : forall (t : pystr) (x : codepoint),
            match scanstring t with
            | Some (str0, rest0) => Some (x :: str0, rest0)
            | None => None
            end = Some (str, rest) -> is_low_surrogate x = true).
  { intros t x Hx. destruct (scanstring t) as [[str0 rest0]|]; [ | discriminate ].
    injection Hx as <- _. exact Hlow. }
  destruct s as [|c r]; [discriminate|]. cbn [scanstring] in H.
  pose proof (Forall_inv Hs) as Hc.
  destruct (c =? 34); [injection H as <- _; discriminate|].
  destruct (Z.eqb_spec c 92) as [-> | Hc92].
  - destruct r as [|esc r1]; [discriminate|].
    destruct (Z.eqb_spec esc 117) as [-> | Hesc].
    + destruct r1 as [|h1 [|h2 [|h3 [|h4 r2]]]]; try discriminate.
      cbn [low_escape_head]. rewrite !Z.eqb_refl. cbn [andb].
      destruct (hex4_value h1 h2 h3 h4) as [uni|] eqn:Eu; [ | discriminate ].
      destruct (is_high_surrogate uni) eqn:Eh.
      * (* a high surrogate, alone or joined: the head is not low *)
        exfalso.
        pose proof (high_bounds uni Eh) as Hb.
        assert (Hu : is_low_surrogate uni = false) by (apply not_low; lia).
        destruct r2 as [|b [|c2 r3]];
          try (apply Hcons in H; congruence).
        destruct ((b =? 92) && (c2 =? 117)); [ | apply Hcons in H; congruence ].
        destruct r3 as [|g1 [|g2 [|g3 [|g4 r4]]]]; try discriminate.
        destruct (hex4_value g1 g2 g3 g4) as [uni2|]; [ | discriminate ].
        destruct (is_low_surrogate uni2) eqn:El; [ | apply Hcons in H; congruence ].
        apply Hcons in H. pose proof (joined_pair uni uni2 Eh El) as Hj.
        rewrite not_low in H by lia. discriminate.
      * now apply Hcons in H.
    + exfalso. destruct (unescape esc) as [ch|] eqn:Ee; [ | discriminate ].
      apply Hcons in H. apply unescape_plain in Ee.
      rewrite not_low in H by lia. discriminate.
  - exfalso. destruct (c <? 32); [discriminate|].
    apply Hcons in H. rewrite (scalar_not_low c Hc) in H. discriminate.
Qed.

Lemma Forall_drop {A : Type} (P : A -> Prop) (k : nat) : forall l,
  Forall P l -> Forall P (skipn k l).
Proof.
  induction k as [|k IH]; intros l H; [exact H|].
  destruct l as [|x l]; [constructor|]. cbn [skipn]. apply IH. now apply Forall_inv_tail in H.
Qed.

Lemma low_escape_head_inv (s : pystr) :
  low_escape_head s = true ->
  exists b c h1 h2 h3 h4 r v,
    s = b :: c :: h1 :: h2 :: h3 :: h4 :: r /\ (b =? 92) && (c =? 117) = true /\
    hex4_value h1 h2 h3 h4 = Some v /\ is_low_surrogate v = true.
Proof.
  destruct s as [|b [|c [|h1 [|h2 [|h3 [|h4 r]]]]]]; try discriminate.
  cbn [low_escape_head]. intros H. apply andb_true_iff in H. destruct H as [H1 H2].
  destruct (hex4_value h1 h2 h3 h4) as [v|] eqn:E; [ | discriminate ].
  exists b, c, h1, h2, h3, h4, r, v. auto.
Qed.

(** The strings of a text without surrogates: code points, and no high
    surrogate directly followed by a low one (two escapes in a row are
    joined, and a lone escaped surrogate has no surrogate after it). *)
Lemma scanstring_well_formed (n : nat) : forall s str rest,
  (length s <= n)%nat -> Forall scalar s -> scanstring s = Some (str, rest) ->
  Forall is_codepoint str /\ no_split_pair str = true /\ Forall scalar rest.
Proof.
  induction n as [|n IH]; intros s str rest Hn Hs H.
  - destruct s; [discriminate | cbn in Hn; lia].
  - assert (Hrec : forall (t : pystr) (x : codepoint),
              (length t < length s)%nat -> Forall scalar t -> is_codepoint x ->
              (is_high_surrogate x = true -> low_escape_head t = false) ->
              match scanstring t with
              | Some (str0, rest0) => Some (x :: str0, rest0)
              | None => None
              end = Some (str, rest) ->
              Forall is_codepoint str /\ no_split_pair str = true /\ Forall scalar rest).
    { intros t x Ht Hscalar Hx Hhigh Hres.
      destruct (scanstring t) as [[str0 rest0]|] eqn:Et; [ | discriminate ].
      injection Hres as <- <-.
      destruct (IH t str0 rest0 ltac:(lia) Hscalar Et) as (F0 & N0 & R0).
      split; [now constructor | split; [ | assumption ]].
      cbn [no_split_pair]. rewrite N0, andb_true_r.
      destruct str0 as [|d str1]; [reflexivity|].
      destruct (is_high_surrogate x) eqn:Eh; [ | reflexivity ].
      destruct (is_low_surrogate d) eqn:El; [ | reflexivity ].
      rewrite (scanstring_head_low t (d :: str1) rest0 Hscalar Et El) in Hhigh.
      now specialize (Hhigh eq_refl). }
    destruct s as [|c r]; [discriminate|]. cbn [scanstring] in H. cbn [length] in *.
    pose proof (Forall_inv Hs) as Hc.
    destruct (c =? 34).
    { injection H as <- <-. split; [constructor | split; [reflexivity|]].
      exact (Forall_drop scalar 1 _ Hs). }
    destruct (c =? 92).
    + destruct r as [|esc r1]; [discriminate|]. cbn [length] in *.
      destruct (esc =? 117).
      * destruct r1 as [|h1 [|h2 [|h3 [|h4 r2]]]]; try discriminate. cbn [length] in *.
        destruct (hex4_value h1 h2 h3 h4) as [uni|] eqn:Eu; [ | discriminate ].
        pose proof (hex4_value_bound _ _ _ _ _ Eu) as Hu.
        assert (Hcp : is_codepoint uni) by (unfold is_codepoint; lia).
        pose proof (Forall_drop scalar 6 _ Hs) as Hr2. cbn [skipn] in Hr2.
        destruct (is_high_surrogate uni) eqn:Eh.
        -- assert (Hlone : low_escape_head r2 = false ->
                     match scanstring r2 with
                     | Some (str0, rest0) => Some (uni :: str0, rest0)
                     | None => None
                     end = Some (str, rest) ->
                     Forall is_codepoint str /\ no_split_pair str = true /\ Forall scalar rest).
           { intros Hno Hres. apply (Hrec r2 uni); auto. lia. }
           destruct r2 as [|b [|c2 r3]]; try (apply Hlone; [reflexivity | exact H]).
           destruct ((b =? 92) && (c2 =? 117)) eqn:Ebc.
           ++ destruct r3 as [|g1 [|g2 [|g3 [|g4 r4]]]]; try discriminate.
              destruct (hex4_value g1 g2 g3 g4) as [uni2|] eqn:Eu2; [ | discriminate ].
              destruct (is_low_surrogate uni2) eqn:El.
              ** pose proof (joined_pair uni uni2 Eh El) as Hj.
                 apply (Hrec r4 _) in H; [exact H | cbn [length]; lia | | | ].
                 --- exact (Forall_drop scalar 6 _ Hr2).
                 --- unfold is_codepoint. lia.
                 --- intros Hhigh. rewrite not_high in Hhigh by lia. discriminate.
              ** apply Hlone; [ | exact H ].
                 cbn [low_escape_head]. rewrite Ebc, Eu2, El. reflexivity.
           ++ apply Hlone; [ | exact H ].
              destruct r3 as [|g1 [|g2 [|g3 [|g4 r4]]]]; try reflexivity.
              cbn [low_escape_head]. rewrite Ebc. reflexivity.
        -- apply (Hrec r2 uni) in H; auto; [lia | congruence].
      * destruct (unescape esc) as [ch|] eqn:Ee; [ | discriminate ].
        pose proof (unescape_plain _ _ Ee) as Hch.
        apply (Hrec r1 ch) in H; [exact H | lia | | | ].
        -- exact (Forall_drop scalar 2 _ Hs).
        -- unfold is_codepoint. lia.
        -- intros Hhigh. rewrite not_high in Hhigh by lia. discriminate.
    + destruct (c <? 32); [discriminate|].
      apply (Hrec r c) in H; [exact H | lia | | | ].
      * exact (Forall_drop scalar 1 _ Hs).
      * now apply scalar_codepoint.
      * intros Hhigh. rewrite (scalar_not_high c Hc) in Hhigh. discriminate.
Qed.

(** What the parsers leave is a part of what they were given. *)
Lemma skip_ws_keeps (P : codepoint -> Prop) (s : pystr) :
  Forall P s -> Forall P (skip_ws s).
Proof.
  induction s as [|c r IH]; intros H; [exact H|]. cbn [skip_ws].
  destruct (is_ws c); [apply IH; now apply Forall_inv_tail in H | exact H].
Qed.

Lemma strip_prefix_keeps (P : codepoint -> Prop) (p : pystr) : forall s rest,
  strip_prefix p s = Some rest -> Forall P s -> Forall P rest.
Proof.
  induction p as [|x p IH]; intros s rest H Hs.
  - destruct s; injection H as <-; exact Hs.
  - destruct s as [|c s]; [discriminate|]. cbn [strip_prefix] in H.
    destruct (x =? c); [ | discriminate ].
    apply (IH s rest H). now apply Forall_inv_tail in Hs.
Qed.

Lemma span_digits_keeps (P : codepoint -> Prop) (s : pystr) :
  Forall P s -> Forall P (snd (span_digits s)).
Proof.
  induction s as [|c r IH]; intros H; [constructor|]. cbn [span_digits].
  destruct (is_digit c); [ | exact H ].
  apply Forall_inv_tail in H. specialize (IH H).
  destruct (span_digits r) as [ds rest]. exact IH.
Qed.

Lemma match_integer_keeps (P : codepoint -> Prop) (s ds rest : pystr) :
  match_integer s = Some (ds, rest) -> Forall P s -> Forall P rest.
Proof.
  destruct s as [|c r]; [discriminate|]. cbn [match_integer]. intros H Hs.
  destruct (c =? 48).
  - injection H as _ <-. now apply Forall_inv_tail in Hs.
  - destruct (is_digit c); [ | discriminate ].
    pose proof (span_digits_keeps P (c :: r) Hs) as Hk. revert H Hk.
    destruct (span_digits (c :: r)) as [ds' rest']. cbn [snd].
    intros H Hk. injection H as _ <-. exact Hk.
Qed.

Lemma match_frac_keeps (P : codepoint -> Prop) (s : pystr) :
  Forall P s -> Forall P (snd (match_frac s)).
Proof.
  destruct s as [|c r]; intros Hs; [exact Hs|]. cbn [match_frac].
  destruct (c =? 46); [ | exact Hs ].
  pose proof (span_digits_keeps P r (Forall_inv_tail Hs)) as Hk.
  destruct (span_digits r) as [[|d ds] rest]; [exact Hs | exact Hk].
Qed.

Lemma match_exp_keeps (P : codepoint -> Prop) (s : pystr) :
  Forall P s -> Forall P (snd (match_exp s)).
Proof.
  destruct s as [|c r]; intros Hs; [exact Hs|]. cbn [match_exp].
  destruct ((c =? 101) || (c =? 69)); [ | exact Hs ].
  pose proof (Forall_inv_tail Hs) as Hr.
  assert (Hr1 : forall neg r1,
            match r with
            | sg :: r' =>
              if sg =? 45 then (true, r') else if sg =? 43 then (false, r') else (false, r)
            | [] => (false, r)
            end = (neg, r1) -> Forall P r1).
  { intros neg r1 E. destruct r as [|sg r']; [injection E as _ <-; exact Hr|].
    destruct (sg =? 45); [injection E as _ <-; now apply Forall_inv_tail in Hr|].
    destruct (sg =? 43); [injection E as _ <-; now apply Forall_inv_tail in Hr|].
    injection E as _ <-. exact Hr. }
  destruct (match r with [] => _ | _ => _ end) as [neg r1].
  pose proof (span_digits_keeps P r1 (Hr1 neg r1 eq_refl)) as Hk.
  destruct (span_digits r1) as [[|d ds] rest]; [exact Hs | exact Hk].
Qed.

Lemma match_number_keeps (P : codepoint -> Prop) (s : pystr) (nm : number_match)
    (rest : pystr) :
  match_number s = Some (nm, rest) -> Forall P s -> Forall P rest.
Proof.
  unfold match_number. intros H Hs.
  assert (Hs1 : forall neg s1,
            match s with
            | c :: r => if c =? 45 then (true, r) else (false, s)
            | [] => (false, s)
            end = (neg, s1) -> Forall P s1).
  { intros neg s1 E. destruct s as [|c r]; [injection E as _ <-; exact Hs|].
    destruct (c =? 45); injection E as _ <-; [now apply Forall_inv_tail in Hs | exact Hs]. }
  destruct (match s with [] => _ | _ => _ end) as [neg s1].
  specialize (Hs1 neg s1 eq_refl).
  destruct (match_integer s1) as [[int_digits s2]|] eqn:Ei; [ | discriminate ].
  pose proof (match_integer_keeps P _ _ _ Ei Hs1) as Hs2.
  pose proof (match_frac_keeps P s2 Hs2) as Hs3.
  destruct (match_frac s2) as [frac s3]. cbn [snd] in Hs3.
  pose proof (match_exp_keeps P s3 Hs3) as Hs4.
  destruct (match_exp s3) as [ex s4]. cbn [snd] in Hs4.
  injection H as _ <-. exact Hs4.
Qed.

(** ** Objects *)

Lemma existsb_dict_set (x k : pystr) (v : pyvalue) (d : list (pystr * pyvalue)) :
  existsb (pystr_eqb x) (map fst (dict_set d k v))
  = existsb (pystr_eqb x) (map fst d) || pystr_eqb x k.
Proof.
  induction d as [|[k1 v1] d IH]; cbn [dict_set map fst existsb].
  - now rewrite orb_false_r.
  - destruct (pystr_eqb k k1) eqn:E; cbn [map fst existsb].
    + apply pystr_eqb_eq in E. subst k1.
      destruct (pystr_eqb x k), (existsb (pystr_eqb x) (map fst d)); reflexivity.
    + rewrite IH. now rewrite orb_assoc.
Qed.

Lemma pystr_eqb_sym (a b : pystr) : pystr_eqb a b = pystr_eqb b a.
Proof.
  destruct (pystr_eqb a b) eqn:E1, (pystr_eqb b a) eqn:E2; try reflexivity.
  - apply pystr_eqb_eq in E1. subst b.
    assert (H : pystr_eqb a a = true) by now apply pystr_eqb_eq. congruence.
  - apply pystr_eqb_eq in E2. subst b.
    assert (H : pystr_eqb a a = true) by now apply pystr_eqb_eq. congruence.
Qed.

(** [d[k] = v] keeps the keys distinct. *)
Lemma dict_set_distinct (d : list (pystr * pyvalue)) (k : pystr) (v : pyvalue) :
  distinct (map fst d) = true -> distinct (map fst (dict_set d k v)) = true.
Proof.
  induction d as [|[k1 v1] d IH]; cbn [dict_set map fst distinct]; intros H; [reflexivity|].
  apply andb_true_iff in H. destruct H as [H1 H2].
  destruct (pystr_eqb k k1) eqn:E; cbn [map fst distinct].
  - apply pystr_eqb_eq in E. subst k1. now rewrite H1, H2.
  - rewrite existsb_dict_set. apply negb_true_iff in H1. rewrite H1.
    rewrite (pystr_eqb_sym k1 k), E. cbn [orb negb andb]. now apply IH.
Qed.

Lemma dict_set_pairs (P : pystr * pyvalue -> Prop) (d : list (pystr * pyvalue))
    (k : pystr) (v : pyvalue) :
  Forall P d -> P (k, v) -> Forall P (dict_set d k v).
Proof.
  induction d as [|[k1 v1] d IH]; cbn [dict_set]; intros Hd Hkv.
  - now constructor.
  - destruct (pystr_eqb k k1).
    + constructor; [assumption | now apply Forall_inv_tail in Hd].
    + constructor; [now apply Forall_inv in Hd | apply IH; [now apply Forall_inv_tail in Hd | assumption]].
Qed.

Lemma dict_of_pairs_invariant (P : pystr * pyvalue -> Prop) (pairs : list (pystr * pyvalue)) :
  forall acc,
    Forall P pairs -> Forall P acc -> distinct (map fst acc) = true ->
    Forall P (fold_left (fun d kv => dict_set d (fst kv) (snd kv)) pairs acc) /\
    distinct (map fst (fold_left (fun d kv => dict_set d (fst kv) (snd kv)) pairs acc)) = true.
Proof.
  induction pairs as [|[k v] pairs IH]; intros acc Hp Ha Hd; cbn [fold_left fst snd].
  - now split.
  - apply IH.
    + now apply Forall_inv_tail in Hp.
    + apply dict_set_pairs; [assumption | now apply Forall_inv in Hp].
    + now apply dict_set_distinct.
Qed.

Lemma well_formed_list (l : list pyvalue) : Forall well_formed l -> well_formed (PyList l).
Proof.
  unfold well_formed. cbn [python_value no_split_surrogates]. intros H.
  split; apply forallb_forall; intros x Hx; rewrite Forall_forall in H;
    now destruct (H x Hx).
Qed.

Lemma well_formed_dict (d : list (pystr * pyvalue)) :
  Forall well_formed_pair d -> distinct (map fst d) = true -> well_formed (PyDict d).
Proof.
  unfold well_formed. cbn [python_value no_split_surrogates]. intros H Hd.
  rewrite Hd. cbn [andb]. rewrite Forall_forall in H.
  split; apply forallb_forall; intros kv Hkv;
    destruct (H kv Hkv) as (Hk & Hn & Hv & Hs); apply andb_true_iff; now split.
Qed.

Lemma well_formed_dict_of_pairs (pairs : list (pystr * pyvalue)) :
  Forall well_formed_pair pairs -> well_formed (PyDict (dict_of_pairs pairs)).
Proof.
  intros H. unfold dict_of_pairs.
  destruct (dict_of_pairs_invariant well_formed_pair pairs [] H (Forall_nil _) eq_refl)
    as [Hp Hd].
  now apply well_formed_dict.
Qed.

Lemma Forall_is_codepointb (s : pystr) :
  Forall is_codepoint s -> forallb is_codepointb s = true.
Proof.
  intros H. apply forallb_forall. rewrite Forall_forall in H. intros c Hc.
  specialize (H c Hc). unfold is_codepoint in H. unfold is_codepointb.
  apply andb_true_iff. split; [apply Z.leb_le | apply Z.ltb_lt]; lia.
Qed.

Lemma reads_well_map {A B : Type} (P : A -> Prop) (Q : B -> Prop) (f : A -> B)
    (r : parse A) :
  (forall a, P a -> Q (f a)) -> reads_well P r ->
  reads_well Q match r with
               | Parsed a rest => Parsed (f a) rest
               | Malformed => Malformed
               | OutOfFuel => OutOfFuel
               end.
Proof.
  intros Hf. destruct r as [a rest | |]; cbn [reads_well]; [ | trivial | trivial ].
  intros [Ha Hr]. split; [now apply Hf | assumption].
Qed.

(** The literals and the numbers. *)
Lemma scan_once_leaf_well_formed (s : pystr) :
  Forall scalar s ->
  reads_well well_formed
    match strip_prefix (u "null") s, strip_prefix (u "true") s, strip_prefix (u "false") s with
    | Some rest, _, _ => Parsed PyNone rest
    | _, Some rest, _ => Parsed (PyBool true) rest
    | _, _, Some rest => Parsed (PyBool false) rest
    | None, None, None =>
      match match_number s with
      | Some (m, rest) => Parsed (number_value m) rest
      | None =>
        match strip_prefix (u "NaN") s, strip_prefix (u "Infinity") s,
              strip_prefix (u "-Infinity") s with
        | Some rest, _, _ => Parsed (PyFloat S754_nan) rest
        | _, Some rest, _ => Parsed (PyFloat (S754_infinity false)) rest
        | _, _, Some rest => Parsed (PyFloat (S754_infinity true)) rest
        | None, None, None => Malformed
        end
      end
    end.
Proof.
  intros Hs.
  assert (Hp : forall p rest, strip_prefix p s = Some rest -> Forall scalar rest)
    by (intros p rest E; exact (strip_prefix_keeps scalar p s rest E Hs)).
  destruct (strip_prefix (u "null") s) eqn:E1;
    [cbn [reads_well]; split; [now split | eauto]|].
  destruct (strip_prefix (u "true") s) eqn:E2;
    [cbn [reads_well]; split; [now split | eauto]|].
  destruct (strip_prefix (u "false") s) eqn:E3;
    [cbn [reads_well]; split; [now split | eauto]|].
  destruct (match_number s) as [[m rest]|] eqn:Em.
  { cbn [reads_well]. split; [ | exact (match_number_keeps scalar s m rest Em Hs) ].
    split; [apply number_value_python|].
    unfold number_value. destruct (nm_frac m), (nm_exp m); reflexivity. }
  destruct (strip_prefix (u "NaN") s) eqn:E4;
    [cbn [reads_well]; split; [now split | eauto]|].
  destruct (strip_prefix (u "Infinity") s) eqn:E5;
    [cbn [reads_well]; split; [now split | eauto]|].
  destruct (strip_prefix (u "-Infinity") s) eqn:E6;
    [cbn [reads_well]; split; [now split | eauto]|].
  exact I.
Qed.

(** Every value the decoder reads from a text without surrogates is a
    value of Python's own types, with no split surrogate pair. *)
Lemma decoder_well_formed (fuel : nat) :
  (forall s, Forall scalar s -> reads_well well_formed (scan_once fuel s)) /\
  (forall s, Forall scalar s -> reads_well (Forall well_formed) (array_items fuel s)) /\
  (forall s, Forall scalar s -> reads_well (Forall well_formed_pair) (object_items fuel s)).
Proof.
  induction fuel as [|fuel (IHscan & IHarray & IHobject)].
  - repeat split; intros s Hs; exact I.
  - split; [|split]; intros s Hs.
    + (* scan_once *)
      cbn [scan_once]. destruct s as [|c r]; [exact I|].
      pose proof (Forall_inv_tail Hs) as Hr.
      destruct (c =? 34).
      { destruct (scanstring r) as [[str rest]|] eqn:E; [ | exact I ].
        destruct (scanstring_well_formed (length r) r str rest (Nat.le_refl _) Hr E)
          as (Hcp & Hns & Hrest).
        cbn [reads_well]. split; [ | assumption ].
        split; [now apply Forall_is_codepointb | assumption]. }
      destruct (c =? 123).
      { pose proof (skip_ws_keeps scalar r Hr) as Hw.
        destruct (skip_ws r) as [|c1 r1]; [exact I|].
        pose proof (Forall_inv_tail Hw) as Hr1.
        destruct (c1 =? 125); [cbn [reads_well]; split; [now split | assumption]|].
        destruct (c1 =? 34); [ | exact I ].
        apply (reads_well_map (Forall well_formed_pair) well_formed
                 (fun pairs => PyDict (dict_of_pairs pairs))).
        - apply well_formed_dict_of_pairs.
        - now apply IHobject. }
      destruct (c =? 91).
      { pose proof (skip_ws_keeps scalar r Hr) as Hw.
        destruct (skip_ws r) as [|c1 r1]; [exact I|].
        destruct (c1 =? 93);
          [cbn [reads_well]; split; [now split | now apply Forall_inv_tail in Hw]|].
        apply (reads_well_map (Forall well_formed) well_formed PyList).
        - apply well_formed_list.
        - now apply IHarray. }
      now apply scan_once_leaf_well_formed.
    + (* array_items *)
      cbn [array_items].
      pose proof (IHscan s Hs) as Hv.
      destruct (scan_once fuel s) as [v rest | |]; [ | exact I | exact I ].
      destruct Hv as [Hv Hrest].
      pose proof (skip_ws_keeps scalar rest Hrest) as Hw.
      destruct (skip_ws rest) as [|c r]; [exact I|].
      pose proof (Forall_inv_tail Hw) as Hr.
      destruct (c =? 93); [cbn [reads_well]; split; [now constructor | assumption]|].
      destruct (c =? 44); [ | exact I ].
      apply (reads_well_map (Forall well_formed) (Forall well_formed) (cons v)).
      * intros items Hitems. now constructor.
      * apply IHarray. now apply skip_ws_keeps.
    + (* object_items *)
      cbn [object_items].
      destruct (scanstring s) as [[key rest]|] eqn:Ekey; [ | exact I ].
      destruct (scanstring_well_formed (length s) s key rest (Nat.le_refl _) Hs Ekey)
        as (Hcp & Hns & Hrest).
      pose proof (skip_ws_keeps scalar rest Hrest) as Hw.
      destruct (skip_ws rest) as [|c r]; [exact I|].
      pose proof (Forall_inv_tail Hw) as Hr.
      destruct (c =? 58); [ | exact I ].
      pose proof (IHscan (skip_ws r) (skip_ws_keeps scalar r Hr)) as Hv.
      destruct (scan_once fuel (skip_ws r)) as [v rest1 | |]; [ | exact I | exact I ].
      destruct Hv as [Hv Hrest1].
      assert (Hkv : well_formed_pair (key, v)).
      { split; [now apply Forall_is_codepointb | split; assumption]. }
      pose proof (skip_ws_keeps scalar rest1 Hrest1) as Hw1.
      destruct (skip_ws rest1) as [|c1 r1]; [exact I|].
      pose proof (Forall_inv_tail Hw1) as Hr1.
      destruct (c1 =? 125); [cbn [reads_well]; split; [now constructor | assumption]|].
      destruct (c1 =? 44); [ | exact I ].
      pose proof (skip_ws_keeps scalar r1 Hr1) as Hw2.
      destruct (skip_ws r1) as [|c2 r2]; [exact I|].
      destruct (c2 =? 34); [ | exact I ].
      apply (reads_well_map (Forall well_formed_pair) (Forall well_formed_pair)
               (cons (key, v))).
      * intros pairs Hpairs. now constructor.
      * apply IHobject. now apply Forall_inv_tail in Hw2.
Qed.

(** [json.loads] of a text without surrogates. *)
Lemma json_loads_well_formed (s : pystr) (v : pyvalue) :
  unicode_text s = true -> json_loads s = Some v -> well_formed v.
Proof.
  intros Hs. apply unicode_text_scalar in Hs. unfold json_loads.
  pose proof (proj1 (decoder_well_formed (2 * length s + 1)) (skip_ws s)
                (skip_ws_keeps scalar s Hs)) as H.
  destruct (scan_once (2 * length s + 1) (skip_ws s)) as [v' rest | |]; try discriminate.
  destruct H as [Hv _]. destruct (skip_ws rest); [ | discriminate ].
  intros E. injection E as <-. exact Hv.
Qed.

(** ** From the response body to the tool's text *)

Section Pipeline.

Variable client_get : pystr -> list (pystr * pystr) -> spec_float -> py response.
Variable is_error_status : Z -> bool.

Local Abbreviation fetch := (make_openmeteo_request client_get is_error_status).
Local Abbreviation current_weather := (get_current_weather client_get is_error_status).

(** What the fetcher returns is [None] or the document of the body. *)
Lemma fetch_outcome (url : pystr) (data : pyvalue) :
  fetch url = Return data ->
  data = PyNone \/
  exists r, client_get url REQUEST_HEADERS timeout_seconds = Return r /\
            is_error_status (status_code r) = false /\
            json_loads (content r) = Some data.
Proof.
  unfold make_openmeteo_request, REQUEST_HEADERS.
  destruct (client_get url _ timeout_seconds) as [r | e]; cbn [bind try_except].
  - unfold raise_for_status, response_json.
    destruct (is_error_status (status_code r)) eqn:Es; cbn [bind try_except].
    + intros H. injection H as <-. now left.
    + destruct (json_loads (content r)) as [document|] eqn:Ej; cbn [try_except];
        intros H; injection H as <-; [right | now left].
      exists r. auto.
  - intros H. injection H as <-. now left.
Qed.

(** X9: when the body of the response is text without surrogates (what
    decoding UTF-8 gives), the document the fetcher returns is a value of
    Python's own types: every float is a binary64 number, every string
    holds code points, the keys of every object are distinct, and no
    string holds a high surrogate directly followed by a low one. *)
Theorem fetched_document_well_formed (url : pystr) (data : pyvalue) :
  (forall r, client_get url REQUEST_HEADERS timeout_seconds = Return r ->
             unicode_text (content r) = true) ->
  fetch url = Return data ->
  python_value data = true /\ no_split_surrogates data = true.
Proof.
  intros Htext Hfetch.
  destruct (fetch_outcome url data Hfetch) as [-> | (r & Hr & _ & Hj)]; [now split|].
  exact (json_loads_well_formed (content r) data (Htext r Hr) Hj).
Qed.

(** X10: whatever the server answers, as long as the body is text without
    surrogates: the text [get_current_weather] returns is the fallback
    string, or it is JSON that reads back as the very document the body
    of the response held. *)
Theorem get_current_weather_text_reads_back (latitude longitude : spec_float) (text : pystr) :
  (forall r, client_get (current_weather_url latitude longitude) REQUEST_HEADERS
               timeout_seconds = Return r ->
             unicode_text (content r) = true) ->
  current_weather latitude longitude = Return text ->
  text = current_weather_fallback \/
  exists r data,
    client_get (current_weather_url latitude longitude) REQUEST_HEADERS timeout_seconds
    = Return r /\
    json_loads (content r) = Some data /\
    json_loads text = Some data.
Proof.
  intros Htext Hreturn.
  destruct (fetch_returns client_get is_error_status
              (current_weather_url latitude longitude)) as (data & Hfetch).
  rewrite (get_current_weather_fetched _ _ _ _ _ Hfetch) in Hreturn.
  destruct (truthy data) eqn:Et; cbn [negb] in Hreturn; injection Hreturn as <-;
    [right | now left].
  destruct (fetch_outcome _ _ Hfetch) as [-> | (r & Hr & _ & Hj)]; [discriminate|].
  exists r, data. split; [assumption | split; [assumption|]].
  destruct (json_loads_well_formed (content r) data (Htext r Hr) Hj) as [Hv Hs].
  now apply json_loads_dumps.
Qed.

End Pipeline.

(** The fallback string is no JSON text. *)
Lemma fallback_is_not_json : json_loads current_weather_fallback = None.
Proof. vm_compute. reflexivity. Qed.

(** X11: the text of [get_current_weather] is a fixed point of the tool:
    a server that answers with that text (and a status that is no error)
    makes the tool return the same text again, the fallback string
    included.  The body of the first response is text without
    surrogates. *)
Theorem get_current_weather_idempotent
    (client_get : pystr -> list (pystr * pystr) -> spec_float -> py response)
    (is_error_status is_error_status' : Z -> bool)
    (latitude longitude latitude' longitude' : spec_float)
    (status : Z) (text : pystr) :
  (forall r, client_get (current_weather_url latitude longitude) REQUEST_HEADERS
               timeout_seconds = Return r ->
             unicode_text (content r) = true) ->
  get_current_weather client_get is_error_status latitude longitude = Return text ->
  is_error_status' status = false ->
  get_current_weather (answering status text) is_error_status' latitude' longitude'
  = Return text.
Proof.
  intros Htext Hreturn Hstatus.
  destruct (fetch_returns client_get is_error_status
              (current_weather_url latitude longitude)) as (data & Hfetch).
  rewrite (get_current_weather_fetched _ _ _ _ _ Hfetch) in Hreturn.
  unfold get_current_weather, make_openmeteo_request, answering.
  cbn [bind]. unfold raise_for_status. cbn [status_code]. rewrite Hstatus.
  cbn [bind]. unfold response_json. cbn [content].
  destruct (truthy data) eqn:Et; cbn [negb] in Hreturn; injection Hreturn as <-.
  - destruct (fetch_outcome _ _ _ _ Hfetch) as [-> | (r & Hr & _ & Hj)]; [discriminate|].
    destruct (json_loads_well_formed (content r) data (Htext r Hr) Hj) as [Hv Hs].
    rewrite (json_loads_dumps data Hv Hs). cbn [try_except bind]. now rewrite Et.
  - change (u "Unable to fetch current weather data for this location.")
      with current_weather_fallback.
    rewrite fallback_is_not_json. reflexivity.
Qed.

Lemma sample_server_text (url : pystr) (r : response) :
  sample_server url REQUEST_HEADERS timeout_seconds = Return r ->
  unicode_text (content r) = true.
Proof.
  intros H. injection H as <-. vm_compute. reflexivity.
Qed.

Lemma fetched_document_well_formed_witness :
  python_value sample_forecast = true /\ no_split_surrogates sample_forecast = true.
Proof.
  apply (fetched_document_well_formed sample_server not_2xx
           (forecast_url berlin_latitude berlin_longitude) sample_forecast).
  - apply sample_server_text.
  - exact sample_fetch.
Defined.

Lemma get_current_weather_text_reads_back_witness :
  json_dumps 2 sample_forecast = current_weather_fallback \/
  exists r data,
    sample_server (current_weather_url berlin_latitude berlin_longitude) REQUEST_HEADERS
      timeout_seconds = Return r /\
    json_loads (content r) = Some data /\
    json_loads (json_dumps 2 sample_forecast) = Some data.
Proof.
  apply (get_current_weather_text_reads_back sample_server not_2xx
           berlin_latitude berlin_longitude (json_dumps 2 sample_forecast)).
  - apply sample_server_text.
  - vm_compute. reflexivity.
Defined.

Lemma get_current_weather_idempotent_witness :
  get_current_weather (answering 200 (json_dumps 2 sample_forecast)) not_2xx
    berlin_longitude berlin_latitude
  = Return (json_dumps 2 sample_forecast).
Proof.
  apply (get_current_weather_idempotent sample_server not_2xx not_2xx
           berlin_latitude berlin_longitude berlin_longitude berlin_latitude
           200 (json_dumps 2 sample_forecast)).
  - apply sample_server_text.
  - vm_compute. reflexivity.
  - reflexivity.
Defined.

(** ** The characters of the texts *)

Lemma number_char_plain (c : codepoint) : is_number_char c = true -> is_plain c = true.
Proof.
  unfold is_number_char, is_plain, is_digit, mem_char. cbn [existsb]. intros H.
  apply orb_true_iff. left. apply andb_true_iff.
  repeat (apply orb_true_iff in H; destruct H as [H | H]);
    try discriminate;
    try (apply Z.eqb_eq in H; subst c; split; reflexivity).
  apply andb_true_iff in H. destruct H as [H1 H2].
  apply Z.leb_le in H1. apply Z.leb_le in H2.
  split; apply Z.leb_le; lia.
Qed.

Lemma number_text_plain (s : pystr) : number_text s = true -> plain_text s = true.
Proof.
  unfold number_text, plain_text. rewrite !forallb_forall.
  intros H c Hc. apply number_char_plain. now apply H.
Qed.

Lemma number_text_app (a b : pystr) :
  number_text a = true -> number_text b = true -> number_text (a ++ b) = true.
Proof.
  unfold number_text. intros Ha Hb. now rewrite forallb_app, Ha, Hb.
Qed.

Lemma plain_text_app (a b : pystr) :
  plain_text a = true -> plain_text b = true -> plain_text (a ++ b) = true.
Proof.
  unfold plain_text. intros Ha Hb. now rewrite forallb_app, Ha, Hb.
Qed.

Lemma number_text_digit_chars (ds : list Z) :
  Forall is_digit_value ds -> number_text (digit_chars ds) = true.
Proof.
  unfold number_text, digit_chars. intros H. apply forallb_forall. intros c Hc.
  apply in_map_iff in Hc. destruct Hc as (d & <- & Hd).
  rewrite Forall_forall in H. unfold is_number_char.
  now rewrite (is_digit_digit_char d (H d Hd)).
Qed.

Lemma number_text_zeros (k : Z) : number_text (zeros k) = true.
Proof.
  rewrite zeros_digit_chars. apply number_text_digit_chars. apply Forall_digit_zeros.
Qed.

Lemma number_text_nat_str (n : Z) : 0 <= n -> number_text (nat_str n) = true.
Proof.
  intros Hn. unfold nat_str. apply (number_text_digit_chars (decimal_digits n)).
  now apply decimal_digits_value.
Qed.

Lemma number_text_int_repr (n : Z) : number_text (int_repr n) = true.
Proof.
  unfold int_repr. destruct (Z.ltb_spec n 0).
  - change (45 :: nat_str (- n)) with ([45] ++ nat_str (- n)).
    apply number_text_app; [reflexivity | apply number_text_nat_str; lia].
  - now apply number_text_nat_str.
Qed.

Lemma Forall_take {A : Type} (P : A -> Prop) (k : nat) : forall l,
  Forall P l -> Forall P (firstn k l).
Proof.
  induction k as [|k IH]; intros l H; [constructor|].
  destruct l as [|x l]; [constructor|]. cbn [firstn].
  constructor; [now apply Forall_inv in H | apply IH; now apply Forall_inv_tail in H].
Qed.

Lemma number_text_format_float_short (ds : list Z) (decpt : Z) :
  Forall is_digit_value ds -> number_text (format_float_short ds decpt) = true.
Proof.
  intros H. unfold format_float_short.
  destruct ((-4 <? decpt) && (decpt <=? 16)).
  - destruct (decpt <=? 0); [ | destruct (Z.of_nat (length ds) <=? decpt) ].
    + apply (number_text_app (u "0.")); [reflexivity|].
      apply number_text_app; [apply number_text_zeros | now apply number_text_digit_chars].
    + apply number_text_app; [now apply number_text_digit_chars|].
      apply number_text_app; [apply number_text_zeros | reflexivity].
    + apply number_text_app; [apply number_text_digit_chars; now apply Forall_take|].
      apply (number_text_app (u ".")); [reflexivity|].
      apply number_text_digit_chars. now apply Forall_drop.
  - apply number_text_app; [apply number_text_digit_chars; now apply Forall_take|].
    apply number_text_app.
    { destruct (1 <? Z.of_nat (length ds)); [ | reflexivity ].
      apply (number_text_app (u ".")); [reflexivity|].
      apply number_text_digit_chars. now apply Forall_drop. }
    apply (number_text_app (u "e")); [reflexivity|].
    apply number_text_app; [destruct (decpt - 1 <? 0); reflexivity|].
    apply number_text_app; [destruct (Z.abs (decpt - 1) <? 10); reflexivity|].
    apply number_text_nat_str. lia.
Qed.

(** [repr] of a float is made of digits, signs, the point and the letters
    of [e], [inf] and [nan]. *)
Lemma number_text_float_repr (x : spec_float) : number_text (float_repr x) = true.
Proof.
  destruct x as [s | s | | s m e]; cbn [float_repr]; try (destruct s; reflexivity);
    try reflexivity.
  destruct (shortest_decimal_reads_back (Z.pos m) e ltac:(lia)) as [Hc _].
  destruct (shortest_decimal (Z.pos m) e) as [c p]. cbn [fst] in Hc.
  destruct (strip_trailing_zeros_spec c Hc) as (d & ds & z & Es & _ & _ & Hf & _).
  rewrite Es.
  apply number_text_app; [destruct s; reflexivity|].
  now apply number_text_format_float_short.
Qed.

Lemma plain_text_floatstr (x : spec_float) : plain_text (floatstr x) = true.
Proof.
  destruct x as [s | s | | s m e]; cbn [floatstr]; try (destruct s; reflexivity);
    try reflexivity.
  apply number_text_plain, number_text_float_repr.
Qed.

Lemma plain_text_hex (n : nat) : forall c, plain_text (hex n c) = true.
Proof.
  induction n as [|n IH]; intros c; [reflexivity|]. cbn [hex].
  apply plain_text_app; [apply IH|].
  unfold plain_text. cbn [forallb]. rewrite andb_true_r.
  pose proof (Z.mod_pos_bound c 16 ltac:(lia)) as Hd.
  unfold hex_digit, is_plain.
  destruct (Z.ltb_spec (c mod 16) 10); apply orb_true_iff; left;
    apply andb_true_iff; split; apply Z.leb_le; lia.
Qed.

(** The encoder escapes every character that is not printable ASCII. *)
Lemma plain_text_json_escape (c : codepoint) : plain_text (json_escape c) = true.
Proof.
  unfold json_escape.
  repeat match goal with
  | |- plain_text (if ?b then _ else _) = true =>
    destruct b eqn:?; [try reflexivity|]
  end.
  - unfold plain_text, is_plain. cbn [forallb].
    match goal with H : (32 <=? c) && (c <=? 126) = true |- _ => rewrite H end.
    reflexivity.
  - apply (plain_text_app (u "\u")); [reflexivity | apply plain_text_hex].
  - apply (plain_text_app (u "\u")); [reflexivity|].
    apply plain_text_app; [apply plain_text_hex|].
    apply (plain_text_app (u "\u")); [reflexivity | apply plain_text_hex].
Qed.

Lemma plain_text_encode_string (s : pystr) : plain_text (encode_string s) = true.
Proof.
  unfold encode_string. change (34 :: ?x) with ([34] ++ x).
  apply plain_text_app; [reflexivity|].
  apply plain_text_app; [ | reflexivity ].
  induction s as [|c s IH]; [reflexivity|]. cbn [flat_map].
  apply plain_text_app; [apply plain_text_json_escape | exact IH].
Qed.

Lemma plain_text_newline_indent (indent level : nat) :
  plain_text (newline_indent indent level) = true.
Proof.
  unfold newline_indent, plain_text. cbn [forallb]. cbn [is_plain Z.eqb Z.leb Z.compare orb andb].
  apply forallb_forall. intros c Hc. apply repeat_spec in Hc. now subst c.
Qed.

Lemma plain_text_join (sep : pystr) (parts : list pystr) :
  plain_text sep = true -> Forall (fun p => plain_text p = true) parts ->
  plain_text (join sep parts) = true.
Proof.
  intros Hsep. induction parts as [|p parts IH]; intros H; [reflexivity|].
  pose proof (Forall_inv H) as Hp. apply Forall_inv_tail in H.
  destruct parts as [|q parts]; [exact Hp|].
  rewrite join_cons2. apply plain_text_app; [assumption|].
  apply plain_text_app; [assumption | now apply IH].
Qed.

(** The text of [json.dumps]: printable ASCII and line breaks. *)
Lemma plain_text_iterencode (v : pyvalue) : forall indent level,
  plain_text (iterencode indent level v) = true.
Proof.
  induction v as [| b | n | x | s | l IH | d IH] using pyvalue_ind; intros indent level;
    cbn [iterencode].
  - reflexivity.
  - destruct b; reflexivity.
  - apply number_text_plain, number_text_int_repr.
  - apply plain_text_floatstr.
  - apply plain_text_encode_string.
  - destruct l as [|x l]; [reflexivity|].
    apply (plain_text_app (u "[")); [reflexivity|].
    apply plain_text_app; [apply plain_text_newline_indent|].
    apply plain_text_app; [ | apply plain_text_app;
                               [apply plain_text_newline_indent | reflexivity] ].
    apply plain_text_join.
    + apply (plain_text_app (u ",")); [reflexivity | apply plain_text_newline_indent].
    + apply Forall_forall. intros p Hp. apply in_map_iff in Hp.
      destruct Hp as (y & <- & Hy). rewrite Forall_forall in IH. now apply IH.
  - destruct d as [|kv d]; [reflexivity|].
    apply (plain_text_app (u "{")); [reflexivity|].
    apply plain_text_app; [apply plain_text_newline_indent|].
    apply plain_text_app; [ | apply plain_text_app;
                               [apply plain_text_newline_indent | reflexivity] ].
    apply plain_text_join.
    + apply (plain_text_app (u ",")); [reflexivity | apply plain_text_newline_indent].
    + apply Forall_forall. intros p Hp. apply in_map_iff in Hp.
      destruct Hp as (y & <- & Hy). rewrite Forall_forall in IH.
      apply plain_text_app; [apply plain_text_encode_string|].
      apply (plain_text_app (u ": ")); [reflexivity | now apply IH].
Qed.

(** X12: whatever the network does, [get_current_weather] returns, and
    its text is printable ASCII and line breaks only: [json.dumps]
    escapes every other character, and the fallback string is ASCII. *)
Theorem get_current_weather_plain_text
    (client_get : pystr -> list (pystr * pystr) -> spec_float -> py response)
    (is_error_status : Z -> bool) (latitude longitude : spec_float) :
  exists text,
    get_current_weather client_get is_error_status latitude longitude = Return text /\
    plain_text text = true.
Proof.
  destruct (fetch_returns client_get is_error_status
              (current_weather_url latitude longitude)) as (data & Hfetch).
  rewrite (get_current_weather_fetched _ _ _ _ _ Hfetch).
  destruct (negb (truthy data)); eexists; (split; [reflexivity|]).
  - vm_compute. reflexivity.
  - apply plain_text_iterencode.
Qed.

(** ** The request URLs *)

(** [repr] of a float that is no infinity and no NaN reads back as that
    float. *)
Lemma float_repr_reads (x : spec_float) :
  valid_double x = true ->
  match x with S754_infinity _ | S754_nan => False | _ => True end ->
  exists nm, match_number (float_repr x) = Some (nm, []) /\ number_value nm = PyFloat x.
Proof.
  intros Hx Hnum. destruct x as [s | s | | s m e]; try contradiction.
  - destruct (float_zero_reads_back s [] I) as (nm & Hm & Hv).
    rewrite app_nil_r in Hm. now exists nm.
  - destruct (float_repr_reads_back s m e [] Hx I) as (nm & Hm & Hv).
    rewrite app_nil_r in Hm. now exists nm.
Qed.

Lemma float_repr_special (x : spec_float) :
  match x with S754_infinity _ | S754_nan => True | _ => False end ->
  match_number (float_repr x) = None.
Proof.
  destruct x as [s | s | | s m e]; try contradiction; intros _;
    try destruct s; vm_compute; reflexivity.
Qed.

(** Two binary64 numbers with the same [repr] are the same number. *)
Lemma float_repr_injective (x y : spec_float) :
  valid_double x = true -> valid_double y = true ->
  float_repr x = float_repr y -> x = y.
Proof.
  intros Hx Hy E.
  assert (Hcases : forall z : spec_float,
            match z with S754_infinity _ | S754_nan => False | _ => True end \/
            match z with S754_infinity _ | S754_nan => True | _ => False end)
    by (intros [ | | | ]; tauto).
  destruct (Hcases x) as [Nx | Sx], (Hcases y) as [Ny | Sy].
  - destruct (float_repr_reads x Hx Nx) as (nm & Hm & Hv).
    destruct (float_repr_reads y Hy Ny) as (nm' & Hm' & Hv').
    rewrite E in Hm. rewrite Hm in Hm'. injection Hm' as <-. congruence.
  - destruct (float_repr_reads x Hx Nx) as (nm & Hm & _).
    rewrite E, (float_repr_special y Sy) in Hm. discriminate.
  - destruct (float_repr_reads y Hy Ny) as (nm & Hm & _).
    rewrite <- E, (float_repr_special x Sx) in Hm. discriminate.
  - destruct x as [s | s | | s m e]; try contradiction;
      destruct y as [s' | s' | | s' m' e']; try contradiction;
      try destruct s; try destruct s'; try reflexivity;
      vm_compute in E; discriminate.
Qed.

Lemma number_text_no_ampersand (s : pystr) : number_text s = true -> ~ In 38 s.
Proof.
  unfold number_text. rewrite forallb_forall. intros H Hin.
  specialize (H 38 Hin). discriminate.
Qed.

(** Two texts cut at their first ampersand. *)
Lemma split_at_ampersand (s1 : pystr) : forall s2 r1 r2,
  ~ In 38 s1 -> ~ In 38 s2 -> s1 ++ 38 :: r1 = s2 ++ 38 :: r2 -> s1 = s2 /\ r1 = r2.
Proof.
  induction s1 as [|c s1 IH]; intros s2 r1 r2 H1 H2 E.
  - destruct s2 as [|d s2]; cbn [app] in E.
    + injection E as <-. now split.
    + injection E as <- _. exfalso. apply H2. now left.
  - destruct s2 as [|d s2]; cbn [app] in E.
    + injection E as -> _. exfalso. apply H1. now left.
    + injection E as <- E.
      destruct (IH s2 r1 r2) as [<- <-]; [ | | assumption | now split ].
      * intros Hin. apply H1. now right.
      * intros Hin. apply H2. now right.
Qed.

Lemma coordinates_of_query (a b a' b' : spec_float) (tail : pystr) :
  valid_double a = true -> valid_double b = true ->
  valid_double a' = true -> valid_double b' = true ->
  float_repr a ++ u "&longitude=" ++ float_repr b ++ tail
  = float_repr a' ++ u "&longitude=" ++ float_repr b' ++ tail ->
  a = a' /\ b = b'.
Proof.
  intros Ha Hb Ha' Hb' E.
  assert (Hamp : u "&longitude=" = 38 :: u "longitude=") by (vm_compute; reflexivity).
  rewrite Hamp in E. cbn [app] in E.
  apply split_at_ampersand in E;
    try (apply number_text_no_ampersand, number_text_float_repr).
  destruct E as [Ea Eb]. apply app_inv_head in Eb. apply app_inv_tail in Eb.
  split; now apply float_repr_injective.
Qed.

(** X13: the coordinates are written into the URLs without loss: two
    pairs of binary64 coordinates that give the same forecast URL, or the
    same current-weather URL, are the same pair ([repr] writes a float
    with the digits that read back as that float). *)
Theorem request_urls_injective (a b a' b' : spec_float) :
  valid_double a = true -> valid_double b = true ->
  valid_double a' = true -> valid_double b' = true ->
  forecast_url a b = forecast_url a' b' \/ current_weather_url a b = current_weather_url a' b' ->
  a = a' /\ b = b'.
Proof.
  intros Ha Hb Ha' Hb' [E | E]; unfold forecast_url, current_weather_url in E;
    apply app_inv_head in E; apply app_inv_head in E;
    now apply coordinates_of_query in E.
Qed.

Lemma request_urls_injective_witness :
  berlin_latitude = float_of_decimal false 52520 (-3) /\
  berlin_longitude = float_of_decimal false 134100 (-4).
Proof.
  apply (request_urls_injective berlin_latitude berlin_longitude
           (float_of_decimal false 52520 (-3)) (float_of_decimal false 134100 (-4)));
    try reflexivity.
  left. vm_compute. reflexivity.
Defined.

Lemma number_char_graphic (c : codepoint) : is_number_char c = true -> is_graphic c = true.
Proof.
  unfold is_number_char, is_graphic, is_digit, mem_char. cbn [existsb]. intros H.
  apply andb_true_iff.
  repeat (apply orb_true_iff in H; destruct H as [H | H]);
    try discriminate;
    try (apply Z.eqb_eq in H; subst c; split; reflexivity).
  apply andb_true_iff in H. destruct H as [H1 H2].
  apply Z.leb_le in H1. apply Z.leb_le in H2.
  split; apply Z.leb_le; lia.
Qed.

Lemma graphic_float_repr (x : spec_float) : forallb is_graphic (float_repr x) = true.
Proof.
  pose proof (number_text_float_repr x) as H. unfold number_text in H.
  rewrite forallb_forall in *. intros c Hc. apply number_char_graphic. now apply H.
Qed.

(** A character that no number is written with does not occur in [repr]
    of a float. *)
Lemma count_char_float_repr (c : codepoint) (x : spec_float) :
  is_number_char c = false -> count_char c (float_repr x) = 0%nat.
Proof.
  intros Hc. pose proof (number_text_float_repr x) as H. unfold number_text in H.
  unfold count_char. induction (float_repr x) as [|d s IH]; [reflexivity|].
  cbn [forallb] in H. apply andb_true_iff in H. destruct H as [Hd Hs].
  cbn [filter]. destruct (Z.eqb_spec c d) as [-> | _]; [congruence | now apply IH].
Qed.

(** X14: whatever the coordinates (NaN and the infinities included, which
    are written [nan] and [inf]), the two request URLs are printable
    ASCII without a space and keep their structure: one question mark,
    and the ampersands and equals signs of the parameters of the source
    line, five parameters for the forecast and three for the current
    weather.  A coordinate adds no delimiter. *)
Theorem request_urls_structure (latitude longitude : spec_float) :
  (forallb is_graphic (forecast_url latitude longitude) = true /\
   count_char 63 (forecast_url latitude longitude) = 1%nat /\
   count_char 38 (forecast_url latitude longitude) = 4%nat /\
   count_char 61 (forecast_url latitude longitude) = 5%nat) /\
  (forallb is_graphic (current_weather_url latitude longitude) = true /\
   count_char 63 (current_weather_url latitude longitude) = 1%nat /\
   count_char 38 (current_weather_url latitude longitude) = 2%nat /\
   count_char 61 (current_weather_url latitude longitude) = 3%nat).
Proof.
  unfold forecast_url, current_weather_url.
  repeat split;
    rewrite ?forallb_app, ?count_char_app, ?graphic_float_repr,
      ?(count_char_float_repr 63), ?(count_char_float_repr 38), ?(count_char_float_repr 61)
      by reflexivity;
    vm_compute; reflexivity.
Qed.

(** ** The payloads [get_forecast] formats *)

Section Formattable.

Variable isprintable : codepoint -> bool.
Variable client_get : pystr -> list (pystr * pystr) -> spec_float -> py response.
Variable is_error_status : Z -> bool.

Local Abbreviation fetch := (make_openmeteo_request client_get is_error_status).
Local Abbreviation forecast := (get_forecast isprintable client_get is_error_status).

Lemma getitem_int_indexable (v : pyvalue) (n i : nat) :
  indexable_to n v -> (i < n)%nat -> exists x, getitem_int v (Z.of_nat i) = Return x.
Proof.
  intros Hv Hi.
  assert (Hidx : forall len : nat, (n <= len)%nat ->
            (if Z.of_nat i <? 0 then Z.of_nat i + Z.of_nat len else Z.of_nat i) = Z.of_nat i /\
            (0 <=? Z.of_nat i) && (Z.of_nat i <? Z.of_nat len) = true).
  { intros len Hlen. split.
    - destruct (Z.ltb_spec (Z.of_nat i) 0); lia.
    - apply andb_true_iff. split; [apply Z.leb_le | apply Z.ltb_lt]; lia. }
  destruct v as [| b | k | x | s | l | d]; cbn [indexable_to] in Hv; try contradiction;
    cbn [getitem_int]; destruct (Hidx _ Hv) as [E1 E2]; rewrite E1, E2; eexists; reflexivity.
Qed.

Lemma getitem_int_returns (v x : pyvalue) (i : nat) :
  getitem_int v (Z.of_nat i) = Return x -> indexable_to (S i) v.
Proof.
  assert (Hidx : forall len : nat,
            (0 <=? (if Z.of_nat i <? 0 then Z.of_nat i + Z.of_nat len else Z.of_nat i))
            && ((if Z.of_nat i <? 0 then Z.of_nat i + Z.of_nat len else Z.of_nat i)
                <? Z.of_nat len) = true ->
            (S i <= len)%nat).
  { intros len H. destruct (Z.ltb_spec (Z.of_nat i) 0); [lia|].
    apply andb_true_iff in H. destruct H as [_ H]. apply Z.ltb_lt in H. lia. }
  destruct v as [| b | k | y | s | l | d]; cbn [getitem_int indexable_to];
    try discriminate.
  - destruct (_ && _) eqn:E; [intros _; now apply Hidx | discriminate].
  - destruct (_ && _) eqn:E; [intros _; now apply Hidx | discriminate].
Qed.

Lemma indexable_to_le (v : pyvalue) (n k : nat) :
  indexable_to n v -> (k <= n)%nat -> indexable_to k v.
Proof.
  destruct v; cbn [indexable_to]; try contradiction; lia.
Qed.

(** The block of day [i] is there exactly when [time] and the four value
    columns have an item [i]. *)
Lemma forecast_entry_returns (daily : pyvalue) (i : nat) :
  (exists block, forecast_entry isprintable daily (Z.of_nat i) = Return block) <->
  forall key, In key (u "time" :: VALUE_COLUMNS) ->
    exists column, getitem_str daily key = Return column /\ indexable_to (S i) column.
Proof.
  split.
  - intros (block & H) key Hin. unfold forecast_entry in H.
    assert (Hat : forall k,
              (exists x, daily_at daily k (Z.of_nat i) = Return x) ->
              exists column, getitem_str daily k = Return column /\ indexable_to (S i) column).
    { intros k (x & Hx). unfold daily_at in Hx.
      destruct (getitem_str daily k) as [column|]; cbn [bind] in Hx; [ | discriminate ].
      exists column. split; [reflexivity | now apply (getitem_int_returns column x)]. }
    destruct (daily_at daily (u "time") (Z.of_nat i)) as [x0|] eqn:E0;
      cbn [bind] in H; [ | discriminate ].
    destruct (daily_at daily (u "temperature_2m_max") (Z.of_nat i)) as [x1|] eqn:E1;
      cbn [bind] in H; [ | discriminate ].
    destruct (daily_at daily (u "temperature_2m_min") (Z.of_nat i)) as [x2|] eqn:E2;
      cbn [bind] in H; [ | discriminate ].
    destruct (daily_at daily (u "precipitation_sum") (Z.of_nat i)) as [x3|] eqn:E3;
      cbn [bind] in H; [ | discriminate ].
    destruct (daily_at daily (u "weathercode") (Z.of_nat i)) as [x4|] eqn:E4;
      cbn [bind] in H; [ | discriminate ].
    unfold VALUE_COLUMNS in Hin. cbn [map In] in Hin.
    destruct Hin as [<- | [<- | [<- | [<- | [<- | []]]]]]; apply Hat;
      [exists x0 | exists x1 | exists x2 | exists x3 | exists x4]; assumption.
  - intros Hall.
    assert (Hat : forall k, In k (u "time" :: VALUE_COLUMNS) ->
              exists x, daily_at daily k (Z.of_nat i) = Return x).
    { intros k Hk. destruct (Hall k Hk) as (column & Hc & Hi).
      unfold daily_at. rewrite Hc. cbn [bind].
      apply (getitem_int_indexable column (S i) i Hi). lia. }
    unfold forecast_entry.
    destruct (Hat (u "time") (or_introl eq_refl)) as (x0 & ->). cbn [bind].
    destruct (Hat (u "temperature_2m_max") (or_intror (or_introl eq_refl))) as (x1 & ->).
    cbn [bind].
    destruct (Hat (u "temperature_2m_min") (or_intror (or_intror (or_introl eq_refl))))
      as (x2 & ->).
    cbn [bind].
    destruct (Hat (u "precipitation_sum")
                (or_intror (or_intror (or_intror (or_introl eq_refl))))) as (x3 & ->).
    cbn [bind].
    destruct (Hat (u "weathercode")
                (or_intror (or_intror (or_intror (or_intror (or_introl eq_refl))))))
      as (x4 & ->).
    cbn [bind]. eexists. reflexivity.
Qed.

(** The loop returns exactly when every pass does. *)
Lemma forecast_entries_returns (daily : pyvalue) (idxs : list Z) :
  (exists blocks, forecast_entries isprintable daily idxs = Return blocks) <->
  forall i, In i idxs -> exists block, forecast_entry isprintable daily i = Return block.
Proof.
  induction idxs as [|i idxs IH]; cbn [forecast_entries].
  - split; [intros _ i [] | intros _; eexists; reflexivity].
  - split.
    + intros (blocks & H) j Hj.
      destruct (forecast_entry isprintable daily i) as [b|] eqn:E; cbn [bind] in H;
        [ | discriminate ].
      destruct (forecast_entries isprintable daily idxs) as [bs|] eqn:Es; cbn [bind] in H;
        [ | discriminate ].
      destruct Hj as [<- | Hj]; [eauto|].
      apply (proj1 IH); eauto.
    + intros Hall.
      destruct (Hall i (or_introl eq_refl)) as (b & ->). cbn [bind].
      destruct (proj2 IH (fun j Hj => Hall j (or_intror Hj))) as (bs & ->). cbn [bind].
      eexists. reflexivity.
Qed.

Lemma py_len_nat (v : pyvalue) (n : Z) :
  py_len v = Return n -> exists k : nat, n = Z.of_nat k.
Proof.
  destruct v; cbn [py_len]; try discriminate; intros H; injection H as <-; eexists; reflexivity.
Qed.

Lemma in_range (n i : nat) : (i < n)%nat -> In (Z.of_nat i) (range (Z.of_nat n)).
Proof.
  intros Hi. unfold range. rewrite Nat2Z.id. apply in_map. apply in_seq. lia.
Qed.

Lemma range_in (n : nat) (j : Z) :
  In j (range (Z.of_nat n)) -> exists i, j = Z.of_nat i /\ (i < n)%nat.
Proof.
  unfold range. rewrite Nat2Z.id. intros H. apply in_map_iff in H.
  destruct H as (i & <- & Hi). apply in_seq in Hi. exists i. split; [reflexivity | lia].
Qed.

Lemma format_forecast_returns (data : pyvalue) :
  (exists text, format_forecast isprintable data = Return text) <-> formattable data.
Proof.
  unfold format_forecast, formattable. split.
  - intros (text & H).
    destruct (getitem_str data (u "daily")) as [daily|] eqn:Ed; cbn [bind] in H;
      [ | discriminate ].
    destruct (getitem_str daily (u "time")) as [time|] eqn:Et; cbn [bind] in H;
      [ | discriminate ].
    destruct (py_len time) as [len|] eqn:El; cbn [bind] in H; [ | discriminate ].
    destruct (py_len_nat time len El) as (n & ->).
    exists daily, time, n.
    split; [reflexivity|]. split; [exact Et|]. split; [exact El|].
    destruct n as [|n]; [now left | right].
    destruct (forecast_entries isprintable daily (range (Z.of_nat (S n)))) as [blocks|] eqn:E;
      cbn [bind] in H; [ | discriminate ].
    pose proof (proj1 (forecast_entries_returns daily _) (ex_intro _ blocks E)
                  (Z.of_nat n) (in_range (S n) n (Nat.lt_succ_diag_r n))) as Hlast.
    pose proof (proj1 (forecast_entry_returns daily n) Hlast) as Hcols. clear Hlast.
    split.
    + destruct (Hcols (u "time") (or_introl eq_refl)) as (column & Hc & Hi).
      rewrite Et in Hc. injection Hc as <-. exact Hi.
    + intros key Hkey. apply Hcols. now right.
  - intros (daily & time & n & Hd & Ht & Hl & Hn).
    rewrite Hd. cbn [bind]. rewrite Ht. cbn [bind]. rewrite Hl. cbn [bind].
    assert (Hentries : exists blocks,
              forecast_entries isprintable daily (range (Z.of_nat n)) = Return blocks).
    { apply forecast_entries_returns. intros j Hj.
      destruct (range_in n j Hj) as (i & -> & Hi).
      destruct Hn as [-> | [Htime Hcols]]; [lia|].
      apply forecast_entry_returns. intros key [<- | Hkey].
      - exists time. split; [assumption|]. apply (indexable_to_le time n); [assumption | lia].
      - destruct (Hcols key Hkey) as (column & Hc & Hidx).
        exists column. split; [assumption|].
        apply (indexable_to_le column n); [assumption | lia]. }
    destruct Hentries as (blocks & ->). cbn [bind]. eexists. reflexivity.
Qed.

(** X15: the payloads on which [get_forecast] returns a text, exactly:
    the falsy ones (the fallback string), and those with a [daily] object
    whose [time] has a length [n] and, unless [n] is zero, holds [n]
    items by index, like each of the four value columns (a list or a
    string of [n] items at least).  On every other payload an exception
    leaves [get_forecast]. *)
Theorem get_forecast_returns_iff (latitude longitude : spec_float) (data : pyvalue) :
  fetch (forecast_url latitude longitude) = Return data ->
  ((exists text, forecast latitude longitude = Return text) <->
   falsy_document data \/ formattable data).
Proof.
  intros Hfetch. rewrite (get_forecast_fetched _ _ _ _ _ _ Hfetch).
  rewrite <- truthy_falsy_document, <- format_forecast_returns.
  destruct (truthy data); cbn [negb]; split.
  - intros H. now right.
  - intros [H | H]; [discriminate | exact H].
  - intros _. now left.
  - intros _. eexists. reflexivity.
Qed.

End Formattable.

Lemma get_forecast_returns_iff_witness :
  (exists text,
     get_forecast printable_latin1 (answering 200 (json_dumps 2 sample_text_columns)) not_2xx
       berlin_latitude berlin_longitude = Return text)
  <-> falsy_document sample_text_columns \/ formattable sample_text_columns.
Proof.
  apply (get_forecast_returns_iff printable_latin1
           (answering 200 (json_dumps 2 sample_text_columns)) not_2xx
           berlin_latitude berlin_longitude sample_text_columns).
  vm_compute. reflexivity.
Defined.

(** ** Which payloads the tools return on *)

(** Five list columns that cover the days are a payload [get_forecast]
    formats. *)
Lemma forecast_shaped_formattable (data : pyvalue) : forecast_shaped data -> formattable data.
Proof.
  intros (daily & c & Hdaily & (Ht & Hmax & Hmin & Hp & Hw) & (Lmax & Lmin & Lp & Lw)).
  exists daily, (PyList (col_time c)), (length (col_time c)).
  split; [assumption|]. split; [assumption|]. split; [reflexivity|].
  right. split; [apply Nat.le_refl|].
  intros key Hkey. unfold VALUE_COLUMNS in Hkey. cbn [map In] in Hkey.
  destruct Hkey as [<- | [<- | [<- | [<- | []]]]];
    [ exists (PyList (col_tmax c)) | exists (PyList (col_tmin c))
    | exists (PyList (col_precipitation c)) | exists (PyList (col_weathercode c)) ];
    split; assumption.
Qed.

Section ToolOutcomes.

Variable isprintable : codepoint -> bool.
Variable client_get : pystr -> list (pystr * pystr) -> spec_float -> py response.
Variable is_error_status : Z -> bool.

Local Abbreviation fetch := (make_openmeteo_request client_get is_error_status).
Local Abbreviation forecast := (get_forecast isprintable client_get is_error_status).
Local Abbreviation current_weather := (get_current_weather client_get is_error_status).

Lemma get_forecast_returns_when (latitude longitude : spec_float) (data : pyvalue) :
  fetch (forecast_url latitude longitude) = Return data ->
  ((exists text, forecast latitude longitude = Return text) <->
   falsy_document data \/ formattable data).
Proof.
  intros Hfetch. rewrite (get_forecast_fetched _ _ _ _ _ _ Hfetch).
  rewrite <- truthy_falsy_document, <- (format_forecast_returns isprintable).
  destruct (truthy data); cbn [negb]; split.
  - intros H. now right.
  - intros [H | H]; [discriminate | exact H].
  - intros _. now left.
  - intros _. eexists. reflexivity.
Qed.

Lemma get_forecast_raises_when (latitude longitude : spec_float) (data : pyvalue) (e : pyexc) :
  fetch (forecast_url latitude longitude) = Return data ->
  forecast latitude longitude = Raise e -> lookup_error e.
Proof.
  intros Hfetch. rewrite (get_forecast_fetched _ _ _ _ _ _ Hfetch).
  destruct (negb (truthy data)); [discriminate|].
  exact (format_forecast_raises isprintable client_get is_error_status data e).
Qed.

(** C4 (amended): [get_current_weather] returns a string whatever the
    fetcher returns.  [get_forecast] returns a string exactly when the
    payload is falsy (the fallback string) or has a [daily] object whose
    [time] has a length [n] and, unless [n] is zero, holds [n] items by
    index, like each of the four value columns (a list or a string of [n]
    items at least); it has no handler of its own, and on exactly the
    other payloads a [KeyError], an [IndexError] or a [TypeError] leaves
    it. *)
Theorem tools_return_or_raise (latitude longitude : spec_float) :
  (exists text, current_weather latitude longitude = Return text) /\
  (forall data,
     fetch (forecast_url latitude longitude) = Return data ->
     ((exists text, forecast latitude longitude = Return text) <->
      falsy_document data \/ formattable data) /\
     ((exists e, forecast latitude longitude = Raise e /\ lookup_error e) <->
      ~ (falsy_document data \/ formattable data))).
Proof.
  split.
  - destruct (fetch_returns client_get is_error_status
                (current_weather_url latitude longitude)) as (data & Hfetch).
    rewrite (get_current_weather_fetched _ _ _ _ _ Hfetch).
    destruct (negb (truthy data)); eexists; reflexivity.
  - intros data Hfetch.
    pose proof (get_forecast_returns_when latitude longitude data Hfetch) as Hreturns.
    split; [exact Hreturns|]. split.
    + intros (e & Hraise & _) Hshape.
      apply Hreturns in Hshape. destruct Hshape as (text & Htext).
      rewrite Htext in Hraise. discriminate.
    + intros Hshape.
      destruct (forecast latitude longitude) as [text | e] eqn:E.
      * exfalso. apply Hshape. apply Hreturns. now exists text.
      * exists e. split; [reflexivity|].
        now apply (get_forecast_raises_when latitude longitude data e Hfetch).
Qed.

End ToolOutcomes.

Lemma sample_no_daily_not_formattable :
  ~ (falsy_document sample_no_daily \/ formattable sample_no_daily).
Proof.
  intros [Hfalsy | (daily & time & n & Hdaily & _)].
  - apply truthy_falsy_document in Hfalsy. discriminate.
  - discriminate.
Qed.

Lemma tools_return_or_raise_witness :
  (exists text,
     get_current_weather sample_server not_2xx berlin_latitude berlin_longitude = Return text) /\
  (exists text,
     get_forecast printable_latin1 sample_server not_2xx berlin_latitude berlin_longitude
     = Return text) /\
  (exists e,
     get_forecast printable_latin1 (answering 200 (json_dumps 2 sample_no_daily)) not_2xx
       berlin_latitude berlin_longitude = Raise e /\ lookup_error e).
Proof.
  destruct (tools_return_or_raise printable_latin1 sample_server not_2xx
              berlin_latitude berlin_longitude) as [Hcurrent Hforecast].
  destruct (tools_return_or_raise printable_latin1
              (answering 200 (json_dumps 2 sample_no_daily)) not_2xx
              berlin_latitude berlin_longitude) as [_ Hno_daily].
  split; [exact Hcurrent|]. split.
  - apply (Hforecast sample_forecast sample_fetch). right.
    apply forecast_shaped_formattable. exact sample_is_forecast_shaped.
  - assert (Hfetch : make_openmeteo_request (answering 200 (json_dumps 2 sample_no_daily))
                       not_2xx (forecast_url berlin_latitude berlin_longitude)
                     = Return sample_no_daily) by (vm_compute; reflexivity).
    apply (Hno_daily sample_no_daily Hfetch). exact sample_no_daily_not_formattable.
Defined.

(** ** The model at sample inputs *)

(** [repr] of floats, as the interpreter prints them. *)
Example float_repr_samples :
  map float_repr
    [ float_of_decimal false 1 (-1); float_of_decimal false 1 23;
      float_of_decimal false 5 (-324); float_of_decimal false 17976931348623157 292;
      float_of_decimal false 1 16; float_of_decimal false 1 15;
      float_of_decimal false 1 (-4); float_of_decimal false 1 (-5);
      float_of_decimal true 725 (-2); float_of_decimal false 30000000000000004 (-17);
      float_of_decimal false 1 400; S754_nan; S754_zero true ]
  = map u [ "0.1"; "1e+23"; "5e-324"; "1.7976931348623157e+308";
            "1e+16"; "1000000000000000.0"; "0.0001"; "1e-05";
            "-7.25"; "0.30000000000000004"; "inf"; "nan"; "-0.0" ]%string.
Proof. vm_compute. reflexivity. Qed.

(** The text of [json.dumps(..., indent=2)]. *)
Example json_dumps_sample :
  json_dumps 2 (PyDict [ (u "a", PyList [PyInt 1; PyFloat (float_of_decimal false 25 (-1))]);
                         (u "é", PyNone); (u "b", PyDict []) ])
  = join nl [ u "{";
              u "  " ++ dq ++ u "a" ++ dq ++ u ": [";
              u "    1,";
              u "    2.5";
              u "  ],";
              u "  " ++ dq ++ u "\u00e9" ++ dq ++ u ": null,";
              u "  " ++ dq ++ u "b" ++ dq ++ u ": {}";
              u "}" ].
Proof. vm_compute. reflexivity. Qed.

(** [json.loads]: whitespace, escapes, a repeated key, numbers. *)
Example json_loads_sample :
  json_loads (u " { " ++ dq ++ u "k" ++ dq ++ u " : [1, -2.50e1, true, null, "
                ++ dq ++ u "a\n😀" ++ dq ++ u "], "
                ++ dq ++ u "k" ++ dq ++ u ":7, " ++ dq ++ u "z" ++ dq ++ u ": 1E400 } ")
  = Some (PyDict [ (u "k", PyInt 7); (u "z", PyFloat (S754_infinity false)) ])
  /\ json_loads (u "[1,]") = None
  /\ json_loads (u "01") = None
  /\ json_loads (u "[1] x") = None.
Proof. vm_compute. repeat split. Qed.

(** What an f-string field inserts for values that are not text. *)
Example py_format_samples :
  py_format printable_latin1 (PyList [PyStr (u "it's"); PyFloat (float_of_decimal false 15 (-1));
                                      PyNone; PyBool true; PyStr (u "a")])
  = u "[" ++ dq ++ u "it's" ++ dq ++ u ", 1.5, None, True, 'a']"
  /\ py_format printable_latin1 (PyStr (u "2025-06-01")) = u "2025-06-01"
  /\ py_format printable_latin1 (PyInt (-3)) = u "-3".
Proof. vm_compute. repeat split. Qed.

(** The forecast text of the sample payload. *)
Example get_forecast_sample :
  get_forecast printable_latin1 sample_server not_2xx berlin_latitude berlin_longitude
  = Return (join nl [ []; u "Date: 2025-06-01"; u "Max Temperature: 21.5°C";
                      u "Min Temperature: 11.8°C"; u "Precipitation: 0.0 mm";
                      u "Weather Code: 3"; []; u "---"; [];
                      u "Date: 2025-06-02"; u "Max Temperature: 19°C";
                      u "Min Temperature: 9.7°C"; u "Precipitation: 2.5 mm";
                      u "Weather Code: 61"; [] ]).
Proof. vm_compute. reflexivity. Qed.

(** An error status and a body that is not JSON both give [None]. *)
Example make_openmeteo_request_samples :
  make_openmeteo_request (answering 500 (json_dumps 2 sample_forecast)) not_2xx
    (forecast_url berlin_latitude berlin_longitude) = Return PyNone
  /\ make_openmeteo_request (answering 200 (u "<html>")) not_2xx
       (forecast_url berlin_latitude berlin_longitude) = Return PyNone
  /\ make_openmeteo_request offline not_2xx
       (forecast_url berlin_latitude berlin_longitude) = Return PyNone.
Proof. vm_compute. repeat split. Qed.
